(** * BD_Classes: query compilation and batched execution

    A shallow embedding of the two database handlers of the repository,
    [PostgresHandler] (src/async_pg.py, the pooled backend) and
    [SqliteHandler] (src/async_sqlite.py, the embedded backend), and the
    properties of their statement builders, batch loops, error paths and
    connection lifecycle.

    Python dictionaries are association lists in insertion order, SQL text
    built by f-strings is a list of fragments that [Sql.render] turns into the
    string handed to the driver, and the handlers' methods run in a state and
    exception monad over the handler's connection field, the log and the
    driver.

    The driver (asyncpg, sqlite3) is a parameter: any function from a call and
    the engine's state to a result or an exception.  One method runs at a
    time, so [await] is sequencing and [async with self.pool.acquire()] is the
    scope of its body.  Opening the pool or the connection is taken to
    succeed, and what [mass_update] of the embedded backend prints to the
    standard output is left out. *)

From Stdlib Require Import List String Ascii ZArith Lia Bool Arith DecimalString
  Permutation.
Import ListNotations.
Open Scope string_scope.
Open Scope list_scope.

(** String concatenation, as f-strings and [+] do it *)
Infix "^^" := String.append (at level 60, right associativity).

(** ** Python values and containers *)

Module Py.

Inductive pyval : Type :=
| VNone
| VBool (b : bool)
| VInt (z : Z)
| VStr (s : string).

(** [value is not None] *)
Definition is_not_none (v : pyval) : bool :=
  match v with VNone => false | _ => true end.

Definition str_of_Z (z : Z) : string := NilZero.string_of_int (Z.to_int z).
Definition str_of_nat (n : nat) : string := str_of_Z (Z.of_nat n).

(** [str(v)], as an f-string interpolates it *)
Definition py_str (v : pyval) : string :=
  match v with
  | VNone => "None"
  | VBool true => "True"
  | VBool false => "False"
  | VInt z => str_of_Z z
  | VStr s => s
  end.

(** A [dict] with string keys, in insertion order. *)
Definition dict : Type := list (string * pyval).

Definition keys (d : dict) : list string := map fst d.
Definition values (d : dict) : list pyval := map snd d.
Definition items (d : dict) : list (string * pyval) := d.

(** Truth value of a container: [if d:] *)
Definition truthy {A : Type} (l : list A) : bool :=
  match l with [] => false | _ :: _ => true end.

(** [d[k]] with its [KeyError] as [None] *)
Fixpoint lookup (k : string) (d : dict) : option pyval :=
  match d with
  | [] => None
  | (k', v) :: rest => if String.eqb k k' then Some v else lookup k rest
  end.

(** [d[k] = v]: an existing key keeps its position *)
Fixpoint dict_set (k : string) (v : pyval) (d : dict) : dict :=
  match d with
  | [] => [(k, v)]
  | (k', v') :: rest =>
      if String.eqb k k' then (k, v) :: rest else (k', v') :: dict_set k v rest
  end.

(** [dict(pairs)] *)
Definition dict_of (pairs : list (string * pyval)) : dict :=
  fold_left (fun d kv => dict_set (fst kv) (snd kv) d) pairs [].

(** [zip(a, b)] stops at the shorter argument, as [combine] does. *)
Definition zip {A B : Type} (a : list A) (b : list B) : list (A * B) := combine a b.

(** [enumerate(l)] *)
Definition enumerate {A : Type} (l : list A) : list (nat * A) :=
  combine (seq 0 (List.length l)) l.

(** [sep.join(parts)] on sequences *)
Fixpoint join {A : Type} (sep : list A) (parts : list (list A)) : list A :=
  match parts with
  | [] => []
  | p :: rest =>
      match rest with
      | [] => p
      | _ :: _ => p ++ sep ++ join sep rest
      end
  end.

(** Exceptions carry their class name and the text [str(e)] gives. *)
Inductive exn : Type := Exn (kind msg : string).

Definition str_exn (e : exn) : string := let 'Exn _ m := e in m.

(** [len(range(start, stop, step))] for a nonzero step *)
Definition range_length (start stop step : Z) : nat :=
  if (0 <? step)%Z then
    if (start <? stop)%Z then Z.to_nat ((stop - start - 1) / step + 1) else 0
  else
    if (stop <? start)%Z then Z.to_nat ((start - stop - 1) / (- step) + 1) else 0.

(** [range(start, stop, step)]; a zero step raises [ValueError]. *)
Definition range (start stop step : Z) : exn + list Z :=
  if (step =? 0)%Z then inl (Exn "ValueError" "range() arg 3 must not be zero")
  else inr (map (fun k => (start + Z.of_nat k * step)%Z)
                (seq 0 (range_length start stop step))).

(** A slice bound: negative bounds count from the end, and every bound is
    clamped to the list. *)
Definition clamp (n : nat) (i : Z) : nat :=
  let i' := if (i <? 0)%Z then (i + Z.of_nat n)%Z else i in
  Nat.min n (Z.to_nat i').

(** [l[i:j]] *)
Definition slice {A : Type} (l : list A) (i j : Z) : list A :=
  let lo := clamp (List.length l) i in
  let hi := clamp (List.length l) j in
  firstn (hi - lo) (skipn lo l).

(** [s.rstrip(',')] *)
Fixpoint rstrip_comma (s : string) : string :=
  match s with
  | EmptyString => EmptyString
  | String c rest =>
      match rstrip_comma rest with
      | EmptyString => if Ascii.eqb c "," then EmptyString else String c EmptyString
      | r => String c r
      end
  end.

End Py.
Import Py.

(** ** SQL text

    The statements are built by f-strings.  A fragment is template text, an
    interpolated caller string (a table or column name), an interpolated
    integer, a numbered placeholder [$n] of the pooled driver or the
    positional placeholder [?] of the embedded driver. *)

Module Sql.

Inductive frag : Type :=
| Txt (s : string)
| Name (s : string)
| Num (z : Z)
| Ph (n : nat)
| Qm.

Definition sql : Type := list frag.

Definition render_frag (f : frag) : string :=
  match f with
  | Txt s => s
  | Name s => s
  | Num z => str_of_Z z
  | Ph n => "$" ^^ str_of_nat n
  | Qm => "?"
  end.

Definition render (q : sql) : string :=
  fold_right (fun f s => render_frag f ^^ s) "" q.

(** The placeholder indices of a statement, left to right. *)
Fixpoint placeholders (q : sql) : list nat :=
  match q with
  | [] => []
  | Ph n :: rest => n :: placeholders rest
  | _ :: rest => placeholders rest
  end.

(** The embedded driver binds the k-th [?] of a statement, from the left,
    to the k-th bound value: [number_qmarks 1] writes that index out. *)
Fixpoint number_qmarks (next : nat) (q : sql) : sql :=
  match q with
  | [] => []
  | Qm :: rest => Ph next :: number_qmarks (S next) rest
  | f :: rest => f :: number_qmarks next rest
  end.

(** The equality tests [column = $n] of a statement, left to right. *)
Fixpoint bindings (q : sql) : list (string * nat) :=
  match q with
  | [] => []
  | f :: rest =>
      match f, rest with
      | Name k, Txt s :: Ph n :: _ =>
          if String.eqb s " = " then (k, n) :: bindings rest else bindings rest
      | _, _ => bindings rest
      end
  end.

(** Columns rendered as [column IS NULL], left to right. *)
Fixpoint null_tests (q : sql) : list string :=
  match q with
  | [] => []
  | f :: rest =>
      match f, rest with
      | Name k, Txt s :: _ =>
          if String.eqb s " IS NULL" then k :: null_tests rest else null_tests rest
      | _, _ => null_tests rest
      end
  end.

(** The value a statement's [$n] denotes under a bound-value list. *)
Definition arg (args : list pyval) (n : nat) : option pyval :=
  match n with
  | 0 => None
  | S i => nth_error args i
  end.

(** Each equality test with the value bound to its placeholder. *)
Definition resolve (q : sql) (args : list pyval) : list (string * option pyval) :=
  map (fun b => (fst b, arg args (snd b))) (bindings q).

End Sql.
Import Sql.

(** ** Effects

    A method of a handler reads and writes the handler's connection field,
    appends to the module's logger, and calls the driver, which answers with a
    result or raises.  [sent] records every driver call in the order it was
    made, with the exception it raised, if any. *)

Module Eff.

Inductive log_entry : Type :=
| LInfo (m : string)
| LError (m : string).

Inductive call : Type :=
| Execute (query : string) (args : list pyval)
| ExecuteMany (query : string) (rows : list (list pyval))
| Fetch (query : string) (args : list pyval)
| FetchVal (query : string) (args : list pyval)
| Commit.

Record world (E : Type) : Type := World {
  handle : bool;                       (* the pool / connection field is set *)
  log : list log_entry;
  sent : list (call * option exn);
  engine : E                           (* the state of the database engine *)
}.
Arguments World {E}.
Arguments handle {E}.
Arguments log {E}.
Arguments sent {E}.
Arguments engine {E}.

Inductive outcome (A : Type) : Type :=
| Ok (a : A)
| Raise (e : exn).
Arguments Ok {A}.
Arguments Raise {A}.

Definition M (E A : Type) : Type := world E -> outcome A * world E.

Definition ret {E A} (a : A) : M E A := fun w => (Ok a, w).

Definition raise {E A} (e : exn) : M E A := fun w => (Raise e, w).

Definition bind {E A B} (m : M E A) (k : A -> M E B) : M E B :=
  fun w =>
    match m w with
    | (Ok a, w') => k a w'
    | (Raise e, w') => (Raise e, w')
    end.

(** [try: m  except Exception as e: h e] *)
Definition try_except {E A} (m : M E A) (h : exn -> M E A) : M E A :=
  fun w =>
    match m w with
    | (Ok a, w') => (Ok a, w')
    | (Raise e, w') => h e w'
    end.

(** [try: m  finally: f]: [f] runs on every exit path; the outcome is the
    one of [m] unless [f] itself raises. *)
Definition finally {E A} (m : M E A) (f : M E unit) : M E A :=
  fun w =>
    let '(r, w') := m w in
    match f w' with
    | (Ok _, w'') => (r, w'')
    | (Raise e, w'') => (Raise e, w'')
    end.

(** [for x in l: body x] *)
Fixpoint for_each {E A} (l : list A) (body : A -> M E unit) : M E unit :=
  match l with
  | [] => ret tt
  | x :: rest => bind (body x) (fun _ => for_each rest body)
  end.

(** A pure computation that may raise *)
Definition lift {E A} (r : exn + A) : M E A :=
  match r with
  | inl e => raise e
  | inr a => ret a
  end.

Definition logger_info {E} (m : string) : M E unit :=
  fun w => (Ok tt, World (handle w) (log w ++ [LInfo m]) (sent w) (engine w)).

Definition logger_error {E} (m : string) : M E unit :=
  fun w => (Ok tt, World (handle w) (log w ++ [LError m]) (sent w) (engine w)).

(** A driver call: the engine answers or raises, and the call is recorded. *)
Definition driver_call {E A} (c : call) (f : E -> (exn + A) * E) : M E A :=
  fun w =>
    match f (engine w) with
    | (inr a, e') => (Ok a, World (handle w) (log w) (sent w ++ [(c, None)]) e')
    | (inl x, e') => (Raise x, World (handle w) (log w) (sent w ++ [(c, Some x)]) e')
    end.

(** [if not self.handle: self.handle = <open>] *)
Definition connect {E} : M E unit :=
  fun w =>
    if handle w then (Ok tt, w)
    else (Ok tt, World true (log w) (sent w) (engine w)).

(** [if self.handle: self.handle.close(); self.handle = None] *)
Definition close {E} : M E unit :=
  fun w =>
    if handle w then (Ok tt, World false (log w) (sent w) (engine w))
    else (Ok tt, w).

(** The driver calls a run has made, from world [w] to world [w']. *)
Definition issued {E} (w w' : world E) : list (call * option exn) :=
  skipn (List.length (sent w)) (sent w').

End Eff.
Import Eff.

Declare Scope py_scope.
Notation "x <- m ;; k" := (bind m (fun x => k))
  (at level 61, m at next level, right associativity) : py_scope.
Notation "m ;; k" := (bind m (fun _ => k))
  (at level 61, right associativity) : py_scope.
Open Scope py_scope.

(** The arguments of the public operations *)

Record table_info : Type := TableInfo {
  name_table : string;
  primary_key : option (string * string * string);
  fields : list (string * string)
}.

(** One unit of [mass_update]: [{'where': ..., 'update': ...}] *)
Record update_spec : Type := UpdateSpec {
  where_ : dict;
  update : dict
}.

(** [query_params] of [select_data], with [.get]'s defaults *)
Record query_params : Type := QueryParams {
  find_data : option (list string);
  where_conditions : option (list dict)
}.

(** A condition argument as the caller passes it: [count_records] checks
    [isinstance(where_conditions, dict)] itself. *)
Inductive pyobj : Type :=
| PDict (d : dict)
| PVal (v : pyval).

(** [tuple(record[col] for col in columns)]; a missing column is a [KeyError]. *)
Fixpoint tuple_of (record : dict) (columns : list string) : exn + list pyval :=
  match columns with
  | [] => inr []
  | col :: rest =>
      match lookup col record with
      | None => inl (Exn "KeyError" ("'" ^^ col ^^ "'"))
      | Some v =>
          match tuple_of record rest with
          | inl e => inl e
          | inr vs => inr (v :: vs)
          end
      end
  end.

(** [[tuple(record[col] for col in columns) for record in batch]] *)
Fixpoint rows_of (columns : list string) (batch : list dict) : exn + list (list pyval) :=
  match batch with
  | [] => inr []
  | record :: rest =>
      match tuple_of record columns with
      | inl e => inl e
      | inr t =>
          match rows_of columns rest with
          | inl e => inl e
          | inr ts => inr (t :: ts)
          end
      end
  end.

(** [list(records[0].keys()) if records else []] *)
Definition insert_columns (records : list dict) : list string :=
  match records with
  | r :: _ => keys r
  | [] => []
  end.

(** [len(l)] as a Python integer *)
Definition len {A : Type} (l : list A) : Z := Z.of_nat (List.length l).

(** The chunks both handlers iterate over:
    [for i in range(0, len(l), batch_size): batch = l[i:i + batch_size]] *)
Definition batches {A : Type} (l : list A) (batch_size : Z) : exn + list (list A) :=
  match range 0 (len l) batch_size with
  | inl e => inl e
  | inr starts => inr (map (fun i => slice l i (i + batch_size)) starts)
  end.

(** The [CREATE TABLE] text, which both handlers build alike. *)
Definition build_create_query (info : table_info) : string :=
  let query := [Txt "CREATE TABLE IF NOT EXISTS "; Name (name_table info); Txt " ("] in
  let query :=
    match primary_key info with
    | Some (c, t, k) => query ++ [Name c; Txt " "; Name t; Txt " "; Name k; Txt ","]
    | None => query
    end in
  let query :=
    fold_left (fun q f => q ++ [Name (fst f); Txt " "; Name (snd f); Txt ","])
              (fields info) query in
  rstrip_comma (render query) ^^ ")".

(** ** The pooled backend: [PostgresHandler] (src/async_pg.py) *)

Module PostgresHandler.

(** What the handler uses of an acquired connection. *)
Record driver (E : Type) : Type := Driver {
  execute : string -> list pyval -> E -> (exn + string) * E;
  executemany : string -> list (list pyval) -> E -> (exn + unit) * E;
  fetch : string -> list pyval -> E -> (exn + list (list (string * pyval))) * E;
  fetchval : string -> list pyval -> E -> (exn + pyval) * E
}.
Arguments execute {E}.
Arguments executemany {E}.
Arguments fetch {E}.
Arguments fetchval {E}.

(** One condition of [build_select_query], compiled when [bound] values are
    already in [condition_values]. *)
Definition where_clause_of (bound : nat) (conditions : dict) : sql :=
  join [Txt " AND "]
       (map (fun ikv : nat * (string * pyval) =>
               let '(i, (key, value)) := ikv in
               if is_not_none value
               then [Name key; Txt " = "; Ph (bound + i + 1)]
               else [Name key; Txt " IS NULL"])
            (enumerate (items conditions))).

(** The loop of [build_select_query] over [where_conditions_list] *)
Fixpoint select_loop (l : list dict) (where_clauses : list sql)
         (condition_values : list pyval) : list sql * list pyval :=
  match l with
  | [] => (where_clauses, condition_values)
  | conditions :: rest =>
      if truthy conditions then
        select_loop rest
          (where_clauses ++ [where_clause_of (List.length condition_values) conditions])
          (condition_values ++ filter is_not_none (values conditions))
      else select_loop rest where_clauses condition_values
  end.

Definition build_select_query (table_name : string) (find_data : list string)
           (where_conditions_list : list dict) (batch_size : Z) : sql * list pyval :=
  let query :=
    [Txt "SELECT "] ++ join [Txt ", "] (map (fun c => [Name c]) find_data)
      ++ [Txt " FROM "; Name table_name] in
  if truthy where_conditions_list then
    let '(where_clauses, condition_values) := select_loop where_conditions_list [] [] in
    if truthy where_clauses then
      let query :=
        query ++ [Txt " WHERE "]
          ++ join [Txt " OR "]
                  (map (fun clause => [Txt "("] ++ clause ++ [Txt ")"]) where_clauses) in
      let query :=
        if (batch_size =? 0)%Z then query else query ++ [Txt " LIMIT "; Num batch_size] in
      (query, condition_values)
    else (query, condition_values)
  else (query, []).

(** The statement and the bound values [mass_update] forms for one item *)
Definition build_update_query (table_name : string) (data : update_spec)
  : sql * list pyval :=
  let where_dict := where_ data in
  let update_dict := update data in
  let where_clause :=
    join [Txt " AND "]
         (map (fun ik : nat * string => [Name (snd ik); Txt " = "; Ph (fst ik + 1)])
              (enumerate (keys where_dict))) in
  let update_clause :=
    join [Txt ", "]
         (map (fun ik : nat * string =>
                 [Name (snd ik); Txt " = "; Ph (List.length where_dict + fst ik + 1)])
              (enumerate (keys update_dict))) in
  let query :=
    [Txt "UPDATE "; Name table_name; Txt " SET "] ++ update_clause
      ++ [Txt " WHERE "] ++ where_clause in
  let data_values := values where_dict ++ values update_dict in
  (query, data_values).

(** The [INSERT] template of [insert_into_table_bulk] *)
Definition build_insert_query (table_name : string) (columns : list string) : sql :=
  let values_placeholder :=
    join [Txt ", "] (map (fun i => [Ph (i + 1)]) (seq 0 (List.length columns))) in
  [Txt "INSERT INTO "; Name table_name; Txt " ("]
    ++ join [Txt ", "] (map (fun c => [Name c]) columns)
    ++ [Txt ")
                            VALUES ("] ++ values_placeholder ++ [Txt ")"].

(** The statement and the bound values of [delete_data] *)
Definition build_delete_query (table_name : string) (where_conditions : dict)
  : sql * list pyval :=
  let query := [Txt "DELETE FROM "; Name table_name] in
  let query :=
    if truthy where_conditions then
      let where_columns :=
        map (fun ik : nat * string => [Name (snd ik); Txt " = "; Ph (fst ik + 1)])
            (enumerate (keys where_conditions)) in
      query ++ [Txt " WHERE "] ++ join [Txt " AND "] where_columns
    else query in
  (query, values where_conditions).

(** The statement and the bound values of [count_records] *)
Definition build_count_query (table_name : string) (where_conditions : dict)
  : sql * list pyval :=
  let where_clause :=
    join [Txt " AND "]
         (map (fun ik : nat * string => [Name (snd ik); Txt " = "; Ph (fst ik + 1)])
              (enumerate (keys where_conditions))) in
  let query := [Txt "SELECT COUNT(*) FROM "; Name table_name] in
  let query :=
    if String.eqb (render where_clause) "" then query
    else query ++ [Txt " WHERE "] ++ where_clause in
  let null_col :=
    map fst (filter (fun kv => negb (is_not_none (snd kv))) (items where_conditions)) in
  let query :=
    match null_col with
    | c :: _ => query ++ [Txt " OR "; Name c; Txt " IS NULL"]
    | [] => query
    end in
  (query, values where_conditions).

Section Handler.

Context {E : Type} (drv : driver E).

Definition create_tables (info : table_info) : M E string :=
  connect ;;
  try_except
    (let query := build_create_query info in
     _ <- driver_call (Execute query []) (execute drv query []) ;;
     logger_info ("Table '" ^^ name_table info ^^ "' successfully created or already exists.") ;;
     ret "ok")
    (fun e =>
       logger_error ("Error creating table: " ^^ str_exn e) ;;
       ret ("Error creating table: " ^^ str_exn e)).

Definition mass_update (table_name : string) (data_list : list update_spec)
           (batch_size : Z) : M E unit :=
  connect ;;
  starts <- lift (range 0 (len data_list) batch_size) ;;
  for_each starts (fun i =>
    let batch := slice data_list i (i + batch_size) in
    for_each batch (fun data =>
      let '(query, data_values) := build_update_query table_name data in
      try_except
        (_ <- driver_call (Execute (render query) data_values)
                          (execute drv (render query) data_values) ;;
         ret tt)
        (fun e => logger_error ("Error updating records: " ^^ str_exn e)))).

Definition insert_into_table_bulk (table_name : string) (records : list dict)
           (batch_size : Z) : M E string :=
  connect ;;
  try_except
    (let columns := insert_columns records in
     let query := render (build_insert_query table_name columns) in
     starts <- lift (range 0 (len records) batch_size) ;;
     for_each starts (fun i =>
       let batch := slice records i (i + batch_size) in
       values <- lift (rows_of columns batch) ;;
       driver_call (ExecuteMany query values) (executemany drv query values)) ;;
     logger_info (str_of_nat (List.length records) ^^ " records added to the table "
                    ^^ table_name) ;;
     ret "ok")
    (fun e =>
       logger_error ("Error adding records: " ^^ str_exn e) ;;
       ret ("Error adding records: " ^^ str_exn e)).

Definition select_data (table_name : string) (params : query_params)
           (batch_size : Z) : M E (list dict) :=
  connect ;;
  let find_data := match find_data params with Some l => l | None => ["*"] end in
  let where_conditions_list :=
    match where_conditions params with Some l => l | None => [] end in
  let '(query, condition_values) :=
    build_select_query table_name find_data where_conditions_list batch_size in
  finally
    (try_except
       (result <- driver_call (Fetch (render query) condition_values)
                              (fetch drv (render query) condition_values) ;;
        let result_list := map dict_of result in
        ret result_list)
       (fun e =>
          logger_error ("Error executing SELECT query: " ^^ str_exn e) ;;
          raise e))
    close.

Definition delete_data (table_name : string) (where_conditions : dict) : M E string :=
  try_except
    (connect ;;
     let '(query, args) := build_delete_query table_name where_conditions in
     _ <- driver_call (Execute (render query) args) (execute drv (render query) args) ;;
     logger_info ("Records in the table '" ^^ table_name ^^ "' successfully deleted.") ;;
     ret "ok")
    (fun e =>
       logger_error ("Error deleting data: " ^^ str_exn e) ;;
       ret ("Error deleting data: " ^^ str_exn e)).

Definition delete_all_data_from_table (table_name : string) : M E string :=
  connect ;;
  try_except
    (let query := render [Txt "DELETE FROM "; Name table_name] in
     result <- driver_call (Execute query []) (execute drv query []) ;;
     logger_info (result ^^ " records deleted from the table " ^^ table_name) ;;
     ret "ok")
    (fun e =>
       logger_error ("Error deleting records: " ^^ str_exn e) ;;
       ret "error").

Definition count_records (table_name : string) (where_conditions : pyobj) : M E pyval :=
  match table_name, where_conditions with
  | String _ _, PDict where_conditions =>
      connect ;;
      try_except
        (let '(query, args) := build_count_query table_name where_conditions in
         count <- driver_call (FetchVal (render query) args)
                              (fetchval drv (render query) args) ;;
         logger_info (py_str count ^^ " results in the database for the specified query") ;;
         ret count)
        (fun e =>
           logger_error ("Error counting records: " ^^ str_exn e) ;;
           raise e)
  | _, _ => raise (Exn "ValueError" "Invalid parameters")
  end.

End Handler.

End PostgresHandler.

(** ** The embedded backend: [SqliteHandler] (src/async_sqlite.py) *)

Module SqliteHandler.

(** A row as [fetchall] hands it over: the driver's default is a tuple, and
    [select_data] checks for it. *)
Inductive row : Type :=
| TupleRow (cells : list pyval)
| OtherRow (v : pyval).

Definition is_tuple (r : row) : bool :=
  match r with TupleRow _ => true | OtherRow _ => false end.

Definition cells_of (r : row) : list pyval :=
  match r with TupleRow cs => cs | OtherRow _ => [] end.

(** What the handler uses of the connection and its cursor.  [execute]
    answers with the rows [fetchall] then returns. *)
Record driver (E : Type) : Type := Driver {
  execute : string -> list pyval -> E -> (exn + list row) * E;
  executemany : string -> list (list pyval) -> E -> (exn + unit) * E;
  commit : E -> (exn + unit) * E
}.
Arguments execute {E}.
Arguments executemany {E}.
Arguments commit {E}.

(** The cursor of the embedded driver has no [fetchval]. *)
Definition no_fetchval : exn :=
  Exn "AttributeError" "'sqlite3.Cursor' object has no attribute 'fetchval'".

Definition where_clause_of (conditions : dict) : sql :=
  join [Txt " AND "]
       (map (fun kv : string * pyval =>
               if is_not_none (snd kv)
               then [Name (fst kv); Txt " = "; Qm]
               else [Name (fst kv); Txt " IS NULL"])
            (items conditions)).

Fixpoint select_loop (l : list dict) (where_clauses : list sql)
         (condition_values : list pyval) : list sql * list pyval :=
  match l with
  | [] => (where_clauses, condition_values)
  | conditions :: rest =>
      if truthy conditions then
        select_loop rest
          (where_clauses ++ [where_clause_of conditions])
          (condition_values ++ filter is_not_none (values conditions))
      else select_loop rest where_clauses condition_values
  end.

Definition build_select_query (table_name : string) (find_data : list string)
           (where_conditions_list : list dict) (batch_size : Z) : sql * list pyval :=
  let query :=
    [Txt "SELECT "] ++ join [Txt ", "] (map (fun c => [Name c]) find_data)
      ++ [Txt " FROM "; Name table_name] in
  if truthy where_conditions_list then
    let '(where_clauses, condition_values) := select_loop where_conditions_list [] [] in
    if truthy where_clauses then
      let query :=
        query ++ [Txt " WHERE "]
          ++ join [Txt " OR "]
                  (map (fun clause => [Txt "("] ++ clause ++ [Txt ")"]) where_clauses) in
      let query :=
        if (batch_size =? 0)%Z then query else query ++ [Txt " LIMIT "; Num batch_size] in
      (query, condition_values)
    else (query, condition_values)
  else (query, []).

Definition build_update_query (table_name : string) (data : update_spec)
  : sql * list pyval :=
  let where_dict := where_ data in
  let update_dict := update data in
  let where_clause :=
    join [Txt " AND "] (map (fun k => [Name k; Txt " = "; Qm]) (keys where_dict)) in
  let where_values := values where_dict in
  let update_clause :=
    join [Txt ", "] (map (fun k => [Name k; Txt " = "; Qm]) (keys update_dict)) in
  let update_values := values update_dict in
  let query :=
    [Txt "UPDATE "; Name table_name; Txt " SET "] ++ update_clause
      ++ [Txt " WHERE "] ++ where_clause in
  let data_values := update_values ++ where_values in
  (query, data_values).

Definition build_insert_query (table_name : string) (columns : list string) : sql :=
  let values_placeholder :=
    join [Txt ", "] (map (fun _ => [Qm]) (seq 0 (List.length columns))) in
  [Txt "INSERT INTO "; Name table_name; Txt " ("]
    ++ join [Txt ", "] (map (fun c => [Name c]) columns)
    ++ [Txt ") VALUES ("] ++ values_placeholder ++ [Txt ")"].

Definition build_delete_query (table_name : string) (where_conditions : dict)
  : sql * list pyval :=
  let query := [Txt "DELETE FROM "; Name table_name] in
  let query :=
    if truthy where_conditions then
      let where_columns :=
        map (fun key => [Name key; Txt " = "; Qm]) (keys where_conditions) in
      query ++ [Txt " WHERE "] ++ join [Txt " AND "] where_columns
    else query in
  (query, values where_conditions).

Definition build_count_query (table_name : string) (where_conditions : dict)
  : sql * list pyval :=
  let where_clause :=
    join [Txt " AND "] (map (fun col => [Name col; Txt " = "; Qm]) (keys where_conditions)) in
  let query := [Txt "SELECT COUNT(*) FROM "; Name table_name] in
  let query :=
    if String.eqb (render where_clause) "" then query
    else query ++ [Txt " WHERE "] ++ where_clause in
  let null_col :=
    map fst (filter (fun kv => negb (is_not_none (snd kv))) (items where_conditions)) in
  let query :=
    match null_col with
    | c :: _ => query ++ [Txt " OR "; Name c; Txt " IS NULL"]
    | [] => query
    end in
  (query, values where_conditions).

(** The result mapper of [select_data]:
    [[dict(zip(find_data, row)) for row in result]], or the empty list when
    some row is not a tuple. *)
Definition map_rows (find_data : list string) (result : list row) : list dict :=
  if forallb is_tuple result
  then map (fun r => dict_of (zip find_data (cells_of r))) result
  else [].

Section Handler.

Context {E : Type} (drv : driver E).

Definition create_tables (info : table_info) : M E string :=
  connect ;;
  finally
    (try_except
       (let query := build_create_query info in
        _ <- driver_call (Execute query []) (execute drv query []) ;;
        driver_call Commit (commit drv) ;;
        logger_info ("Table '" ^^ name_table info
                       ^^ "' successfully created or already exists.") ;;
        ret "ok")
       (fun e =>
          logger_error ("Error creating table: " ^^ str_exn e) ;;
          ret ("Error creating table: " ^^ str_exn e)))
    close.

Definition mass_update (table_name : string) (data_list : list update_spec)
           (batch_size : Z) : M E unit :=
  connect ;;
  finally
    (try_except
       (starts <- lift (range 0 (len data_list) batch_size) ;;
        for_each starts (fun i =>
          let batch := slice data_list i (i + batch_size) in
          for_each batch (fun data =>
            let '(query, data_values) := build_update_query table_name data in
            try_except
              (_ <- driver_call (Execute (render query) data_values)
                                (execute drv (render query) data_values) ;;
               ret tt)
              (fun e => logger_error ("Error updating records: " ^^ str_exn e)))) ;;
        driver_call Commit (commit drv))
       (fun e => logger_error ("Error updating records: " ^^ str_exn e)))
    close.

Definition insert_into_table_bulk (table_name : string) (records : list dict)
           (batch_size : Z) : M E string :=
  connect ;;
  finally
    (try_except
       (let columns := insert_columns records in
        let query := render (build_insert_query table_name columns) in
        starts <- lift (range 0 (len records) batch_size) ;;
        for_each starts (fun i =>
          let batch := slice records i (i + batch_size) in
          values <- lift (rows_of columns batch) ;;
          driver_call (ExecuteMany query values) (executemany drv query values)) ;;
        driver_call Commit (commit drv) ;;
        logger_info (str_of_nat (List.length records) ^^ " records added to the table "
                       ^^ table_name) ;;
        ret "ok")
       (fun e =>
          logger_error ("Error adding records: " ^^ str_exn e) ;;
          ret ("Error adding records: " ^^ str_exn e)))
    close.

Definition select_data (table_name : string) (params : query_params)
           (batch_size : Z) : M E (list dict) :=
  connect ;;
  let find_data := match find_data params with Some l => l | None => ["*"] end in
  let where_conditions_list :=
    match where_conditions params with Some l => l | None => [] end in
  let '(query, condition_values) :=
    build_select_query table_name find_data where_conditions_list batch_size in
  finally
    (try_except
       (result <- driver_call (Execute (render query) condition_values)
                              (execute drv (render query) condition_values) ;;
        if forallb is_tuple result then
          let result_list := map (fun r => dict_of (zip find_data (cells_of r))) result in
          ret result_list
        else
          (* the message ends with the interpolated rows, left out here *)
          logger_error "Unexpected result format for SELECT query: " ;;
          ret [])
       (fun e =>
          logger_error ("Error executing SELECT query: " ^^ str_exn e) ;;
          raise e))
    close.

Definition delete_data (table_name : string) (where_conditions : dict) : M E string :=
  finally
    (try_except
       (connect ;;
        let '(query, args) := build_delete_query table_name where_conditions in
        _ <- driver_call (Execute (render query) args) (execute drv (render query) args) ;;
        driver_call Commit (commit drv) ;;
        logger_info ("Records in the table '" ^^ table_name ^^ "' successfully deleted.") ;;
        ret "ok")
       (fun e =>
          logger_error ("Error deleting data: " ^^ str_exn e) ;;
          ret ("Error deleting data: " ^^ str_exn e)))
    close.

Definition delete_all_data_from_table (table_name : string) : M E string :=
  connect ;;
  try_except
    (let query := render [Txt "DELETE FROM "; Name table_name] in
     _ <- driver_call (Execute query []) (execute drv query []) ;;
     driver_call Commit (commit drv) ;;
     logger_info ("All records deleted from the table " ^^ table_name) ;;
     ret "ok")
    (fun e =>
       logger_error ("Error deleting records: " ^^ str_exn e) ;;
       ret "error").

Definition count_records (table_name : string) (where_conditions : pyobj) : M E pyval :=
  match table_name, where_conditions with
  | String _ _, PDict where_conditions =>
      connect ;;
      finally
        (try_except
           (let '(query, args) := build_count_query table_name where_conditions in
            _ <- driver_call (Execute (render query) args)
                             (execute drv (render query) args) ;;
            count <- raise no_fetchval ;;
            logger_info (py_str count ^^ " results in the database for the specified query") ;;
            ret count)
           (fun e =>
              logger_error ("Error counting records: " ^^ str_exn e) ;;
              raise e))
        close
  | _, _ => raise (Exn "ValueError" "Invalid parameters")
  end.

End Handler.

End SqliteHandler.

(** ** Vocabulary of the statements

    What the properties below say about traces, statements and predicates. *)

(** *** Traces *)

(** The trace entries of calls that all succeeded *)
Definition planned {V : Type} (mk : V -> call) (vs : list V) : list (call * option exn) :=
  map (fun v => (mk v, None)) vs.

(** The statement [mass_update] executes for one item *)
Definition pg_update_call (table_name : string) (data : update_spec) : call :=
  Execute (render (fst (PostgresHandler.build_update_query table_name data)))
          (snd (PostgresHandler.build_update_query table_name data)).

Definition sqlite_update_call (table_name : string) (data : update_spec) : call :=
  Execute (render (fst (SqliteHandler.build_update_query table_name data)))
          (snd (SqliteHandler.build_update_query table_name data)).

(** *** Reading a statement back *)

(** A piece that does not begin in the middle of a test *)
Definition starts_plain (q : sql) : bool :=
  match q with
  | Ph _ :: _ => false
  | Txt s :: rest =>
      negb (String.eqb s " IS NULL")
      && match rest with Ph _ :: _ => false | _ => true end
  | _ => true
  end.

(** The template text of a statement, left to right *)
Fixpoint txts (q : sql) : list string :=
  match q with
  | [] => []
  | Txt s :: rest => s :: txts rest
  | _ :: rest => txts rest
  end.

(** The number of positional placeholders of a statement *)
Fixpoint count_qm (q : sql) : nat :=
  match q with
  | [] => 0
  | Qm :: rest => S (count_qm rest)
  | _ :: rest => count_qm rest
  end.

(** A statement with its numbered placeholders made positional *)
Definition erase (q : sql) : sql :=
  map (fun f => match f with Ph _ => Qm | _ => f end) q.

(** *** The flat [WHERE] of delete, count and update *)

(** The tests [k = $first], [k' = $(first+1)], ... *)
Fixpoint eq_atoms (first : nat) (ks : list string) : list sql :=
  match ks with
  | [] => []
  | k :: rest => [Name k; Txt " = "; Ph first] :: eq_atoms (S first) rest
  end.

(** The tests [k = ?], [k' = ?], ... *)
Definition sq_atoms (ks : list string) : list sql :=
  map (fun k => [Name k; Txt " = "; Qm]) ks.

(** [null_col[:1]]: the first null-valued column, if any *)
Definition first_null (d : dict) : list string :=
  firstn 1 (map fst (filter (fun kv => negb (is_not_none (snd kv))) (items d))).

(** What [count_records] appends for it *)
Definition null_part (d : dict) : sql :=
  match first_null d with
  | c :: _ => [Txt " OR "; Name c; Txt " IS NULL"]
  | [] => []
  end.

(** *** The predicate of [build_select_query] *)

(** [value is None] and [value is not None] on an item *)
Definition is_null (kv : string * pyval) : bool := negb (is_not_none (snd kv)).
Definition not_null (kv : string * pyval) : bool := is_not_none (snd kv).

(** No null-valued column comes before a non-null one. *)
Fixpoint nulls_last (d : dict) : bool :=
  match d with
  | [] => true
  | kv :: rest => if not_null kv then nulls_last rest else forallb is_null rest
  end.

(** The tests of one condition whose first column has position [i] *)
Fixpoint cond_atoms (bound i : nat) (d : dict) : list sql :=
  match d with
  | [] => []
  | (k, v) :: rest =>
      (if is_not_none v then [Name k; Txt " = "; Ph (bound + i + 1)]
       else [Name k; Txt " IS NULL"]) :: cond_atoms bound (S i) rest
  end.

(** The clauses [select_loop] appends when [n] values are bound already *)
Fixpoint sel_clauses (n : nat) (l : list dict) : list sql :=
  match l with
  | [] => []
  | d :: rest =>
      if truthy d
      then PostgresHandler.where_clause_of n d
             :: sel_clauses (n + List.length (filter is_not_none (values d))) rest
      else sel_clauses n rest
  end.

(** The clauses of the embedded backend's [select_loop] *)
Definition sq_clauses (l : list dict) : list sql :=
  map SqliteHandler.where_clause_of (filter truthy l).

(** [f'({clause})'] *)
Definition paren (clause : sql) : sql := [Txt "("] ++ clause ++ [Txt ")"].

(** The parts of the statement of [build_select_query] *)
Definition select_base (table_name : string) (find_data : list string) : sql :=
  [Txt "SELECT "] ++ join [Txt ", "] (map (fun c => [Name c]) find_data)
    ++ [Txt " FROM "; Name table_name].

Definition where_part (clauses : list sql) : sql :=
  if truthy clauses then Txt " WHERE " :: join [Txt " OR "] (map paren clauses) else [].

Definition limit_part (clauses : list sql) (batch_size : Z) : sql :=
  if truthy clauses && negb (batch_size =? 0)%Z
  then [Txt " LIMIT "; Num batch_size] else [].

(** The non-null values of a ConditionSet, in iteration order *)
Definition nonnull_values (l : list dict) : list pyval :=
  filter is_not_none (List.concat (map values l)).

(** *** Sample worlds and drivers *)

(** A handler that has not connected yet *)
Definition disconnected : world unit := World false [] [] tt.

Definition rejected : exn := Exn "DatabaseError" "no such table: t".

(** A driver that rejects every statement, and drivers that accept all *)
Definition rejecting_pg : PostgresHandler.driver unit :=
  PostgresHandler.Driver unit
    (fun _ _ e => (inl rejected, e)) (fun _ _ e => (inl rejected, e))
    (fun _ _ e => (inl rejected, e)) (fun _ _ e => (inl rejected, e)).

Definition accepting_pg : PostgresHandler.driver unit :=
  PostgresHandler.Driver unit
    (fun _ _ e => (inr "OK", e)) (fun _ _ e => (inr tt, e))
    (fun _ _ e => (inr [[("id", VInt 1); ("name", VStr "John"); ("age", VInt 25)]], e))
    (fun _ _ e => (inr (VInt 2), e)).

Definition accepting_sqlite : SqliteHandler.driver unit :=
  SqliteHandler.Driver unit
    (fun _ _ e => (inr [SqliteHandler.TupleRow [VInt 1; VStr "John"; VInt 25]], e))
    (fun _ _ e => (inr tt, e))
    (fun e => (inr tt, e)).

(** Three records to insert *)
Definition users : list dict :=
  [[("id", VInt 1); ("name", VStr "John"); ("age", VInt 25)];
   [("id", VInt 2); ("name", VStr "Jane"); ("age", VInt 30)];
   [("id", VInt 3); ("name", VStr "Joe"); ("age", VInt 35)]].

(** *** Numbering the positional placeholders of a joined text *)

(** The parts of a joined text with their [?] numbered from [next] on *)
Fixpoint number_parts (next : nat) (parts : list sql) : list sql :=
  match parts with
  | [] => []
  | p :: rest => number_qmarks next p :: number_parts (next + count_qm p) rest
  end.

(** The test [select_data] writes for one column of a Condition *)
Definition sq_atom (kv : string * pyval) : sql :=
  if is_not_none (snd kv)
  then [Name (fst kv); Txt " = "; Qm]
  else [Name (fst kv); Txt " IS NULL"].

(** *** What bulk update logs *)

(** One error entry per failed call of a trace, in the order of the calls *)
Definition update_errors (tr : list (call * option exn)) : list log_entry :=
  flat_map (fun ce : call * option exn =>
              match snd ce with
              | Some e => [LError ("Error updating records: " ^^ str_exn e)]
              | None => []
              end) tr.

(** *** The columns of [CREATE TABLE] *)

(** The column definitions [create_tables] writes, the primary key first *)
Definition column_defs (info : table_info) : list string :=
  match primary_key info with
  | Some (c, t, k) => [c ^^ " " ^^ t ^^ " " ^^ k]
  | None => []
  end ++ map (fun f => fst f ^^ " " ^^ snd f) (fields info).

(** [s.endswith(',')] *)
Fixpoint ends_with_comma (s : string) : bool :=
  match s with
  | EmptyString => false
  | String c EmptyString => Ascii.eqb c ","
  | String _ rest => ends_with_comma rest
  end.

(** * Properties *)

(** ** Lists, ranges and slices *)

Lemma firstn_add_skipn {A : Type} (a b : nat) (l : list A) :
  firstn (a + b) l = firstn a l ++ firstn b (skipn a l).
Proof.
  revert l; induction a as [|a IH]; intros l; simpl.
  - reflexivity.
  - destruct l as [|x l]; simpl.
    + now rewrite firstn_nil.
    + now rewrite IH.
Qed.

Lemma clamp_of_nat (n a : nat) : clamp n (Z.of_nat a) = Nat.min n a.
Proof.
  unfold clamp.
  destruct (Z.ltb_spec (Z.of_nat a) 0) as [H|H]; [lia|].
  now rewrite Nat2Z.id.
Qed.

(** A slice between two natural bounds *)
Lemma slice_nat {A : Type} (l : list A) (a b : nat) :
  slice l (Z.of_nat a) (Z.of_nat a + Z.of_nat b) = firstn b (skipn a l).
Proof.
  unfold slice.
  rewrite <- Nat2Z.inj_add, !clamp_of_nat.
  destruct (Nat.le_gt_cases (List.length l) a) as [H|H].
  - rewrite (Nat.min_l _ a) by lia.
    rewrite (Nat.min_l _ (a + b)) by lia.
    rewrite Nat.sub_diag, (skipn_all2 l H). simpl.
    now rewrite firstn_nil.
  - rewrite (Nat.min_r _ a) by lia.
    destruct (Nat.le_gt_cases (List.length l) (a + b)) as [H'|H'].
    + rewrite Nat.min_l by lia.
      rewrite !firstn_all2; trivial; rewrite length_skipn; lia.
    + rewrite Nat.min_r by lia. f_equal. lia.
Qed.

Lemma concat_slices {A : Type} (l : list A) (b m : nat) :
  List.concat (map (fun k => firstn b (skipn (k * b) l)) (seq 0 m)) = firstn (m * b) l.
Proof.
  induction m as [|m IH].
  - reflexivity.
  - rewrite seq_S, map_app, concat_app, IH. simpl.
    rewrite app_nil_r, (Nat.add_comm b), firstn_add_skipn. reflexivity.
Qed.

(** The number of chunks, as [range] computes it *)
Lemma range_length_batches (n : nat) (bs : Z) :
  (1 <= bs)%Z ->
  Z.of_nat (range_length 0 (Z.of_nat n) bs) = ((Z.of_nat n + bs - 1) / bs)%Z.
Proof.
  intros Hbs. unfold range_length.
  destruct (Z.ltb_spec 0 bs) as [_|H]; [|lia].
  destruct (Z.ltb_spec 0 (Z.of_nat n)) as [Hn|Hn].
  - rewrite Z2Nat.id.
    + replace (Z.of_nat n + bs - 1)%Z with (Z.of_nat n - 0 - 1 + 1 * bs)%Z by lia.
      rewrite Z.div_add by lia. reflexivity.
    + assert (0 <= (Z.of_nat n - 0 - 1) / bs)%Z by (apply Z.div_pos; lia). lia.
  - replace (Z.of_nat n) with 0%Z by lia. simpl.
    symmetry. apply Z.div_small. lia.
Qed.

(** [batches] in closed form: chunk [k] is the [k]-th run of [b] items. *)
Lemma batches_nat {A : Type} (l : list A) (b : nat) :
  1 <= b ->
  batches l (Z.of_nat b) =
    inr (map (fun k => firstn b (skipn (k * b) l))
             (seq 0 (range_length 0 (len l) (Z.of_nat b)))).
Proof.
  intros Hb. unfold batches, range.
  destruct (Z.eqb_spec (Z.of_nat b) 0) as [H|_]; [lia|].
  rewrite map_map. f_equal. apply map_ext. intros k.
  rewrite Z.add_0_l, <- Nat2Z.inj_mul. apply slice_nat.
Qed.

Lemma chunks_cover (n b : nat) :
  1 <= b -> n <= range_length 0 (Z.of_nat n) (Z.of_nat b) * b.
Proof.
  intros Hb.
  pose proof (range_length_batches n (Z.of_nat b) ltac:(lia)) as H.
  set (m := range_length 0 (Z.of_nat n) (Z.of_nat b)) in *.
  assert (Hm : (Z.of_nat n + Z.of_nat b - 1 < (Z.of_nat m + 1) * Z.of_nat b)%Z).
  { rewrite H.
    pose proof (Z.mul_succ_div_gt (Z.of_nat n + Z.of_nat b - 1) (Z.of_nat b) ltac:(lia)).
    lia. }
  nia.
Qed.

Lemma chunks_tight (n b : nat) :
  1 <= b -> forall k, S k <= range_length 0 (Z.of_nat n) (Z.of_nat b) -> k * b < n.
Proof.
  intros Hb k Hk.
  pose proof (range_length_batches n (Z.of_nat b) ltac:(lia)) as H.
  set (m := range_length 0 (Z.of_nat n) (Z.of_nat b)) in *.
  pose proof (Z.mul_div_le (Z.of_nat n + Z.of_nat b - 1) (Z.of_nat b) ltac:(lia)) as H'.
  rewrite <- H in H'. nia.
Qed.

(** [rows_of] is a traversal: it keeps the length and commutes with taking
    and dropping a prefix. *)
Lemma rows_of_length (columns : list string) (batch : list dict) rows :
  rows_of columns batch = inr rows -> List.length rows = List.length batch.
Proof.
  revert rows; induction batch as [|r batch IH]; simpl; intros rows H.
  - injection H as <-. reflexivity.
  - destruct (tuple_of r columns); [discriminate|].
    destruct (rows_of columns batch); [discriminate|].
    injection H as <-. simpl. now rewrite (IH _ eq_refl).
Qed.

Lemma rows_of_firstn (columns : list string) (n : nat) (batch : list dict) rows :
  rows_of columns batch = inr rows ->
  rows_of columns (firstn n batch) = inr (firstn n rows).
Proof.
  revert batch rows; induction n as [|n IH]; intros [|r batch] rows H; simpl in *;
    try (injection H as <-; reflexivity); try reflexivity.
  destruct (tuple_of r columns); [discriminate|].
  destruct (rows_of columns batch) eqn:Hb; [discriminate|].
  injection H as <-. simpl. now rewrite (IH _ _ Hb).
Qed.

Lemma rows_of_skipn (columns : list string) (n : nat) (batch : list dict) rows :
  rows_of columns batch = inr rows ->
  rows_of columns (skipn n batch) = inr (skipn n rows).
Proof.
  revert batch rows; induction n as [|n IH]; intros [|r batch] rows H; simpl in *;
    try (injection H as <-; reflexivity); try assumption.
  destruct (tuple_of r columns); [discriminate|].
  destruct (rows_of columns batch) eqn:Hb; [discriminate|].
  injection H as <-. simpl. now apply IH.
Qed.

(** ** The monad *)

Lemma skipn_app_length {A : Type} (a b : list A) : skipn (List.length a) (a ++ b) = b.
Proof. induction a; simpl; auto. Qed.

Lemma issued_app {E : Type} (w w' : world E) tr :
  sent w' = sent w ++ tr -> issued w w' = tr.
Proof. intros H. unfold issued. rewrite H. apply skipn_app_length. Qed.

Lemma for_each_ext {E A : Type} (l : list A) (f g : A -> M E unit) :
  (forall x w, In x l -> f x w = g x w) ->
  forall w, for_each l f w = for_each l g w.
Proof.
  induction l as [|x l IH]; intros H w; simpl.
  - reflexivity.
  - unfold bind. rewrite (H x w (or_introl eq_refl)).
    destruct (g x w) as [[[]|e] w1]; [|reflexivity].
    apply IH. intros y w2 Hy. apply H. now right.
Qed.

Lemma for_each_map {E A B : Type} (h : A -> B) (l : list A) (f : B -> M E unit) :
  forall w, for_each (map h l) f w = for_each l (fun x => f (h x)) w.
Proof.
  induction l as [|x l IH]; intros w; simpl.
  - reflexivity.
  - unfold bind. destruct (f (h x) w) as [[[]|e] w1]; [apply IH|reflexivity].
Qed.

(** [finally: await self.close()] leaves the handler disconnected whatever
    the body did. *)
Lemma finally_close_handle {E A : Type} (m : M E A) (w : world E) :
  handle (snd (finally m close w)) = false.
Proof.
  unfold finally, close. destruct (m w) as [r w1].
  destruct (handle w1) eqn:H; simpl; auto.
Qed.

Lemma connect_finally_close_handle {E A : Type} (m : M E A) (w : world E) :
  handle (snd (bind connect (fun _ => finally m close) w)) = false.
Proof.
  unfold bind, connect. destruct (handle w); apply finally_close_handle.
Qed.

(** A loop of driver calls that stops at the first failure: the calls made
    are a prefix of the planned ones, in their order. *)
Section CallLoop.

Context {E V : Type} (mk : V -> call) (run : V -> E -> (exn + unit) * E).

Lemma for_each_calls (vs : list V) (w : world E) r w' :
  for_each vs (fun v => driver_call (mk v) (run v)) w = (r, w') ->
  handle w' = handle w /\ log w' = log w /\
  match r with
  | Ok _ => sent w' = sent w ++ planned mk vs
  | Raise e =>
      exists done v rest,
        vs = done ++ v :: rest /\
        sent w' = sent w ++ planned mk done ++ [(mk v, Some e)]
  end.
Proof.
  revert w; induction vs as [|v vs IH]; intros w H; simpl in H.
  - injection H as <- <-. rewrite app_nil_r. auto.
  - unfold bind, driver_call in H.
    destruct (run v (engine w)) as [[e|[]] eng].
    + injection H as <- <-. simpl. repeat split; trivial.
      exists (@nil V), v, vs. auto.
    + apply IH in H. simpl in H. destruct H as (Hh & Hl & Hs).
      repeat split; trivial. destruct r as [[]|e].
      * rewrite Hs, <- app_assoc. reflexivity.
      * destruct Hs as (done & v' & rest & -> & Hs).
        exists (v :: done), v', rest. split; [reflexivity|].
        rewrite Hs, <- app_assoc. reflexivity.
Qed.

End CallLoop.

Lemma range_nat (n b : nat) :
  1 <= b ->
  range 0 (Z.of_nat n) (Z.of_nat b) =
    inr (map (fun k => Z.of_nat (k * b)) (seq 0 (range_length 0 (Z.of_nat n) (Z.of_nat b)))).
Proof.
  intros Hb. unfold range.
  destruct (Z.eqb_spec (Z.of_nat b) 0) as [H|_]; [lia|].
  f_equal. apply map_ext. intros k. lia.
Qed.


(** The loop of [insert_into_table_bulk]: when every record has the columns,
    it is a loop of [executemany] calls over the chunks of rows. *)
Lemma insert_loop {E : Type} (mk : list (list pyval) -> call)
      (run : list (list pyval) -> E -> (exn + unit) * E)
      (columns : list string) (records : list dict) rows (b : nat) starts row_chunks :
  1 <= b ->
  rows_of columns records = inr rows ->
  range 0 (len records) (Z.of_nat b) = inr starts ->
  batches rows (Z.of_nat b) = inr row_chunks ->
  forall w,
    for_each starts
      (fun i => bind (lift (rows_of columns (slice records i (i + Z.of_nat b))))
                     (fun values => driver_call (mk values) (run values))) w
    = for_each row_chunks (fun v => driver_call (mk v) (run v)) w.
Proof.
  intros Hb Hrows Hr Hc w.
  unfold len in Hr. rewrite range_nat in Hr by assumption. injection Hr as <-.
  rewrite batches_nat in Hc by assumption. injection Hc as <-.
  unfold len. rewrite (rows_of_length _ _ _ Hrows).
  rewrite !for_each_map. apply for_each_ext. intros k w1 _.
  rewrite slice_nat.
  rewrite (rows_of_firstn _ b _ _ (rows_of_skipn _ (k * b) _ _ Hrows)).
  reflexivity.
Qed.

(** One step of a run *)
Lemma bind_run {E A B : Type} (m : M E A) (k : A -> M E B) (w : world E) :
  bind m k w =
    match m w with
    | (Ok a, w1) => k a w1
    | (Raise e, w1) => (Raise e, w1)
    end.
Proof. reflexivity. Qed.

Lemma try_except_run {E A : Type} (m : M E A) (h : exn -> M E A) (w : world E) :
  try_except m h w =
    match m w with
    | (Ok a, w1) => (Ok a, w1)
    | (Raise e, w1) => h e w1
    end.
Proof. reflexivity. Qed.

Lemma connect_run {E : Type} (w : world E) :
  connect w = (Ok tt, World true (log w) (sent w) (engine w)).
Proof.
  unfold connect. destruct w as [[] l s e]; reflexivity.
Qed.

(** The partition into chunks *)
Lemma batches_partition {A : Type} (l : list A) (bs : Z) :
  (1 <= bs)%Z ->
  exists chunks,
    batches l bs = inr chunks /\
    List.concat chunks = l /\
    Z.of_nat (List.length chunks) = ((len l + bs - 1) / bs)%Z /\
    (forall k c, nth_error chunks k = Some c ->
       (1 <= len c <= bs)%Z /\ (S k < List.length chunks -> len c = bs)).
Proof.
  intros Hbs.
  assert (Hb : 1 <= Z.to_nat bs) by lia.
  rewrite <- (Z2Nat.id bs) by lia.
  set (b := Z.to_nat bs) in *.
  set (m := range_length 0 (len l) (Z.of_nat b)).
  exists (map (fun k => firstn b (skipn (k * b) l)) (seq 0 m)).
  split; [apply batches_nat; assumption|].
  split.
  { rewrite concat_slices. apply firstn_all2. apply chunks_cover. assumption. }
  split.
  { rewrite length_map, length_seq. apply range_length_batches. lia. }
  intros k c Hk.
  rewrite length_map, length_seq.
  rewrite nth_error_map in Hk.
  rewrite nth_error_seq in Hk.
  destruct (Nat.ltb_spec k m) as [Hlt|]; [|discriminate].
  simpl in Hk. injection Hk as <-.
  unfold len. rewrite length_firstn, length_skipn.
  pose proof (chunks_tight (List.length l) b Hb k Hlt) as Ht.
  split; [lia|].
  intros Hnext.
  pose proof (chunks_tight (List.length l) b Hb (S k) Hnext) as Ht'.
  simpl in Ht'. lia.
Qed.

Lemma range_ok (start stop step : Z) :
  step <> 0%Z -> exists starts, range start stop step = inr starts.
Proof.
  intros H. unfold range. destruct (Z.eqb_spec step 0); [contradiction|]. eauto.
Qed.

Lemma map_fst_planned {V : Type} (mk : V -> call) (vs : list V) :
  map fst (planned mk vs) = map mk vs.
Proof. unfold planned. rewrite map_map. reflexivity. Qed.

Lemma firstn_app_exact {A : Type} (a b : list A) : firstn (List.length a) (a ++ b) = a.
Proof. induction a; simpl; [now destruct b|congruence]. Qed.

(** What a stopped call loop leaves in the trace *)
Lemma stopped_prefix {V : Type} (mk : V -> call) (done : list V) v rest e :
  map fst (planned mk done ++ [(mk v, Some e)])
  = firstn (S (List.length done)) (map mk (done ++ v :: rest)).
Proof.
  rewrite map_app, map_fst_planned.
  change (map fst [(mk v, Some e)]) with [mk v].
  replace (done ++ v :: rest) with ((done ++ [v]) ++ rest) by now rewrite <- app_assoc.
  rewrite (map_app mk (done ++ [v])).
  replace (S (List.length done)) with (List.length (map mk (done ++ [v])))
    by (rewrite length_map, length_app; simpl; lia).
  rewrite firstn_app_exact, map_app. reflexivity.
Qed.

Section PgInsert.

Context {E : Type} (drv : PostgresHandler.driver E).

Lemma pg_insert_calls table_name records rows row_chunks (bs : Z) w r w' :
  (1 <= bs)%Z ->
  rows_of (insert_columns records) records = inr rows ->
  batches rows bs = inr row_chunks ->
  PostgresHandler.insert_into_table_bulk drv table_name records bs w = (r, w') ->
  let query :=
    render (PostgresHandler.build_insert_query table_name (insert_columns records)) in
  let plan := map (ExecuteMany query) row_chunks in
  (exists k, map fst (issued w w') = firstn k plan) /\
  (r = Ok "ok" -> map fst (issued w w') = plan) /\
  ((forall c e, ~ In (c, Some e) (issued w w')) -> r = Ok "ok").
Proof.
  intros Hbs Hrows Hc H query plan.
  assert (Hb : exists b, bs = Z.of_nat b /\ 1 <= b)
    by (exists (Z.to_nat bs); lia).
  destruct Hb as (b & -> & Hb).
  unfold PostgresHandler.insert_into_table_bulk in H.
  rewrite bind_run, connect_run, try_except_run, bind_run in H.
  destruct (range_ok 0 (len records) (Z.of_nat b) ltac:(lia)) as [starts Hr].
  rewrite Hr in H. simpl lift in H. unfold ret at 1 in H.
  rewrite bind_run in H.
  rewrite (insert_loop _ _ _ _ _ _ _ _ Hb Hrows Hr Hc) in H.
  fold query in H.
  match type of H with context [for_each row_chunks ?f ?w1] =>
    destruct (for_each row_chunks f w1) as [[[]|e] w2] eqn:Hloop end;
    apply for_each_calls in Hloop; simpl in Hloop;
    destruct Hloop as (Hh & Hl & Hs).
  - unfold bind, logger_info, ret in H. simpl in H. injection H as <- <-.
    assert (Hi : map fst (issued w w2) = plan).
    { rewrite (issued_app w w2 _ Hs). apply map_fst_planned. }
    unfold issued in *. simpl. rewrite Hi.
    repeat split; trivial.
    exists (List.length plan). now rewrite firstn_all.
  - destruct Hs as (done & v & rest & -> & Hs).
    unfold bind, logger_error, ret in H. simpl in H. injection H as <- <-.
    assert (Hi : issued w w2 = planned (ExecuteMany query) done
                                 ++ [(ExecuteMany query v, Some e)])
      by (apply issued_app; assumption).
    unfold issued in *. simpl. rewrite Hi.
    split; [|split].
    + exists (S (List.length done)). apply stopped_prefix.
    + discriminate.
    + intros Hno. exfalso. apply (Hno (ExecuteMany query v) e).
      apply in_or_app. right. now left.
Qed.

End PgInsert.

Lemma close_run {E : Type} (w : world E) :
  close w = (Ok tt, World false (log w) (sent w) (engine w)).
Proof.
  unfold close. destruct w as [[] l s e]; reflexivity.
Qed.

Lemma finally_close_eq {E A : Type} (m : M E A) (w : world E) r w1 :
  m w = (r, w1) ->
  finally m close w = (r, World false (log w1) (sent w1) (engine w1)).
Proof.
  intros H. unfold finally. rewrite H, close_run. reflexivity.
Qed.

(** Closing the handle does not touch the trace. *)
Lemma issued_closed {E : Type} (w w1 : world E) :
  issued w (World false (log w1) (sent w1) (engine w1)) = issued w w1.
Proof. reflexivity. Qed.

Section SqliteInsert.

Context {E : Type} (drv : SqliteHandler.driver E).


End SqliteInsert.

Lemma for_each_app {E A : Type} (l1 l2 : list A) (f : A -> M E unit) (w : world E) :
  for_each (l1 ++ l2) f w = bind (for_each l1 f) (fun _ => for_each l2 f) w.
Proof.
  revert w; induction l1 as [|x l1 IH]; intros w; simpl.
  - reflexivity.
  - unfold bind in *. destruct (f x w) as [[[]|e] w1]; [apply IH|reflexivity].
Qed.

Lemma for_each_concat {E A : Type} (ls : list (list A)) (f : A -> M E unit) (w : world E) :
  for_each ls (fun l => for_each l f) w = for_each (List.concat ls) f w.
Proof.
  revert w; induction ls as [|l ls IH]; intros w; simpl.
  - reflexivity.
  - rewrite for_each_app. unfold bind.
    destruct (for_each l f w) as [[[]|e] w1]; [apply IH|reflexivity].
Qed.

(** The two nested loops of [mass_update] visit every item once, in order. *)
Lemma nested_loop {E A : Type} (l : list A) (bs : Z) (body : A -> M E unit) starts :
  (1 <= bs)%Z ->
  range 0 (len l) bs = inr starts ->
  forall w,
    for_each starts (fun i => for_each (slice l i (i + bs)) body) w = for_each l body w.
Proof.
  intros Hbs Hr w.
  destruct (batches_partition l bs Hbs) as (chunks & Hc & Hcat & _).
  unfold batches in Hc. rewrite Hr in Hc. injection Hc as <-.
  transitivity (for_each (List.concat (map (fun i => slice l i (i + bs)) starts)) body w);
    [|now rewrite Hcat].
  rewrite <- for_each_concat, for_each_map. reflexivity.
Qed.

(** A loop whose body makes one driver call and swallows its failure, as the
    body of [mass_update] does: every item is executed, in order. *)
Section SwallowLoop.

Context {E A : Type} (call_of : A -> call) (body : A -> M E unit).

Hypothesis body_one_call :
  forall x w, exists w1 oe,
    body x w = (Ok tt, w1) /\ handle w1 = handle w /\
    sent w1 = sent w ++ [(call_of x, oe)].

Lemma for_each_swallow (l : list A) (w : world E) :
  exists w',
    for_each l body w = (Ok tt, w') /\ handle w' = handle w /\
    exists tr, sent w' = sent w ++ tr /\ map fst tr = map call_of l.
Proof.
  revert w; induction l as [|x l IH]; intros w; simpl.
  - exists w. repeat split. exists []. now rewrite app_nil_r.
  - destruct (body_one_call x w) as (w1 & oe & Hb & Hh & Hs).
    destruct (IH w1) as (w' & Hf & Hh' & tr & Hs' & Htr).
    exists w'. unfold bind. rewrite Hb, Hf.
    repeat split; [congruence|].
    exists ((call_of x, oe) :: tr). split.
    + rewrite Hs', Hs, <- app_assoc. reflexivity.
    + simpl. now rewrite Htr.
Qed.

End SwallowLoop.

Lemma pg_mass_update_calls {E : Type} (drv : PostgresHandler.driver E)
      table_name data_list (bs : Z) (w : world E) :
  (1 <= bs)%Z ->
  exists w',
    PostgresHandler.mass_update drv table_name data_list bs w = (Ok tt, w') /\
    map fst (issued w w') = map (pg_update_call table_name) data_list.
Proof.
  intros Hbs.
  destruct (range_ok 0 (len data_list) bs ltac:(lia)) as [starts Hr].
  unfold PostgresHandler.mass_update.
  rewrite bind_run, connect_run, bind_run, Hr.
  simpl lift. unfold ret at 1. cbv beta iota zeta.
  rewrite (nested_loop _ _ _ _ Hbs Hr).
  match goal with |- context [for_each data_list ?f ?w0] =>
    destruct (for_each_swallow (pg_update_call table_name) f) with (l := data_list) (w := w0)
      as (w' & Hf & _ & tr & Hs & Htr)
  end.
  - intros x w1. unfold pg_update_call.
    destruct (PostgresHandler.build_update_query table_name x) as [q a]. simpl.
    unfold try_except, bind, driver_call, logger_error, ret.
    destruct (PostgresHandler.execute drv (render q) a (engine w1)) as [[e|s] eng];
      simpl; do 2 eexists; (split; [reflexivity|split; reflexivity]).
  - exists w'. split; [assumption|].
    now rewrite (issued_app w w' tr Hs).
Qed.

Lemma sqlite_mass_update_calls {E : Type} (drv : SqliteHandler.driver E)
      table_name data_list (bs : Z) (w : world E) :
  (1 <= bs)%Z ->
  exists w',
    SqliteHandler.mass_update drv table_name data_list bs w = (Ok tt, w') /\
    map fst (issued w w') = map (sqlite_update_call table_name) data_list ++ [Commit].
Proof.
  intros Hbs.
  destruct (range_ok 0 (len data_list) bs ltac:(lia)) as [starts Hr].
  unfold SqliteHandler.mass_update.
  rewrite bind_run, connect_run.
  match goal with |- context [finally ?m close ?w0] =>
    destruct (m w0) as [r1 w1] eqn:Hm; rewrite (finally_close_eq _ _ _ _ Hm)
  end.
  rewrite try_except_run, bind_run, Hr in Hm.
  simpl lift in Hm. unfold ret at 1 in Hm. cbv beta iota zeta in Hm.
  rewrite bind_run, (nested_loop _ _ _ _ Hbs Hr) in Hm.
  match type of Hm with context [for_each data_list ?f ?w0] =>
    destruct (for_each_swallow (sqlite_update_call table_name) f) with (l := data_list) (w := w0)
      as (w' & Hf & _ & tr & Hs & Htr)
  end.
  - intros x w2. unfold sqlite_update_call.
    destruct (SqliteHandler.build_update_query table_name x) as [q a]. simpl.
    unfold try_except, bind, driver_call, logger_error, ret.
    destruct (SqliteHandler.execute drv (render q) a (engine w2)) as [[e|s] eng];
      simpl; do 2 eexists; (split; [reflexivity|split; reflexivity]).
  - rewrite Hf in Hm. unfold driver_call, logger_error in Hm.
    destruct (SqliteHandler.commit drv (engine w')) as [[e|[]] eng];
      injection Hm as <- <-; eexists; (split; [reflexivity|]);
      rewrite issued_closed;
      (erewrite issued_app; [|simpl; rewrite Hs, <- app_assoc; reflexivity]);
      rewrite map_app, Htr; reflexivity.
Qed.

(** ** Reading a statement back

    [placeholders], [bindings] and [null_tests] distribute over the pieces a
    statement is concatenated from, as long as a piece does not begin in the
    middle of a test. *)

Lemma placeholders_app (a b : sql) :
  placeholders (a ++ b) = placeholders a ++ placeholders b.
Proof.
  induction a as [|f a IH]; simpl; [reflexivity|].
  destruct f; simpl; now rewrite IH.
Qed.

Lemma bindings_cons (f : frag) (rest : sql) :
  bindings (f :: rest) =
    match f, rest with
    | Name k, Txt s :: Ph n :: _ =>
        if String.eqb s " = " then (k, n) :: bindings rest else bindings rest
    | _, _ => bindings rest
    end.
Proof. reflexivity. Qed.

Lemma bindings_app (a b : sql) :
  starts_plain b = true -> bindings (a ++ b) = bindings a ++ bindings b.
Proof.
  intros Hb. induction a as [|f a IH]; [reflexivity|].
  rewrite <- app_comm_cons, !bindings_cons, IH.
  destruct f; try reflexivity.
  destruct a as [|g a].
  - simpl app. destruct b as [|[] [|[] b]]; simpl in *; try reflexivity; try discriminate.
    now rewrite andb_false_r in Hb.
  - destruct g; try reflexivity.
    destruct a as [|h a].
    + simpl app. destruct b as [|[] b]; simpl in *; try reflexivity; discriminate.
    + destruct h; try reflexivity.
      cbn [app]. cbv iota. destruct (String.eqb s0 " = "); reflexivity.
Qed.

Lemma null_tests_cons (f : frag) (rest : sql) :
  null_tests (f :: rest) =
    match f, rest with
    | Name k, Txt s :: _ =>
        if String.eqb s " IS NULL" then k :: null_tests rest else null_tests rest
    | _, _ => null_tests rest
    end.
Proof. reflexivity. Qed.

Lemma null_tests_app (a b : sql) :
  starts_plain b = true -> null_tests (a ++ b) = null_tests a ++ null_tests b.
Proof.
  intros Hb. induction a as [|f a IH]; [reflexivity|].
  rewrite <- app_comm_cons, !null_tests_cons, IH.
  destruct f; try reflexivity.
  destruct a as [|g a].
  - simpl app. destruct b as [|[] b]; simpl in *; try reflexivity.
    destruct (String.eqb s0 " IS NULL"); [discriminate|reflexivity].
  - destruct g; try reflexivity.
    cbn [app]. cbv iota. destruct (String.eqb s0 " IS NULL"); reflexivity.
Qed.

(** A joined list starts as its first part does. *)
Lemma starts_plain_join (s : string) (parts : list sql) :
  String.eqb s " IS NULL" = false ->
  Forall (fun p => starts_plain p = true /\ p <> []) parts ->
  starts_plain (join [Txt s] parts) = true.
Proof.
  intros Hs H. destruct H as [|p parts [Hp Hne] H]; [reflexivity|].
  simpl. destruct parts as [|p' parts]; [assumption|].
  destruct p as [|f p]; [contradiction|].
  destruct f; simpl in *; try reflexivity; try discriminate.
  destruct p as [|[] p]; simpl in *; trivial.
Qed.

Section Join.

Context {B : Type} (read : sql -> list B) (s : string).
Hypothesis read_app :
  forall a b, starts_plain b = true -> read (a ++ b) = read a ++ read b.
Hypothesis read_nil : read [] = [].
Hypothesis read_txt : forall s' q, read (Txt s' :: q) = read q.
Hypothesis s_plain : String.eqb s " IS NULL" = false.

Lemma read_join (parts : list sql) :
  Forall (fun p => starts_plain p = true /\ p <> []) parts ->
  read (join [Txt s] parts) = List.concat (map read parts).
Proof.
  induction 1 as [|p parts [Hp Hne] H IH]; [exact read_nil|].
  destruct parts as [|p' parts].
  - simpl. now rewrite app_nil_r.
  - change (join [Txt s] (p :: p' :: parts))
      with (p ++ Txt s :: join [Txt s] (p' :: parts)).
    rewrite read_app.
    + rewrite read_txt, IH. reflexivity.
    + pose proof (starts_plain_join s (p' :: parts) s_plain H) as Hj.
      cbn [starts_plain]. rewrite s_plain.
      destruct (join [Txt s] (p' :: parts)) as [|[] ?]; trivial.
Qed.

Lemma starts_plain_clause (kw : string) (parts : list sql) :
  String.eqb kw " IS NULL" = false ->
  Forall (fun p => starts_plain p = true /\ p <> []) parts ->
  starts_plain (Txt kw :: join [Txt s] parts) = true.
Proof.
  intros Hkw H.
  pose proof (starts_plain_join s parts s_plain H) as Hj.
  cbn [starts_plain]. rewrite Hkw.
  destruct (join [Txt s] parts) as [|[] ?]; trivial.
Qed.

(** A keyword followed by a joined list of tests *)
Lemma read_clause (pre : sql) (kw : string) (parts : list sql) :
  String.eqb kw " IS NULL" = false ->
  Forall (fun p => starts_plain p = true /\ p <> []) parts ->
  read (pre ++ Txt kw :: join [Txt s] parts) = read pre ++ List.concat (map read parts).
Proof.
  intros Hkw H.
  rewrite read_app by (apply starts_plain_clause; assumption).
  rewrite read_txt, read_join by assumption. reflexivity.
Qed.

End Join.

Lemma placeholders_join (s : string) (parts : list sql) :
  placeholders (join [Txt s] parts) = List.concat (map placeholders parts).
Proof.
  induction parts as [|p parts IH]; [reflexivity|].
  destruct parts as [|p' parts].
  - simpl. now rewrite app_nil_r.
  - change (join [Txt s] (p :: p' :: parts))
      with (p ++ Txt s :: join [Txt s] (p' :: parts)).
    rewrite placeholders_app. cbn [placeholders]. rewrite IH. reflexivity.
Qed.

Lemma bindings_join (s : string) (parts : list sql) :
  String.eqb s " IS NULL" = false ->
  Forall (fun p => starts_plain p = true /\ p <> []) parts ->
  bindings (join [Txt s] parts) = List.concat (map bindings parts).
Proof.
  intros Hs H.
  exact (read_join bindings s bindings_app eq_refl (fun _ _ => eq_refl) Hs parts H).
Qed.

Lemma null_tests_join (s : string) (parts : list sql) :
  String.eqb s " IS NULL" = false ->
  Forall (fun p => starts_plain p = true /\ p <> []) parts ->
  null_tests (join [Txt s] parts) = List.concat (map null_tests parts).
Proof.
  intros Hs H.
  exact (read_join null_tests s null_tests_app eq_refl (fun _ _ => eq_refl) Hs parts H).
Qed.

Lemma bindings_clause (s : string) (pre : sql) (kw : string) (parts : list sql) :
  String.eqb s " IS NULL" = false ->
  String.eqb kw " IS NULL" = false ->
  Forall (fun p => starts_plain p = true /\ p <> []) parts ->
  bindings (pre ++ Txt kw :: join [Txt s] parts)
  = bindings pre ++ List.concat (map bindings parts).
Proof.
  intros Hs.
  exact (read_clause bindings s bindings_app eq_refl (fun _ _ => eq_refl) Hs pre kw parts).
Qed.

Lemma null_tests_clause (s : string) (pre : sql) (kw : string) (parts : list sql) :
  String.eqb s " IS NULL" = false ->
  String.eqb kw " IS NULL" = false ->
  Forall (fun p => starts_plain p = true /\ p <> []) parts ->
  null_tests (pre ++ Txt kw :: join [Txt s] parts)
  = null_tests pre ++ List.concat (map null_tests parts).
Proof.
  intros Hs.
  exact (read_clause null_tests s null_tests_app eq_refl (fun _ _ => eq_refl) Hs pre kw parts).
Qed.

(** *** Equality tests over all the keys of a dictionary *)

Lemma enumerate_atoms (off s0 : nat) (ks : list string) :
  map (fun ik : nat * string => [Name (snd ik); Txt " = "; Ph (off + fst ik + 1)])
      (combine (seq s0 (List.length ks)) ks)
  = eq_atoms (off + s0 + 1) ks.
Proof.
  revert s0; induction ks as [|k ks IH]; intros s0; simpl; [reflexivity|].
  rewrite IH. do 2 f_equal. lia.
Qed.

Lemma eq_atoms_plain (first : nat) (ks : list string) :
  Forall (fun p => starts_plain p = true /\ p <> []) (eq_atoms first ks).
Proof.
  revert first; induction ks as [|k ks IH]; intros first; simpl; constructor; auto.
  split; [reflexivity|discriminate].
Qed.

Lemma eq_atoms_placeholders (first : nat) (ks : list string) :
  List.concat (map placeholders (eq_atoms first ks)) = seq first (List.length ks).
Proof.
  revert first; induction ks as [|k ks IH]; intros first; simpl; [reflexivity|].
  now rewrite IH.
Qed.

Lemma eq_atoms_bindings (first : nat) (ks : list string) :
  List.concat (map bindings (eq_atoms first ks)) = combine ks (seq first (List.length ks)).
Proof.
  revert first; induction ks as [|k ks IH]; intros first; simpl; [reflexivity|].
  now rewrite IH.
Qed.

Lemma eq_atoms_null_tests (first : nat) (ks : list string) :
  List.concat (map null_tests (eq_atoms first ks)) = [].
Proof.
  revert first; induction ks as [|k ks IH]; intros first; simpl; [reflexivity|].
  apply IH.
Qed.

(** Placeholders [$(|pre|+1)], ... read the values that follow [pre]. *)
Lemma resolve_run (ks : list string) (vs pre post : list pyval) :
  List.length ks = List.length vs ->
  map (fun b : string * nat => (fst b, arg (pre ++ vs ++ post) (snd b)))
      (combine ks (seq (S (List.length pre)) (List.length ks)))
  = combine ks (map Some vs).
Proof.
  revert vs pre; induction ks as [|k ks IH]; intros [|v vs] pre H; simpl in *;
    try reflexivity; try discriminate.
  f_equal.
  - f_equal. rewrite nth_error_app2 by lia. now rewrite Nat.sub_diag.
  - specialize (IH vs (pre ++ [v]) ltac:(lia)).
    rewrite length_app, Nat.add_1_r, <- app_assoc in IH. exact IH.
Qed.

Lemma combine_keys_values (d : dict) :
  combine (keys d) (map Some (values d)) = map (fun kv => (fst kv, Some (snd kv))) d.
Proof.
  induction d as [|[k v] d IH]; simpl; [reflexivity|]. now rewrite IH.
Qed.

Lemma keys_length (d : dict) : List.length (keys d) = List.length d.
Proof. apply length_map. Qed.

Lemma values_length (d : dict) : List.length (values d) = List.length d.
Proof. apply length_map. Qed.

(** A rendered statement that has a fragment of text is not empty. *)
Lemma append_empty (a b : string) : a ^^ b = "" -> a = "" /\ b = "".
Proof. destruct a; simpl; [auto|discriminate]. Qed.

Lemma render_app (a b : sql) : render (a ++ b) = render a ^^ render b.
Proof.
  induction a as [|f a IH]; simpl; [reflexivity|].
  rewrite IH. induction (render_frag f) as [|c s IHs]; simpl; [reflexivity|].
  now rewrite IHs.
Qed.

Lemma join_eq_atoms_render (s : string) (first : nat) (ks : list string) :
  String.eqb (render (join [Txt s] (eq_atoms first ks))) "" = negb (truthy ks).
Proof.
  destruct ks as [|k ks]; [reflexivity|].
  cbn [eq_atoms truthy negb].
  apply String.eqb_neq. intros H.
  assert (Hr : forall rest, render ([Name k; Txt " = "; Ph first] ++ rest) <> "").
  { intros rest Hrest. rewrite render_app in Hrest.
    apply append_empty in Hrest as [Hrest _]. simpl in Hrest.
    apply append_empty in Hrest as [_ Hrest]. discriminate. }
  destruct (eq_atoms (S first) ks) as [|p ps] eqn:Hps.
  - simpl join in H. apply (Hr []). now rewrite app_nil_r.
  - change (join [Txt s] ([Name k; Txt " = "; Ph first] :: p :: ps))
      with ([Name k; Txt " = "; Ph first] ++ Txt s :: join [Txt s] (p :: ps)) in H.
    now apply Hr in H.
Qed.

(** *** The pooled backend's flat statements *)

Lemma pg_delete_shape (table_name : string) (d : dict) :
  PostgresHandler.build_delete_query table_name d =
    ([Txt "DELETE FROM "; Name table_name]
       ++ (if truthy d then Txt " WHERE " :: join [Txt " AND "] (eq_atoms 1 (keys d))
           else []),
     values d).
Proof.
  unfold PostgresHandler.build_delete_query, enumerate.
  pose proof (enumerate_atoms 0 0 (keys d)) as H. cbn [Nat.add] in H. rewrite H.
  destruct (truthy d); [reflexivity|now rewrite app_nil_r].
Qed.

Lemma pg_count_shape (table_name : string) (d : dict) :
  PostgresHandler.build_count_query table_name d =
    ([Txt "SELECT COUNT(*) FROM "; Name table_name]
       ++ (if truthy d then Txt " WHERE " :: join [Txt " AND "] (eq_atoms 1 (keys d))
           else [])
       ++ null_part d,
     values d).
Proof.
  unfold PostgresHandler.build_count_query, enumerate, null_part, first_null.
  pose proof (enumerate_atoms 0 0 (keys d)) as H. cbn [Nat.add] in H. rewrite H.
  rewrite join_eq_atoms_render.
  replace (truthy (keys d)) with (truthy d) by now destruct d.
  destruct (map fst (filter _ (items d))) as [|c cs]; destruct (truthy d); simpl;
    rewrite ?app_nil_r, <- ?app_assoc; reflexivity.
Qed.

Lemma pg_update_shape (table_name : string) (data : update_spec) :
  PostgresHandler.build_update_query table_name data =
    ([Txt "UPDATE "; Name table_name]
       ++ Txt " SET " :: join [Txt ", "]
                              (eq_atoms (S (List.length (where_ data))) (keys (update data)))
       ++ Txt " WHERE " :: join [Txt " AND "] (eq_atoms 1 (keys (where_ data))),
     values (where_ data) ++ values (update data)).
Proof.
  unfold PostgresHandler.build_update_query, enumerate.
  pose proof (enumerate_atoms 0 0 (keys (where_ data))) as H. cbn [Nat.add] in H.
  rewrite H.
  pose proof (enumerate_atoms (List.length (where_ data)) 0 (keys (update data))) as H'.
  rewrite Nat.add_0_r, Nat.add_1_r in H'.
  erewrite map_ext; [rewrite H'|]; [reflexivity|].
  intros [i k]. simpl. now rewrite Nat.add_1_r.
Qed.

(** The flat statements number their placeholders [$1 .. $n] from the left,
    one per column, and [$i] stands for the value of its column. *)
Lemma flat_where_read (pre : sql) (d : dict) (post : sql) :
  starts_plain post = true ->
  placeholders pre = [] -> bindings pre = [] ->
  placeholders post = [] -> bindings post = [] ->
  let q := pre ++ (if truthy d then Txt " WHERE " :: join [Txt " AND "] (eq_atoms 1 (keys d))
                   else []) ++ post in
  placeholders q = seq 1 (List.length d) /\
  bindings q = combine (keys d) (seq 1 (List.length d)) /\
  resolve q (values d) = map (fun kv => (fst kv, Some (snd kv))) d.
Proof.
  intros Hpost Hp Hb Hp' Hb' q.
  assert (Hbind : bindings q = combine (keys d) (seq 1 (List.length d))).
  { unfold q. rewrite app_assoc, bindings_app, Hb', app_nil_r by assumption.
    destruct d as [|kv d]; [now rewrite app_nil_r|].
    cbn [truthy]. rewrite bindings_clause, Hb, eq_atoms_bindings, keys_length;
      auto using eq_atoms_plain. }
  split; [|split; [assumption|]].
  - unfold q. rewrite !placeholders_app, Hp, Hp', app_nil_r.
    destruct d as [|kv d]; [reflexivity|].
    cbn [truthy placeholders app].
    now rewrite placeholders_join, eq_atoms_placeholders, keys_length.
  - unfold resolve. rewrite Hbind.
    pose proof (resolve_run (keys d) (values d) [] []) as H.
    rewrite app_nil_r, keys_length in H. cbn [List.length app] in H.
    rewrite H, combine_keys_values by now rewrite values_length.
    reflexivity.
Qed.

(** *** The statement of [mass_update] *)

Lemma update_read (table_name : string) (f1 f2 : nat) (ks1 ks2 : list string) :
  let q := [Txt "UPDATE "; Name table_name]
             ++ Txt " SET " :: join [Txt ", "] (eq_atoms f1 ks1)
             ++ Txt " WHERE " :: join [Txt " AND "] (eq_atoms f2 ks2) in
  placeholders q = seq f1 (List.length ks1) ++ seq f2 (List.length ks2) /\
  bindings q = combine ks1 (seq f1 (List.length ks1))
                 ++ combine ks2 (seq f2 (List.length ks2)).
Proof.
  intros q. split.
  - unfold q. rewrite !placeholders_app. cbn [placeholders app].
    rewrite placeholders_app. cbn [placeholders].
    now rewrite !placeholders_join, !eq_atoms_placeholders.
  - unfold q.
    change (Txt " SET " :: join [Txt ", "] (eq_atoms f1 ks1)
              ++ Txt " WHERE " :: join [Txt " AND "] (eq_atoms f2 ks2))
      with ((Txt " SET " :: join [Txt ", "] (eq_atoms f1 ks1))
              ++ Txt " WHERE " :: join [Txt " AND "] (eq_atoms f2 ks2)).
    rewrite app_assoc.
    rewrite bindings_clause, bindings_clause, !eq_atoms_bindings;
      auto using eq_atoms_plain.
Qed.

Lemma combine_app {A B : Type} (a1 a2 : list A) (b1 b2 : list B) :
  List.length a1 = List.length b1 ->
  combine (a1 ++ a2) (b1 ++ b2) = combine a1 b1 ++ combine a2 b2.
Proof.
  revert b1; induction a1 as [|x a1 IH]; intros [|y b1] H; simpl in *;
    try reflexivity; try discriminate.
  f_equal. apply IH. lia.
Qed.

(** In the pooled backend's [UPDATE] the [WHERE] values are bound first:
    they get [$1 ..], the [SET] columns the indices after them, and every
    placeholder stands for the value of its column. *)
Lemma pg_update_read (table_name : string) (data : update_spec) :
  let nw := List.length (where_ data) in
  let nu := List.length (update data) in
  let q := fst (PostgresHandler.build_update_query table_name data) in
  let args := snd (PostgresHandler.build_update_query table_name data) in
  args = values (where_ data) ++ values (update data) /\
  placeholders q = seq (S nw) nu ++ seq 1 nw /\
  resolve q args = map (fun kv => (fst kv, Some (snd kv))) (update data ++ where_ data).
Proof.
  intros nw nu q args. subst nw nu q args. rewrite pg_update_shape. cbn [fst snd].
  destruct (update_read table_name (S (List.length (where_ data))) 1
                        (keys (update data)) (keys (where_ data))) as [Hp Hb].
  rewrite !keys_length in Hp, Hb.
  split; [reflexivity|]. split; [exact Hp|].
  unfold resolve. rewrite Hb, !map_app.
  pose proof (resolve_run (keys (update data)) (values (update data))
                          (values (where_ data)) []) as H1.
  rewrite app_nil_r, !values_length, !keys_length in H1.
  rewrite H1 by reflexivity.
  pose proof (resolve_run (keys (where_ data)) (values (where_ data))
                          [] (values (update data))) as H2.
  rewrite !keys_length, !values_length in H2. cbn [List.length app] in H2.
  rewrite H2 by reflexivity.
  now rewrite !combine_keys_values.
Qed.

(** *** The embedded backend: positional placeholders *)

Lemma count_qm_app (a b : sql) : count_qm (a ++ b) = count_qm a + count_qm b.
Proof.
  induction a as [|f a IH]; simpl; [reflexivity|].
  destruct f; simpl; now rewrite IH.
Qed.

Lemma number_qmarks_app (n : nat) (a b : sql) :
  number_qmarks n (a ++ b) = number_qmarks n a ++ number_qmarks (n + count_qm a) b.
Proof.
  revert n; induction a as [|f a IH]; intros n; simpl.
  - now rewrite Nat.add_0_r.
  - destruct f; simpl; rewrite IH; try reflexivity.
    now rewrite Nat.add_succ_r.
Qed.

Lemma sq_atoms_numbered (s : string) (n : nat) (ks : list string) :
  number_qmarks n (join [Txt s] (sq_atoms ks)) = join [Txt s] (eq_atoms n ks) /\
  count_qm (join [Txt s] (sq_atoms ks)) = List.length ks.
Proof.
  revert n; induction ks as [|k ks IH]; intros n; [split; reflexivity|].
  destruct ks as [|k' ks]; [split; reflexivity|].
  change (join [Txt s] (sq_atoms (k :: k' :: ks)))
    with ([Name k; Txt " = "; Qm; Txt s] ++ join [Txt s] (sq_atoms (k' :: ks))).
  change (join [Txt s] (eq_atoms n (k :: k' :: ks)))
    with ([Name k; Txt " = "; Ph n; Txt s] ++ join [Txt s] (eq_atoms (S n) (k' :: ks))).
  rewrite number_qmarks_app, count_qm_app.
  destruct (IH (S n)) as [H1 H2].
  cbn [count_qm number_qmarks]. rewrite Nat.add_1_r, H1, H2. split; reflexivity.
Qed.

Lemma sqlite_delete_shape (table_name : string) (d : dict) :
  SqliteHandler.build_delete_query table_name d =
    ([Txt "DELETE FROM "; Name table_name]
       ++ (if truthy d then Txt " WHERE " :: join [Txt " AND "] (sq_atoms (keys d))
           else []),
     values d).
Proof.
  unfold SqliteHandler.build_delete_query.
  destruct (truthy d); [reflexivity|now rewrite app_nil_r].
Qed.

Lemma join_sq_atoms_render (s : string) (ks : list string) :
  String.eqb (render (join [Txt s] (sq_atoms ks))) "" = negb (truthy ks).
Proof.
  destruct ks as [|k ks]; [reflexivity|].
  cbn [sq_atoms map truthy negb].
  apply String.eqb_neq. intros H.
  assert (Hr : forall rest, render ([Name k; Txt " = "; Qm] ++ rest) <> "").
  { intros rest Hrest. rewrite render_app in Hrest.
    apply append_empty in Hrest as [Hrest _]. simpl in Hrest.
    apply append_empty in Hrest as [_ Hrest]. discriminate. }
  destruct (map (fun k0 => [Name k0; Txt " = "; Qm]) ks) as [|p ps] eqn:Hps.
  - simpl join in H. apply (Hr []). now rewrite app_nil_r.
  - change (join [Txt s] ([Name k; Txt " = "; Qm] :: p :: ps))
      with ([Name k; Txt " = "; Qm] ++ Txt s :: join [Txt s] (p :: ps)) in H.
    now apply Hr in H.
Qed.

Lemma sqlite_count_shape (table_name : string) (d : dict) :
  SqliteHandler.build_count_query table_name d =
    ([Txt "SELECT COUNT(*) FROM "; Name table_name]
       ++ (if truthy d then Txt " WHERE " :: join [Txt " AND "] (sq_atoms (keys d))
           else [])
       ++ null_part d,
     values d).
Proof.
  unfold SqliteHandler.build_count_query, null_part, first_null.
  fold (sq_atoms (keys d)).
  rewrite join_sq_atoms_render.
  replace (truthy (keys d)) with (truthy d) by now destruct d.
  destruct (map fst (filter _ (items d))) as [|c cs]; destruct (truthy d); simpl;
    rewrite ?app_nil_r, <- ?app_assoc; reflexivity.
Qed.

Lemma sqlite_update_shape (table_name : string) (data : update_spec) :
  SqliteHandler.build_update_query table_name data =
    ([Txt "UPDATE "; Name table_name]
       ++ Txt " SET " :: join [Txt ", "] (sq_atoms (keys (update data)))
       ++ Txt " WHERE " :: join [Txt " AND "] (sq_atoms (keys (where_ data))),
     values (update data) ++ values (where_ data)).
Proof. reflexivity. Qed.

(** Numbering the [?] of a flat [WHERE] from the left gives the pooled
    backend's statement. *)
Lemma flat_where_numbered (pre : sql) (d : dict) (post : sql) :
  count_qm pre = 0 -> count_qm post = 0 ->
  number_qmarks 1 pre = pre -> (forall n, number_qmarks n post = post) ->
  number_qmarks 1
    (pre ++ (if truthy d then Txt " WHERE " :: join [Txt " AND "] (sq_atoms (keys d))
             else []) ++ post)
  = pre ++ (if truthy d then Txt " WHERE " :: join [Txt " AND "] (eq_atoms 1 (keys d))
            else []) ++ post.
Proof.
  intros Hc Hc' Hn Hn'.
  rewrite !number_qmarks_app, Hc, Hn, Hn'. f_equal. f_equal.
  destruct (truthy d); [|reflexivity].
  cbn [number_qmarks Nat.add]. f_equal. apply sq_atoms_numbered.
Qed.

(** In the embedded backend's [UPDATE] the [SET] values are bound first, and
    every [?] stands for the value of its column. *)
Lemma sqlite_update_read (table_name : string) (data : update_spec) :
  let q := fst (SqliteHandler.build_update_query table_name data) in
  let args := snd (SqliteHandler.build_update_query table_name data) in
  args = values (update data) ++ values (where_ data) /\
  count_qm q = List.length args /\
  resolve (number_qmarks 1 q) args
  = map (fun kv => (fst kv, Some (snd kv))) (update data ++ where_ data).
Proof.
  intros q args. unfold q, args. rewrite sqlite_update_shape. cbn [fst snd].
  split; [reflexivity|].
  set (uks := keys (update data)). set (wks := keys (where_ data)).
  destruct (sq_atoms_numbered ", " 1 uks) as [Hn1 Hc1].
  destruct (sq_atoms_numbered " AND " (S (List.length uks)) wks) as [Hn2 Hc2].
  split.
  - rewrite count_qm_app. cbn [count_qm Nat.add]. rewrite count_qm_app.
    cbn [count_qm]. rewrite Hc1, (proj2 (sq_atoms_numbered " AND " 0 wks)).
    unfold uks, wks.
    now rewrite length_app, !values_length, (keys_length (update data)),
      (keys_length (where_ data)).
  - assert (Hq : number_qmarks 1
                   ([Txt "UPDATE "; Name table_name]
                      ++ Txt " SET " :: join [Txt ", "] (sq_atoms uks)
                      ++ Txt " WHERE " :: join [Txt " AND "] (sq_atoms wks))
                 = [Txt "UPDATE "; Name table_name]
                     ++ Txt " SET " :: join [Txt ", "] (eq_atoms 1 uks)
                     ++ Txt " WHERE "
                        :: join [Txt " AND "] (eq_atoms (S (List.length uks)) wks)).
    { cbn [app number_qmarks]. do 3 f_equal.
      rewrite number_qmarks_app, Hn1, Hc1. f_equal.
      cbn [number_qmarks]. f_equal. exact Hn2. }
    rewrite Hq. unfold resolve.
    destruct (update_read table_name 1 (S (List.length uks)) uks wks) as [_ Hb].
    rewrite Hb, !map_app.
    assert (Hu : List.length uks = List.length (values (update data)))
      by (unfold uks; now rewrite keys_length, values_length).
    assert (Hw : List.length wks = List.length (values (where_ data)))
      by (unfold wks; now rewrite keys_length, values_length).
    pose proof (resolve_run uks (values (update data)) [] (values (where_ data)) Hu) as H1.
    cbn [List.length app] in H1. rewrite H1.
    pose proof (resolve_run wks (values (where_ data)) (values (update data)) [] Hw) as H2.
    rewrite app_nil_r, <- Hu in H2. rewrite H2.
    unfold uks, wks. now rewrite !combine_keys_values.
Qed.

(** *** The predicate of [build_select_query] *)

Lemma where_clause_atoms (bound s0 : nat) (d : dict) :
  map (fun ikv : nat * (string * pyval) =>
         let '(i, (key, value)) := ikv in
         if is_not_none value
         then [Name key; Txt " = "; Ph (bound + i + 1)]
         else [Name key; Txt " IS NULL"])
      (combine (seq s0 (List.length d)) d)
  = cond_atoms bound s0 d.
Proof.
  revert s0; induction d as [|[k v] d IH]; intros s0; simpl; [reflexivity|].
  now rewrite IH.
Qed.

Lemma where_clause_of_eq (bound : nat) (d : dict) :
  PostgresHandler.where_clause_of bound d = join [Txt " AND "] (cond_atoms bound 0 d).
Proof.
  unfold PostgresHandler.where_clause_of, enumerate, items.
  now rewrite where_clause_atoms.
Qed.

Lemma select_loop_eq (l : list dict) (wc : list sql) (cv : list pyval) :
  PostgresHandler.select_loop l wc cv
  = (wc ++ sel_clauses (List.length cv) l, cv ++ nonnull_values l).
Proof.
  revert wc cv; induction l as [|d l IH]; intros wc cv; simpl.
  - unfold nonnull_values. simpl. now rewrite !app_nil_r.
  - unfold nonnull_values in *. cbn [map List.concat].
    rewrite filter_app.
    destruct d as [|kv d]; cbn [truthy].
    + simpl. apply IH.
    + rewrite IH, length_app, <- !app_assoc. reflexivity.
Qed.

Lemma pg_select_shape (table_name : string) (find_data : list string)
      (l : list dict) (batch_size : Z) :
  PostgresHandler.build_select_query table_name find_data l batch_size =
    (select_base table_name find_data
       ++ where_part (sel_clauses 0 l)
       ++ limit_part (sel_clauses 0 l) batch_size,
     nonnull_values l).
Proof.
  unfold PostgresHandler.build_select_query.
  fold (select_base table_name find_data).
  destruct l as [|d l]; cbn [truthy].
  - unfold where_part, limit_part. simpl. now rewrite app_nil_r.
  - rewrite select_loop_eq. cbn [List.length app].
    unfold where_part, limit_part.
    destruct (truthy (sel_clauses 0 (d :: l))); cbn [andb].
    + fold paren.
      destruct (batch_size =? 0)%Z; cbn [negb];
        rewrite <- ?app_assoc, ?app_nil_r; reflexivity.
    + now rewrite app_nil_r.
Qed.

(** Which conditions give a clause *)
Lemma sel_clauses_truthy (n : nat) (l : list dict) :
  truthy (sel_clauses n l) = existsb truthy l.
Proof.
  revert n; induction l as [|d l IH]; intros n; simpl; [reflexivity|].
  destruct (truthy d); [reflexivity|apply IH].
Qed.

Lemma cond_atoms_plain (bound i : nat) (d : dict) :
  Forall (fun p => starts_plain p = true /\ p <> []) (cond_atoms bound i d).
Proof.
  revert i; induction d as [|[k v] d IH]; intros i; simpl; constructor; auto.
  destruct (is_not_none v); split; try reflexivity; discriminate.
Qed.

Lemma cond_atoms_placeholders_length (bound i : nat) (d : dict) :
  List.length (List.concat (map placeholders (cond_atoms bound i d)))
  = List.length (filter is_not_none (values d)).
Proof.
  revert i; induction d as [|[k v] d IH]; intros i; simpl; [reflexivity|].
  rewrite length_app, IH. destruct v; reflexivity.
Qed.

Lemma cond_atoms_null_tests (bound i : nat) (d : dict) :
  List.concat (map null_tests (cond_atoms bound i d)) = map fst (filter is_null d).
Proof.
  revert i; induction d as [|[k v] d IH]; intros i; simpl; [reflexivity|].
  rewrite IH. destruct v; reflexivity.
Qed.

Lemma cond_atoms_columns (bound i : nat) (d : dict) :
  map fst (List.concat (map bindings (cond_atoms bound i d)))
  = map fst (filter not_null d).
Proof.
  revert i; induction d as [|[k v] d IH]; intros i; simpl; [reflexivity|].
  rewrite map_app, IH. destruct v; reflexivity.
Qed.

Lemma all_null_filter (d : dict) :
  forallb is_null d = true -> filter not_null d = [] /\ filter is_not_none (values d) = [].
Proof.
  induction d as [|[k v] d IH]; simpl; [auto|].
  unfold is_null, not_null. simpl. destruct v; simpl; try discriminate. exact IH.
Qed.

Lemma all_null_atoms (bound i : nat) (d : dict) :
  forallb is_null d = true ->
  List.concat (map placeholders (cond_atoms bound i d)) = [] /\
  List.concat (map bindings (cond_atoms bound i d)) = [].
Proof.
  revert i; induction d as [|[k v] d IH]; intros i; simpl; [auto|].
  unfold is_null. simpl. destruct v; simpl; try discriminate. apply IH.
Qed.

(** With the nulls last, the placeholders of a condition continue the
    numbering where the bound values stop. *)
Lemma cond_atoms_numbered (bound i : nat) (d : dict) :
  nulls_last d = true ->
  List.concat (map placeholders (cond_atoms bound i d))
  = seq (bound + i + 1) (List.length (filter not_null d)) /\
  List.concat (map bindings (cond_atoms bound i d))
  = combine (map fst (filter not_null d))
            (seq (bound + i + 1) (List.length (filter not_null d))).
Proof.
  revert i; induction d as [|[k v] d IH]; intros i H; simpl in *; [auto|].
  unfold not_null in *. cbn [snd] in *.
  destruct (is_not_none v) eqn:Hv.
  - destruct (IH (S i) H) as [Hp Hb].
    rewrite Hp, Hb. cbn [List.length seq map fst combine placeholders bindings app].
    replace (bound + S i + 1) with (S (bound + i + 1)) by lia.
    split; reflexivity.
  - destruct (all_null_atoms bound (S i) d H) as [Hp Hb].
    destruct (all_null_filter d H) as [Hf _]. unfold not_null in Hf.
    rewrite Hp, Hb, Hf. split; reflexivity.
Qed.

Lemma where_clause_plain (bound : nat) (d : dict) :
  starts_plain (PostgresHandler.where_clause_of bound d) = true.
Proof.
  rewrite where_clause_of_eq. apply starts_plain_join; [reflexivity|].
  apply cond_atoms_plain.
Qed.

Lemma sel_clauses_plain (n : nat) (l : list dict) :
  Forall (fun c => starts_plain c = true) (sel_clauses n l).
Proof.
  revert n; induction l as [|d l IH]; intros n; simpl; [constructor|].
  destruct (truthy d); [constructor|]; auto using where_clause_plain.
Qed.

Lemma paren_plain (clauses : list sql) :
  Forall (fun c => starts_plain c = true) clauses ->
  Forall (fun p => starts_plain p = true /\ p <> []) (map paren clauses).
Proof.
  induction 1 as [|c cs Hc H IH]; simpl; constructor; auto.
  split; [|discriminate].
  unfold paren. destruct c as [|[] c]; simpl in *; trivial; discriminate.
Qed.

(** Reading a [SELECT] statement back gives what its clauses hold. *)
Section SelectRead.

Context {B : Type} (read : sql -> list B).
Hypothesis read_app :
  forall a b, starts_plain b = true -> read (a ++ b) = read a ++ read b.
Hypothesis read_nil : read [] = [].
Hypothesis read_txt : forall s q, read (Txt s :: q) = read q.
Hypothesis read_name : forall c, read [Name c] = [].
Hypothesis read_num : forall z, read [Num z] = [].

Lemma read_names (cs : list string) :
  List.concat (map read (map (fun c => [Name c]) cs)) = [].
Proof.
  induction cs as [|c cs IH]; simpl; [reflexivity|]. now rewrite read_name.
Qed.

Lemma names_plain (cs : list string) :
  Forall (fun p => starts_plain p = true /\ p <> []) (map (fun c => [Name c]) cs).
Proof.
  induction cs as [|c cs IH]; simpl; constructor; auto.
  split; [reflexivity|discriminate].
Qed.

Lemma read_select_base (table_name : string) (find_data : list string) :
  read (select_base table_name find_data) = [].
Proof.
  unfold select_base. rewrite app_assoc, read_app by reflexivity.
  rewrite read_txt, read_name, app_nil_r.
  change ([Txt "SELECT "] ++ ?x) with (Txt "SELECT " :: x). rewrite read_txt.
  rewrite (read_join read ", " read_app read_nil read_txt eq_refl) by apply names_plain.
  apply read_names.
Qed.

Lemma read_paren (c : sql) : read (paren c) = read c.
Proof.
  unfold paren. change ([Txt "("] ++ ?x) with (Txt "(" :: x).
  rewrite read_txt, read_app by reflexivity.
  now rewrite read_txt, read_nil, app_nil_r.
Qed.

Lemma read_parens (clauses : list sql) :
  List.concat (map read (map paren clauses)) = List.concat (map read clauses).
Proof.
  induction clauses as [|c cs IH]; simpl; [reflexivity|].
  now rewrite read_paren, IH.
Qed.

Lemma where_limit_plain (clauses : list sql) (batch_size : Z) :
  Forall (fun c => starts_plain c = true) clauses ->
  starts_plain (where_part clauses ++ limit_part clauses batch_size) = true.
Proof.
  intros H. unfold where_part, limit_part.
  destruct clauses as [|c cs]; [reflexivity|]. cbn [truthy app].
  destruct cs; reflexivity.
Qed.

Lemma read_select (table_name : string) (find_data : list string)
      (clauses : list sql) (batch_size : Z) :
  Forall (fun c => starts_plain c = true) clauses ->
  read (select_base table_name find_data
          ++ where_part clauses ++ limit_part clauses batch_size)
  = List.concat (map read clauses).
Proof.
  intros H.
  rewrite read_app, read_select_base by (apply where_limit_plain; assumption).
  cbn [app].
  assert (Hl : starts_plain (limit_part clauses batch_size) = true).
  { unfold limit_part. destruct (_ && _); reflexivity. }
  rewrite read_app by assumption.
  assert (Hlim : read (limit_part clauses batch_size) = []).
  { unfold limit_part. destruct (_ && _); [|exact read_nil].
    now rewrite read_txt, read_num. }
  rewrite Hlim, app_nil_r. unfold where_part.
  destruct clauses as [|c cs]; [exact read_nil|]. cbn [truthy].
  rewrite read_txt.
  rewrite (read_join read " OR " read_app read_nil read_txt eq_refl)
    by (apply paren_plain; assumption).
  apply read_parens.
Qed.

End SelectRead.

Lemma placeholders_paren (c : sql) : placeholders (paren c) = placeholders c.
Proof.
  unfold paren. rewrite !placeholders_app. simpl. apply app_nil_r.
Qed.

Lemma placeholders_parens (clauses : list sql) :
  List.concat (map placeholders (map paren clauses))
  = List.concat (map placeholders clauses).
Proof.
  induction clauses as [|c cs IH]; [reflexivity|].
  cbn [map List.concat]. now rewrite placeholders_paren, IH.
Qed.

Lemma placeholders_select table_name find_data clauses batch_size :
  placeholders (select_base table_name find_data
                  ++ where_part clauses ++ limit_part clauses batch_size)
  = List.concat (map placeholders clauses).
Proof.
  rewrite !placeholders_app.
  assert (Hb : placeholders (select_base table_name find_data) = []).
  { unfold select_base. rewrite !placeholders_app, placeholders_join. simpl.
    rewrite app_nil_r. induction find_data; simpl; auto. }
  assert (Hl : placeholders (limit_part clauses batch_size) = []).
  { unfold limit_part. destruct (_ && _); reflexivity. }
  rewrite Hb, Hl, app_nil_r. cbn [app]. unfold where_part.
  destruct clauses as [|c cs]; [reflexivity|]. cbn [truthy placeholders].
  rewrite placeholders_join. apply placeholders_parens.
Qed.

Lemma bindings_select table_name find_data clauses batch_size :
  Forall (fun c => starts_plain c = true) clauses ->
  bindings (select_base table_name find_data
              ++ where_part clauses ++ limit_part clauses batch_size)
  = List.concat (map bindings clauses).
Proof.
  apply (read_select bindings bindings_app); reflexivity.
Qed.

Lemma null_tests_select table_name find_data clauses batch_size :
  Forall (fun c => starts_plain c = true) clauses ->
  null_tests (select_base table_name find_data
                ++ where_part clauses ++ limit_part clauses batch_size)
  = List.concat (map null_tests clauses).
Proof.
  apply (read_select null_tests null_tests_app); reflexivity.
Qed.

Lemma filter_values (d : dict) :
  filter is_not_none (values d) = values (filter not_null d).
Proof.
  induction d as [|[k v] d IH]; simpl; [reflexivity|].
  unfold not_null. simpl. destruct (is_not_none v); simpl; now rewrite IH.
Qed.

Lemma nonnull_values_eq (l : list dict) :
  nonnull_values l = values (filter not_null (List.concat l)).
Proof.
  unfold nonnull_values. rewrite <- filter_values. f_equal.
  unfold values. now rewrite concat_map.
Qed.

Lemma where_clause_null_tests (n : nat) (d : dict) :
  null_tests (PostgresHandler.where_clause_of n d) = map fst (filter is_null d).
Proof.
  rewrite where_clause_of_eq, null_tests_join, cond_atoms_null_tests;
    auto using cond_atoms_plain.
Qed.

Lemma where_clause_bindings (n : nat) (d : dict) :
  bindings (PostgresHandler.where_clause_of n d)
  = List.concat (map bindings (cond_atoms n 0 d)).
Proof.
  rewrite where_clause_of_eq, bindings_join; auto using cond_atoms_plain.
Qed.

Lemma where_clause_placeholders (n : nat) (d : dict) :
  placeholders (PostgresHandler.where_clause_of n d)
  = List.concat (map placeholders (cond_atoms n 0 d)).
Proof.
  now rewrite where_clause_of_eq, placeholders_join.
Qed.

Lemma sel_clauses_null_tests (n : nat) (l : list dict) :
  List.concat (map null_tests (sel_clauses n l))
  = map fst (filter is_null (List.concat l)).
Proof.
  revert n; induction l as [|d l IH]; intros n; [reflexivity|].
  cbn [sel_clauses List.concat]. rewrite filter_app, map_app.
  destruct d as [|kv d]; cbn [truthy]; [apply IH|].
  cbn [map List.concat]. now rewrite where_clause_null_tests, IH.
Qed.

Lemma sel_clauses_columns (n : nat) (l : list dict) :
  map fst (List.concat (map bindings (sel_clauses n l)))
  = map fst (filter not_null (List.concat l)).
Proof.
  revert n; induction l as [|d l IH]; intros n; [reflexivity|].
  cbn [sel_clauses List.concat]. rewrite filter_app, map_app.
  destruct d as [|kv d]; cbn [truthy]; [apply IH|].
  cbn [map List.concat].
  now rewrite map_app, where_clause_bindings, cond_atoms_columns, IH.
Qed.

Lemma sel_clauses_placeholders_length (n : nat) (l : list dict) :
  List.length (List.concat (map placeholders (sel_clauses n l)))
  = List.length (nonnull_values l).
Proof.
  revert n; induction l as [|d l IH]; intros n; [reflexivity|].
  unfold nonnull_values in *. cbn [sel_clauses map List.concat].
  rewrite filter_app, length_app.
  destruct d as [|kv d]; cbn [truthy]; [apply IH|].
  cbn [map List.concat].
  now rewrite length_app, where_clause_placeholders,
    cond_atoms_placeholders_length, IH.
Qed.

Lemma sel_clauses_numbered (n : nat) (l : list dict) :
  forallb nulls_last l = true ->
  let found := filter not_null (List.concat l) in
  List.concat (map placeholders (sel_clauses n l)) = seq (n + 1) (List.length found) /\
  List.concat (map bindings (sel_clauses n l))
  = combine (map fst found) (seq (n + 1) (List.length found)).
Proof.
  revert n; induction l as [|d l IH]; intros n H; [split; reflexivity|].
  cbn [forallb] in H. apply andb_true_iff in H as [Hd Hl].
  cbn [sel_clauses List.concat]. cbv zeta. rewrite filter_app, length_app, map_app.
  destruct d as [|kv d'] eqn:Ed; cbn [truthy]; [apply IH; assumption|].
  rewrite <- Ed in *. clear Ed kv d'. cbn [map List.concat].
  rewrite where_clause_placeholders, where_clause_bindings.
  destruct (cond_atoms_numbered n 0 d Hd) as [Hp Hb].
  destruct (IH (n + List.length (filter is_not_none (values d))) Hl) as [Hp' Hb'].
  rewrite Hp, Hb, Hp', Hb'.
  rewrite filter_values, values_length, Nat.add_0_r.
  rewrite seq_app, combine_app by now rewrite length_map, length_seq.
  replace (n + List.length (filter not_null d) + 1)
    with (n + 1 + List.length (filter not_null d)) by lia.
  split; reflexivity.
Qed.

(** *** Erasing the numbering: the embedded backend's [SELECT] *)

Lemma erase_join (sep : sql) (parts : list sql) :
  erase (join sep parts) = join (erase sep) (map erase parts).
Proof.
  induction parts as [|p parts IH]; [reflexivity|].
  destruct parts as [|p' parts]; [reflexivity|].
  change (join sep (p :: p' :: parts)) with (p ++ sep ++ join sep (p' :: parts)).
  unfold erase in *. rewrite !map_app, IH. reflexivity.
Qed.

Lemma erase_where_clause (n : nat) (d : dict) :
  erase (PostgresHandler.where_clause_of n d) = SqliteHandler.where_clause_of d.
Proof.
  rewrite where_clause_of_eq, erase_join.
  unfold SqliteHandler.where_clause_of, items. f_equal.
  generalize 0. induction d as [|[k v] d IH]; intros i; simpl; [reflexivity|].
  rewrite IH. destruct (is_not_none v); reflexivity.
Qed.

Lemma erase_app (a b : sql) : erase (a ++ b) = erase a ++ erase b.
Proof. apply map_app. Qed.

Lemma erase_sel_clauses (n : nat) (l : list dict) :
  map erase (sel_clauses n l) = sq_clauses l.
Proof.
  revert n; induction l as [|d l IH]; intros n; [reflexivity|].
  unfold sq_clauses in *. cbn [sel_clauses filter].
  destruct (truthy d); [|apply IH].
  cbn [map]. now rewrite erase_where_clause, IH.
Qed.

Lemma sqlite_select_loop_eq (l : list dict) (wc : list sql) (cv : list pyval) :
  SqliteHandler.select_loop l wc cv = (wc ++ sq_clauses l, cv ++ nonnull_values l).
Proof.
  revert wc cv; induction l as [|d l IH]; intros wc cv; simpl.
  - unfold nonnull_values, sq_clauses. simpl. now rewrite !app_nil_r.
  - unfold nonnull_values, sq_clauses in *. cbn [map List.concat filter].
    rewrite filter_app.
    destruct d as [|kv d]; cbn [truthy].
    + simpl. apply IH.
    + rewrite IH, <- !app_assoc. reflexivity.
Qed.

Lemma sqlite_select_shape (table_name : string) (find_data : list string)
      (l : list dict) (batch_size : Z) :
  SqliteHandler.build_select_query table_name find_data l batch_size =
    (select_base table_name find_data
       ++ where_part (sq_clauses l)
       ++ limit_part (sq_clauses l) batch_size,
     nonnull_values l).
Proof.
  unfold SqliteHandler.build_select_query.
  fold (select_base table_name find_data).
  destruct l as [|d l]; cbn [truthy].
  - unfold where_part, limit_part. simpl. now rewrite app_nil_r.
  - rewrite sqlite_select_loop_eq. cbn [List.length app].
    unfold where_part, limit_part.
    destruct (truthy (sq_clauses (d :: l))); cbn [andb].
    + fold paren.
      destruct (batch_size =? 0)%Z; cbn [negb];
        rewrite <- ?app_assoc, ?app_nil_r; reflexivity.
    + now rewrite app_nil_r.
Qed.

Lemma erase_names (cs : list string) :
  erase (join [Txt ", "] (map (fun c => [Name c]) cs))
  = join [Txt ", "] (map (fun c => [Name c]) cs).
Proof.
  rewrite erase_join, map_map. reflexivity.
Qed.

Lemma erase_parens (clauses : list sql) :
  erase (join [Txt " OR "] (map paren clauses))
  = join [Txt " OR "] (map paren (map erase clauses)).
Proof.
  rewrite erase_join, !map_map. f_equal. apply map_ext. intros c.
  unfold paren. now rewrite !erase_app.
Qed.

Lemma truthy_map {A B : Type} (f : A -> B) (l : list A) : truthy (map f l) = truthy l.
Proof. now destruct l. Qed.

Lemma erase_select_base (table_name : string) (find_data : list string) :
  erase (select_base table_name find_data) = select_base table_name find_data.
Proof.
  unfold select_base. now rewrite !erase_app, erase_names.
Qed.

Lemma erase_where_part (clauses : list sql) :
  erase (where_part clauses) = where_part (map erase clauses).
Proof.
  unfold where_part. rewrite truthy_map.
  destruct (truthy clauses); [|reflexivity].
  change (erase (Txt " WHERE " :: ?x)) with (Txt " WHERE " :: erase x).
  now rewrite erase_parens.
Qed.

Lemma erase_limit_part (clauses : list sql) (batch_size : Z) :
  erase (limit_part clauses batch_size) = limit_part (map erase clauses) batch_size.
Proof.
  unfold limit_part. rewrite truthy_map. destruct (_ && _); reflexivity.
Qed.

(** The embedded backend's [SELECT] is the pooled one with the numbering
    erased, over the same bound values. *)
Lemma sqlite_select_erased (table_name : string) (find_data : list string)
      (l : list dict) (batch_size : Z) :
  SqliteHandler.build_select_query table_name find_data l batch_size
  = (erase (fst (PostgresHandler.build_select_query table_name find_data l batch_size)),
     snd (PostgresHandler.build_select_query table_name find_data l batch_size)).
Proof.
  rewrite sqlite_select_shape, pg_select_shape. cbn [fst snd].
  rewrite !erase_app, erase_select_base, erase_where_part, erase_limit_part.
  now rewrite erase_sel_clauses.
Qed.

Lemma null_tests_erase (q : sql) : null_tests (erase q) = null_tests q.
Proof.
  induction q as [|f q IH]; [reflexivity|].
  change (erase (f :: q)) with ((match f with Ph _ => Qm | _ => f end) :: erase q).
  rewrite !null_tests_cons, IH.
  destruct f; try reflexivity.
  destruct q as [|[] q]; reflexivity.
Qed.

Lemma count_qm_erase (q : sql) :
  count_qm q = 0 -> count_qm (erase q) = List.length (placeholders q).
Proof.
  induction q as [|f q IH]; [reflexivity|].
  destruct f; simpl; intros H; auto. discriminate.
Qed.

Lemma in_txt_erase (s : string) (q : sql) : In (Txt s) (erase q) <-> In (Txt s) q.
Proof.
  induction q as [|f q IH]; [reflexivity|]. simpl.
  rewrite IH. destruct f; split; intros [H|H]; auto; discriminate.
Qed.

(** *** The template text of a statement *)

Lemma in_txts (s : string) (q : sql) : In (Txt s) q <-> In s (txts q).
Proof.
  induction q as [|f q IH]; [reflexivity|].
  destruct f; simpl; rewrite <- IH.
  1: split; intros [H|H]; [left; now injection H|now right|left; now subst|now right].
  all: split; [intros [H|H]; [discriminate|assumption]|intros H; now right].
Qed.

Lemma txts_app (a b : sql) : txts (a ++ b) = txts a ++ txts b.
Proof.
  induction a as [|f a IH]; [reflexivity|].
  destruct f; simpl; now rewrite IH.
Qed.

Lemma txts_join (allowed : list string) (sep : sql) (parts : list sql) :
  incl (txts sep) allowed ->
  Forall (fun p => incl (txts p) allowed) parts ->
  incl (txts (join sep parts)) allowed.
Proof.
  intros Hsep H. induction H as [|p parts Hp H IH]; [intros x []|].
  destruct parts as [|p' parts]; [exact Hp|].
  change (join sep (p :: p' :: parts)) with (p ++ sep ++ join sep (p' :: parts)).
  rewrite !txts_app. auto using incl_app.
Qed.

Lemma txts_number_qmarks (n : nat) (q : sql) : txts (number_qmarks n q) = txts q.
Proof.
  revert n; induction q as [|f q IH]; intros n; [reflexivity|].
  destruct f; simpl; now rewrite IH.
Qed.

Lemma null_tests_number_qmarks (n : nat) (q : sql) :
  null_tests (number_qmarks n q) = null_tests q.
Proof.
  revert n; induction q as [|f q IH]; intros n; [reflexivity|].
  destruct f; cbn [number_qmarks]; rewrite !null_tests_cons, IH; try reflexivity.
  destruct q as [|[] q]; reflexivity.
Qed.

Lemma eq_atoms_txts (first : nat) (ks : list string) :
  Forall (fun p => incl (txts p) [" = "]) (eq_atoms first ks).
Proof.
  revert first; induction ks as [|k ks IH]; intros first; simpl; constructor; auto.
  intros x [<-|[]]. now left.
Qed.

Lemma cond_atoms_txts (bound i : nat) (d : dict) :
  Forall (fun p => incl (txts p) [" = "; " IS NULL"]) (cond_atoms bound i d).
Proof.
  revert i; induction d as [|[k v] d IH]; intros i; simpl; constructor; auto.
  destruct (is_not_none v); intros x [<-|[]]; simpl; auto.
Qed.

(** The text of the flat [WHERE] statements *)
Lemma flat_where_txts (d : dict) :
  incl (txts (if truthy d then Txt " WHERE " :: join [Txt " AND "] (eq_atoms 1 (keys d))
              else []))
       [" WHERE "; " AND "; " = "].
Proof.
  destruct (truthy d); [|intros x []].
  cbn [txts]. apply incl_cons; [now left|].
  apply txts_join.
  - intros x [<-|[]]. simpl. auto.
  - eapply Forall_impl; [|apply eq_atoms_txts].
    intros p Hp x Hx. apply Hp in Hx as [<-|[]]. simpl. auto.
Qed.

Lemma null_part_read (d : dict) :
  starts_plain (null_part d) = true /\
  placeholders (null_part d) = [] /\ bindings (null_part d) = [] /\
  null_tests (null_part d) = first_null d /\
  incl (txts (null_part d)) [" OR "; " IS NULL"] /\
  (forall n, number_qmarks n (null_part d) = null_part d) /\
  count_qm (null_part d) = 0.
Proof.
  unfold null_part, first_null.
  destruct (map fst (filter _ (items d))) as [|c cs]; simpl;
    repeat split; auto; intros x; simpl; tauto.
Qed.

(** The null tests of a flat statement are those after its [WHERE]. *)
Lemma flat_where_null_tests (pre : sql) (d : dict) (post : sql) :
  starts_plain post = true -> null_tests pre = [] ->
  null_tests (pre ++ (if truthy d
                      then Txt " WHERE " :: join [Txt " AND "] (eq_atoms 1 (keys d))
                      else []) ++ post)
  = null_tests post.
Proof.
  intros Hpost Hpre.
  rewrite app_assoc, null_tests_app by assumption.
  destruct (truthy d).
  - rewrite null_tests_clause, Hpre, eq_atoms_null_tests; auto using eq_atoms_plain.
  - now rewrite app_nil_r, Hpre.
Qed.

(** ** The claims about the statement builders *)

Lemma not_in_values_filter (d : dict) :
  forallb is_not_none (values (filter not_null d)) = true.
Proof.
  induction d as [|[k v] d IH]; [reflexivity|].
  cbn [filter]. unfold not_null at 1. cbn [snd].
  destruct (is_not_none v) eqn:Hv; [|exact IH].
  cbn [values map snd forallb]. rewrite Hv. exact IH.
Qed.

Lemma pg_select_read (table_name : string) (find_data : list string)
      (l : list dict) (batch_size : Z) :
  let q := fst (PostgresHandler.build_select_query table_name find_data l batch_size) in
  let args := snd (PostgresHandler.build_select_query table_name find_data l batch_size) in
  args = values (filter not_null (List.concat l)) /\
  forallb is_not_none args = true /\
  null_tests q = keys (filter is_null (List.concat l)) /\
  map fst (bindings q) = keys (filter not_null (List.concat l)) /\
  List.length (placeholders q) = List.length args.
Proof.
  intros q args. subst q args. rewrite pg_select_shape. cbn [fst snd].
  rewrite nonnull_values_eq.
  split; [reflexivity|]. split; [apply not_in_values_filter|].
  rewrite null_tests_select, bindings_select, placeholders_select
    by apply sel_clauses_plain.
  rewrite sel_clauses_null_tests, sel_clauses_columns,
    sel_clauses_placeholders_length, nonnull_values_eq.
  repeat split; reflexivity.
Qed.

Lemma count_qm_join (sep : sql) (parts : list sql) :
  count_qm sep = 0 -> Forall (fun p => count_qm p = 0) parts ->
  count_qm (join sep parts) = 0.
Proof.
  intros Hsep H. induction H as [|p parts Hp H IH]; [reflexivity|].
  destruct parts as [|p' parts]; [exact Hp|].
  change (join sep (p :: p' :: parts)) with (p ++ sep ++ join sep (p' :: parts)).
  now rewrite !count_qm_app, Hp, Hsep, IH.
Qed.

Lemma where_clause_no_qm (n : nat) (d : dict) :
  count_qm (PostgresHandler.where_clause_of n d) = 0.
Proof.
  rewrite where_clause_of_eq. apply count_qm_join; trivial.
  assert (Hi : forall i, Forall (fun p => count_qm p = 0) (cond_atoms n i d));
    [|apply Hi].
  induction d as [|[k v] d IH]; intros i; simpl; constructor; auto.
  destruct (is_not_none v); reflexivity.
Qed.

Lemma sel_clauses_no_qm (n : nat) (l : list dict) :
  Forall (fun c => count_qm c = 0) (sel_clauses n l).
Proof.
  revert n; induction l as [|d l IH]; intros n; simpl; [constructor|].
  destruct (truthy d); [constructor|]; auto using where_clause_no_qm.
Qed.

Lemma pg_select_no_qm (table_name : string) (find_data : list string)
      (l : list dict) (batch_size : Z) :
  count_qm (fst (PostgresHandler.build_select_query table_name find_data l batch_size))
  = 0.
Proof.
  rewrite pg_select_shape. cbn [fst]. rewrite !count_qm_app.
  assert (H1 : count_qm (select_base table_name find_data) = 0).
  { unfold select_base. rewrite !count_qm_app, count_qm_join; trivial.
    apply Forall_forall. intros p Hp. apply in_map_iff in Hp as (c & <- & _).
    reflexivity. }
  assert (H3 : count_qm (limit_part (sel_clauses 0 l) batch_size) = 0).
  { unfold limit_part. destruct (_ && _); reflexivity. }
  rewrite H1, H3. unfold where_part.
  destruct (truthy (sel_clauses 0 l)); [|reflexivity].
  cbn [count_qm Nat.add]. rewrite count_qm_join; trivial.
  apply Forall_forall. intros p Hp. apply in_map_iff in Hp as (c & <- & Hc').
  unfold paren. rewrite !count_qm_app. simpl.
  rewrite Nat.add_0_r. revert c Hc'. apply Forall_forall. apply sel_clauses_no_qm.
Qed.

Lemma sqlite_select_read (table_name : string) (find_data : list string)
      (l : list dict) (batch_size : Z) :
  let q := fst (SqliteHandler.build_select_query table_name find_data l batch_size) in
  let args := snd (SqliteHandler.build_select_query table_name find_data l batch_size) in
  args = values (filter not_null (List.concat l)) /\
  forallb is_not_none args = true /\
  null_tests q = keys (filter is_null (List.concat l)) /\
  count_qm q = List.length args.
Proof.
  intros q args. subst q args. rewrite sqlite_select_erased. cbn [fst snd].
  destruct (pg_select_read table_name find_data l batch_size)
    as (Ha & Hn & Hnull & _ & Hlen).
  rewrite null_tests_erase, count_qm_erase, Hlen; auto using pg_select_no_qm.
Qed.

Lemma map_fst_combine_seq (ks : list string) (first : nat) :
  map fst (combine ks (seq first (List.length ks))) = ks.
Proof.
  revert first; induction ks as [|k ks IH]; intros first; simpl; [reflexivity|].
  now rewrite IH.
Qed.

(** What the flat [WHERE] of [delete_data] and [count_records] binds, on the
    pooled backend *)
Lemma pg_flat_read (pre : sql) (d : dict) (post : sql) :
  starts_plain post = true ->
  placeholders pre = [] -> bindings pre = [] -> null_tests pre = [] ->
  placeholders post = [] -> bindings post = [] ->
  let q := pre ++ (if truthy d then Txt " WHERE " :: join [Txt " AND "] (eq_atoms 1 (keys d))
                   else []) ++ post in
  placeholders q = seq 1 (List.length (values d)) /\
  resolve q (values d) = map (fun kv => (fst kv, Some (snd kv))) d /\
  map fst (bindings q) = keys d /\
  null_tests q = null_tests post.
Proof.
  intros Hpost Hp Hb Hn Hp' Hb' q.
  destruct (flat_where_read pre d post Hpost Hp Hb Hp' Hb') as (H1 & H2 & H3).
  fold q in H1, H2, H3. rewrite values_length.
  repeat split; trivial.
  - rewrite H2, <- (keys_length d). apply map_fst_combine_seq.
  - apply flat_where_null_tests; assumption.
Qed.

Lemma pg_delete_read (table_name : string) (d : dict) :
  let q := fst (PostgresHandler.build_delete_query table_name d) in
  let args := snd (PostgresHandler.build_delete_query table_name d) in
  args = values d /\
  placeholders q = seq 1 (List.length args) /\
  resolve q args = map (fun kv => (fst kv, Some (snd kv))) d /\
  map fst (bindings q) = keys d /\
  null_tests q = [].
Proof.
  intros q args. subst q args. rewrite pg_delete_shape. cbn [fst snd].
  split; [reflexivity|].
  pose proof (pg_flat_read [Txt "DELETE FROM "; Name table_name] d []) as H.
  cbv zeta in H. rewrite !app_nil_r in H. apply H; reflexivity.
Qed.

Lemma pg_count_read (table_name : string) (d : dict) :
  let q := fst (PostgresHandler.build_count_query table_name d) in
  let args := snd (PostgresHandler.build_count_query table_name d) in
  args = values d /\
  placeholders q = seq 1 (List.length args) /\
  resolve q args = map (fun kv => (fst kv, Some (snd kv))) d /\
  map fst (bindings q) = keys d /\
  null_tests q = first_null d.
Proof.
  intros q args. subst q args. rewrite pg_count_shape. cbn [fst snd].
  split; [reflexivity|].
  destruct (null_part_read d) as (H1 & H2 & H3 & H4 & _).
  rewrite <- H4.
  apply (pg_flat_read [Txt "SELECT COUNT(*) FROM "; Name table_name] d (null_part d));
    trivial.
Qed.

(** The same on the embedded backend, where the k-th [?] takes the k-th
    value *)
Lemma sqlite_flat_read (pre : sql) (d : dict) (post : sql) :
  starts_plain post = true ->
  placeholders pre = [] -> bindings pre = [] -> null_tests pre = [] ->
  placeholders post = [] -> bindings post = [] ->
  count_qm pre = 0 -> count_qm post = 0 ->
  number_qmarks 1 pre = pre -> (forall n, number_qmarks n post = post) ->
  let q := pre ++ (if truthy d then Txt " WHERE " :: join [Txt " AND "] (sq_atoms (keys d))
                   else []) ++ post in
  count_qm q = List.length (values d) /\
  resolve (number_qmarks 1 q) (values d) = map (fun kv => (fst kv, Some (snd kv))) d /\
  map fst (bindings (number_qmarks 1 q)) = keys d /\
  null_tests q = null_tests post.
Proof.
  intros Hpost Hp Hb Hn Hp' Hb' Hc Hc' Hq Hq' q.
  assert (Hnum := flat_where_numbered pre d post Hc Hc' Hq Hq'). fold q in Hnum.
  destruct (pg_flat_read pre d post Hpost Hp Hb Hn Hp' Hb') as (_ & H2 & H3 & H4).
  rewrite <- (null_tests_number_qmarks 1 q), Hnum.
  repeat split; trivial.
  unfold q. rewrite !count_qm_app, Hc, Hc', Nat.add_0_r. cbn [Nat.add].
  rewrite values_length, <- keys_length.
  destruct d as [|kv d]; [reflexivity|]. cbn [truthy count_qm].
  apply sq_atoms_numbered. exact 0.
Qed.

Lemma sqlite_delete_read (table_name : string) (d : dict) :
  let q := fst (SqliteHandler.build_delete_query table_name d) in
  let args := snd (SqliteHandler.build_delete_query table_name d) in
  args = values d /\
  count_qm q = List.length args /\
  resolve (number_qmarks 1 q) args = map (fun kv => (fst kv, Some (snd kv))) d /\
  map fst (bindings (number_qmarks 1 q)) = keys d /\
  null_tests q = [].
Proof.
  intros q args. subst q args. rewrite sqlite_delete_shape. cbn [fst snd].
  split; [reflexivity|].
  pose proof (sqlite_flat_read [Txt "DELETE FROM "; Name table_name] d []) as H.
  cbv zeta in H. rewrite !app_nil_r in H. apply H; reflexivity.
Qed.

Lemma sqlite_count_read (table_name : string) (d : dict) :
  let q := fst (SqliteHandler.build_count_query table_name d) in
  let args := snd (SqliteHandler.build_count_query table_name d) in
  args = values d /\
  count_qm q = List.length args /\
  resolve (number_qmarks 1 q) args = map (fun kv => (fst kv, Some (snd kv))) d /\
  map fst (bindings (number_qmarks 1 q)) = keys d /\
  null_tests q = first_null d.
Proof.
  intros q args. subst q args. rewrite sqlite_count_shape. cbn [fst snd].
  split; [reflexivity|].
  destruct (null_part_read d) as (H1 & H2 & H3 & H4 & _ & H6 & H7).
  rewrite <- H4.
  apply (sqlite_flat_read [Txt "SELECT COUNT(*) FROM "; Name table_name] d (null_part d));
    trivial.
Qed.

Lemma pg_select_numbered (table_name : string) (find_data : list string)
      (l : list dict) (batch_size : Z) :
  forallb nulls_last l = true ->
  let q := fst (PostgresHandler.build_select_query table_name find_data l batch_size) in
  let args := snd (PostgresHandler.build_select_query table_name find_data l batch_size) in
  placeholders q = seq 1 (List.length args) /\
  resolve q args
  = map (fun kv => (fst kv, Some (snd kv))) (filter not_null (List.concat l)).
Proof.
  intros H q args. subst q args. rewrite pg_select_shape. cbn [fst snd].
  rewrite placeholders_select, nonnull_values_eq, values_length.
  destruct (sel_clauses_numbered 0 l H) as [Hp Hb]. cbv zeta in Hp, Hb.
  cbn [Nat.add] in Hp, Hb.
  split; [exact Hp|].
  unfold resolve. rewrite bindings_select, Hb by apply sel_clauses_plain.
  set (found := filter not_null (List.concat l)).
  pose proof (resolve_run (keys found) (values found) [] []) as Hr.
  rewrite app_nil_r, keys_length in Hr. cbn [List.length app] in Hr.
  fold (keys found). rewrite Hr, combine_keys_values by now rewrite values_length.
  reflexivity.
Qed.

(** C1 (amended).  For every ConditionSet compiled by select, on both
    backends, the bound-value list is exactly the values of the non-null
    columns, in column iteration order, it holds no null, and the null-valued
    columns, and only they, are rendered as [column IS NULL] with no bound
    parameter.  The flat WHERE of delete and of count has no such special
    case: every column of the Condition, null-valued or not, gets an equality
    placeholder and every value, null included, is bound, in column iteration
    order. *)
Theorem bound_values_of_predicates :
  (forall table_name find_data (l : list dict) batch_size,
     let q := fst (PostgresHandler.build_select_query table_name find_data l batch_size) in
     let args := snd (PostgresHandler.build_select_query table_name find_data l batch_size) in
     args = values (filter not_null (List.concat l)) /\
     forallb is_not_none args = true /\
     null_tests q = keys (filter is_null (List.concat l)) /\
     map fst (bindings q) = keys (filter not_null (List.concat l))) /\
  (forall table_name find_data (l : list dict) batch_size,
     let q := fst (SqliteHandler.build_select_query table_name find_data l batch_size) in
     let args := snd (SqliteHandler.build_select_query table_name find_data l batch_size) in
     args = values (filter not_null (List.concat l)) /\
     forallb is_not_none args = true /\
     null_tests q = keys (filter is_null (List.concat l)) /\
     count_qm q = List.length args) /\
  (forall table_name (d : dict),
     let q := fst (PostgresHandler.build_delete_query table_name d) in
     let args := snd (PostgresHandler.build_delete_query table_name d) in
     args = values d /\ map fst (bindings q) = keys d /\ null_tests q = []) /\
  (forall table_name (d : dict),
     let q := fst (SqliteHandler.build_delete_query table_name d) in
     let args := snd (SqliteHandler.build_delete_query table_name d) in
     args = values d /\ map fst (bindings (number_qmarks 1 q)) = keys d /\
     null_tests q = []) /\
  (forall table_name (d : dict),
     let q := fst (PostgresHandler.build_count_query table_name d) in
     let args := snd (PostgresHandler.build_count_query table_name d) in
     args = values d /\ map fst (bindings q) = keys d) /\
  (forall table_name (d : dict),
     let q := fst (SqliteHandler.build_count_query table_name d) in
     let args := snd (SqliteHandler.build_count_query table_name d) in
     args = values d /\ map fst (bindings (number_qmarks 1 q)) = keys d).
Proof.
  split; [|split; [|split; [|split; [|split]]]].
  - intros tn fd l bs.
    destruct (pg_select_read tn fd l bs) as (H1 & H2 & H3 & H4 & _). auto.
  - intros tn fd l bs.
    destruct (sqlite_select_read tn fd l bs) as (H1 & H2 & H3 & H4). auto.
  - intros tn d. destruct (pg_delete_read tn d) as (H1 & _ & _ & H4 & H5). auto.
  - intros tn d. destruct (sqlite_delete_read tn d) as (H1 & _ & _ & H4 & H5). auto.
  - intros tn d. destruct (pg_count_read tn d) as (H1 & _ & _ & H4 & _). auto.
  - intros tn d. destruct (sqlite_count_read tn d) as (H1 & _ & _ & H4 & _). auto.
Qed.

(** C1 as stated fails for delete: a null-valued column of the Condition is
    bound, and it is rendered as an equality test, not as [IS NULL]. *)
Lemma delete_binds_null :
  let d := [("a", VInt 1); ("b", VNone)] in
  let q := fst (PostgresHandler.build_delete_query "t" d) in
  let args := snd (PostgresHandler.build_delete_query "t" d) in
  render q = "DELETE FROM t WHERE a = $1 AND b = $2" /\
  args = [VInt 1; VNone] /\
  In VNone args /\
  args <> values (filter not_null d) /\
  null_tests q <> keys (filter is_null d).
Proof.
  cbv zeta. repeat split; try reflexivity.
  - right. now left.
  - discriminate.
  - discriminate.
Qed.

(** C2 (amended).  On the pooled backend: the statements of delete and of
    count carry the placeholders [$1 .. $n] in this order, one per bound
    value, and [$i] is the placeholder of the column whose value is the i-th
    bound value.  The statement of bulk update uses every index of
    [1 .. n] once and [$i] stands for the i-th bound value there too, but the
    SET clause, which comes first in the text, carries the indices after the
    WHERE clause's [$1 .. $nw].  The statement of select has the placeholders
    [$1 .. $n] in this order, each standing for its column's value, whenever
    no null-valued column precedes a non-null one inside a Condition. *)
Theorem pg_placeholder_numbering :
  (forall table_name (d : dict),
     let q := fst (PostgresHandler.build_delete_query table_name d) in
     let args := snd (PostgresHandler.build_delete_query table_name d) in
     placeholders q = seq 1 (List.length args) /\
     resolve q args = map (fun kv => (fst kv, Some (snd kv))) d) /\
  (forall table_name (d : dict),
     let q := fst (PostgresHandler.build_count_query table_name d) in
     let args := snd (PostgresHandler.build_count_query table_name d) in
     placeholders q = seq 1 (List.length args) /\
     resolve q args = map (fun kv => (fst kv, Some (snd kv))) d) /\
  (forall table_name (data : update_spec),
     let nw := List.length (where_ data) in
     let nu := List.length (update data) in
     let q := fst (PostgresHandler.build_update_query table_name data) in
     let args := snd (PostgresHandler.build_update_query table_name data) in
     placeholders q = seq (S nw) nu ++ seq 1 nw /\
     Permutation (placeholders q) (seq 1 (List.length args)) /\
     resolve q args
     = map (fun kv => (fst kv, Some (snd kv))) (update data ++ where_ data)) /\
  (forall table_name find_data (l : list dict) batch_size,
     forallb nulls_last l = true ->
     let q := fst (PostgresHandler.build_select_query table_name find_data l batch_size) in
     let args := snd (PostgresHandler.build_select_query table_name find_data l batch_size) in
     placeholders q = seq 1 (List.length args) /\
     resolve q args
     = map (fun kv => (fst kv, Some (snd kv))) (filter not_null (List.concat l))).
Proof.
  split; [|split; [|split]].
  - intros table_name d.
    destruct (pg_delete_read table_name d) as (H1 & H2 & H3 & _). auto.
  - intros table_name d.
    destruct (pg_count_read table_name d) as (H1 & H2 & H3 & _). auto.
  - intros table_name data nw nu q args.
    destruct (pg_update_read table_name data) as (H1 & H2 & H3).
    fold nw nu q args in H1, H2, H3.
    split; [exact H2|]. split; [|exact H3].
    rewrite H2, H1, length_app, !values_length. fold nw nu.
    rewrite seq_app. apply Permutation_app_comm.
  - intros table_name find_data l batch_size H.
    apply pg_select_numbered. exact H.
Qed.

Lemma pg_placeholder_numbering_witness :
  let l := [[("age", VInt 30); ("city", VStr "New York"); ("name", VNone)]] in
  let q := fst (PostgresHandler.build_select_query "t" ["us_id"; "email"] l 1000) in
  let args := snd (PostgresHandler.build_select_query "t" ["us_id"; "email"] l 1000) in
  forallb nulls_last l = true /\
  placeholders q = seq 1 (List.length args) /\
  resolve q args
  = map (fun kv => (fst kv, Some (snd kv))) (filter not_null (List.concat l)).
Proof.
  split; [reflexivity|].
  apply (proj2 (proj2 (proj2 pg_placeholder_numbering))). reflexivity.
Defined.

(** C2 as stated fails for bulk update: the placeholders are not increasing
    from left to right. *)
Lemma pg_update_not_increasing :
  let data := UpdateSpec [("id", VInt 1)] [("name", VStr "John")] in
  let q := fst (PostgresHandler.build_update_query "t" data) in
  let args := snd (PostgresHandler.build_update_query "t" data) in
  render q = "UPDATE t SET name = $2 WHERE id = $1" /\
  placeholders q = [2; 1] /\
  placeholders q <> seq 1 (List.length args).
Proof.
  cbv zeta. repeat split; try reflexivity. discriminate.
Qed.

(** The numbering of select counts the null-valued columns of a Condition:
    a non-null column after a null one gets an index that has no value. *)
Lemma pg_select_numbering_slip :
  let l := [[("name", VNone); ("age", VInt 30)]] in
  let q := fst (PostgresHandler.build_select_query "t" ["*"] l 0) in
  let args := snd (PostgresHandler.build_select_query "t" ["*"] l 0) in
  render q = "SELECT * FROM t WHERE (name IS NULL AND age = $2)" /\
  args = [VInt 30] /\
  placeholders q = [2] /\
  resolve q args = [("age", None)].
Proof.
  cbv zeta. repeat split; reflexivity.
Qed.

(** C3 (amended).  On the embedded backend bulk update binds the update
    Record's values first and the where Condition's values after them, as the
    positional placeholders of the SET and WHERE clauses come in the text.
    On the pooled backend it binds the where Condition's values first, as
    [$1 .. $nw], and the update Record's values after them: the SET clause
    placeholders start at [$nw+1].  On both backends every placeholder stands
    for the value of its column, and for a batch size of at least 1 bulk
    update executes, for each UpdateSpec in order, this statement with this
    bound-value list. *)
Theorem update_binding_order :
  (forall table_name (data : update_spec),
     let q := fst (SqliteHandler.build_update_query table_name data) in
     let args := snd (SqliteHandler.build_update_query table_name data) in
     args = values (update data) ++ values (where_ data) /\
     count_qm q = List.length args /\
     resolve (number_qmarks 1 q) args
     = map (fun kv => (fst kv, Some (snd kv))) (update data ++ where_ data)) /\
  (forall table_name (data : update_spec),
     let nw := List.length (where_ data) in
     let nu := List.length (update data) in
     let q := fst (PostgresHandler.build_update_query table_name data) in
     let args := snd (PostgresHandler.build_update_query table_name data) in
     args = values (where_ data) ++ values (update data) /\
     placeholders q = seq (S nw) nu ++ seq 1 nw /\
     resolve q args
     = map (fun kv => (fst kv, Some (snd kv))) (update data ++ where_ data)) /\
  (forall (E : Type) (drv : PostgresHandler.driver E) table_name data_list batch_size
          (w : world E),
     (1 <= batch_size)%Z ->
     exists w',
       PostgresHandler.mass_update drv table_name data_list batch_size w = (Ok tt, w') /\
       map fst (issued w w') = map (pg_update_call table_name) data_list) /\
  (forall (E : Type) (drv : SqliteHandler.driver E) table_name data_list batch_size
          (w : world E),
     (1 <= batch_size)%Z ->
     exists w',
       SqliteHandler.mass_update drv table_name data_list batch_size w = (Ok tt, w') /\
       map fst (issued w w')
       = map (sqlite_update_call table_name) data_list ++ [Commit]).
Proof.
  split; [|split; [|split]].
  - exact sqlite_update_read.
  - exact pg_update_read.
  - intros E drv table_name data_list batch_size w H.
    apply pg_mass_update_calls. exact H.
  - intros E drv table_name data_list batch_size w H.
    apply sqlite_mass_update_calls. exact H.
Qed.

(** C3 as stated fails on the pooled backend: the WHERE value is bound
    first and the SET placeholder is [$2]. *)
Lemma pg_update_binds_where_first :
  let data := UpdateSpec [("id", VInt 1)] [("name", VStr "John")] in
  let q := fst (PostgresHandler.build_update_query "t" data) in
  let args := snd (PostgresHandler.build_update_query "t" data) in
  args = [VInt 1; VStr "John"] /\
  args <> values (update data) ++ values (where_ data) /\
  bindings q = [("name", 2); ("id", 1)].
Proof.
  cbv zeta. repeat split; try reflexivity. discriminate.
Qed.

(** C5 (amended).  On both backends count builds the row-count SELECT over
    the table, then, when the Condition is not empty, a
    WHERE clause that AND-joins one equality placeholder per column of the
    Condition, the null-valued columns included, and then, when some column
    is null-valued, [ OR <column> IS NULL] for the first such column only.
    The statement has no parenthesis. *)
Theorem count_query_shape :
  (forall table_name (d : dict),
     let q := fst (PostgresHandler.build_count_query table_name d) in
     q = [Txt "SELECT COUNT(*) FROM "; Name table_name]
           ++ (if truthy d
               then Txt " WHERE " :: join [Txt " AND "] (eq_atoms 1 (keys d))
               else [])
           ++ null_part d /\
     map fst (bindings q) = keys d /\
     null_tests q = first_null d /\
     incl (txts q) ["SELECT COUNT(*) FROM "; " WHERE "; " AND "; " = "; " OR "; " IS NULL"]) /\
  (forall table_name (d : dict),
     let q := fst (SqliteHandler.build_count_query table_name d) in
     q = [Txt "SELECT COUNT(*) FROM "; Name table_name]
           ++ (if truthy d
               then Txt " WHERE " :: join [Txt " AND "] (sq_atoms (keys d))
               else [])
           ++ null_part d /\
     map fst (bindings (number_qmarks 1 q)) = keys d /\
     null_tests q = first_null d /\
     incl (txts q) ["SELECT COUNT(*) FROM "; " WHERE "; " AND "; " = "; " OR "; " IS NULL"]).
Proof.
  assert (Htxt : forall table_name d,
             incl (txts ([Txt "SELECT COUNT(*) FROM "; Name table_name]
                           ++ (if truthy d
                               then Txt " WHERE "
                                    :: join [Txt " AND "] (eq_atoms 1 (keys d))
                               else [])
                           ++ null_part d))
                  ["SELECT COUNT(*) FROM "; " WHERE "; " AND "; " = "; " OR "; " IS NULL"]).
  { intros table_name d. rewrite !txts_app.
    destruct (null_part_read d) as (_ & _ & _ & _ & Hn & _).
    apply incl_app; [|apply incl_app].
    - intros x [<-|[]]. now left.
    - intros x Hx. apply flat_where_txts in Hx. simpl in *. tauto.
    - intros x Hx. apply Hn in Hx. simpl in *. tauto. }
  split; intros table_name d q; subst q.
  - destruct (pg_count_read table_name d) as (_ & _ & _ & H4 & H5).
    rewrite pg_count_shape in *. cbn [fst] in *. auto.
  - destruct (sqlite_count_read table_name d) as (_ & _ & _ & H4 & H5).
    rewrite sqlite_count_shape in *. cbn [fst] in *.
    repeat split; trivial.
    rewrite <- (txts_number_qmarks 1).
    destruct (null_part_read d) as (_ & _ & _ & _ & _ & H6 & H7).
    rewrite flat_where_numbered; auto.
Qed.

(** C5 as stated fails: the null-valued column has an equality placeholder
    in the WHERE clause too. *)
Lemma count_tests_null_column :
  let d := [("a", VInt 1); ("b", VNone)] in
  let q := fst (PostgresHandler.build_count_query "t" d) in
  render q = "SELECT COUNT(*) FROM t WHERE a = $1 AND b = $2 OR b IS NULL" /\
  map fst (bindings q) = ["a"; "b"] /\
  map fst (bindings q) <> keys (filter not_null d).
Proof.
  cbv zeta. repeat split; try reflexivity. discriminate.
Qed.

Lemma select_base_txts (table_name : string) (find_data : list string) :
  incl (txts (select_base table_name find_data)) ["SELECT "; ", "; " FROM "].
Proof.
  unfold select_base. rewrite !txts_app.
  apply incl_app; [|apply incl_app].
  - intros x [<-|[]]. now left.
  - apply txts_join.
    + intros x [<-|[]]. right. now left.
    + apply Forall_forall. intros p Hp. apply in_map_iff in Hp as (c & <- & _).
      intros x [].
  - intros x [<-|[]]. right. right. now left.
Qed.

Lemma where_clause_txts (n : nat) (d : dict) :
  incl (txts (PostgresHandler.where_clause_of n d)) [" AND "; " = "; " IS NULL"].
Proof.
  rewrite where_clause_of_eq. apply txts_join.
  - intros x [<-|[]]. now left.
  - eapply Forall_impl; [|apply cond_atoms_txts].
    intros p Hp x Hx. apply Hp in Hx. simpl in *. tauto.
Qed.

Lemma where_part_txts (n : nat) (l : list dict) :
  incl (txts (where_part (sel_clauses n l)))
       [" WHERE "; " OR "; "("; ")"; " AND "; " = "; " IS NULL"].
Proof.
  unfold where_part. destruct (truthy (sel_clauses n l)); [|intros x []].
  cbn [txts]. apply incl_cons; [now left|].
  apply txts_join.
  - intros x [<-|[]]. right. now left.
  - apply Forall_forall. intros p Hp. apply in_map_iff in Hp as (c & <- & Hc).
    unfold paren. rewrite !txts_app.
    assert (Hw : incl (txts c) [" AND "; " = "; " IS NULL"]).
    { revert n Hc. induction l as [|d l IH]; intros n Hc; [destruct Hc|].
      simpl in Hc. destruct (truthy d); [destruct Hc as [<-|Hc]|]; eauto.
      apply where_clause_txts. }
    intros x Hx. apply in_app_or in Hx as [[<-|[]]|Hx]; [simpl; tauto|].
    apply in_app_or in Hx as [Hx|[<-|[]]]; [|simpl; tauto].
    apply Hw in Hx. simpl in *. tauto.
Qed.

Lemma pg_select_limit (table_name : string) (find_data : list string)
      (l : list dict) (batch_size : Z) :
  let q := fst (PostgresHandler.build_select_query table_name find_data l batch_size) in
  (In (Txt " LIMIT ") q <-> batch_size <> 0%Z /\ existsb truthy l = true) /\
  (In (Txt " WHERE ") q <-> existsb truthy l = true) /\
  exists w,
    q = select_base table_name find_data ++ w
          ++ (if existsb truthy l && negb (batch_size =? 0)%Z
              then [Txt " LIMIT "; Num batch_size] else []) /\
    truthy w = existsb truthy l.
Proof.
  intros q. subst q. rewrite pg_select_shape. cbn [fst].
  pose proof (select_base_txts table_name find_data) as Hb.
  pose proof (where_part_txts 0 l) as Hw.
  pose proof (sel_clauses_truthy 0 l) as Ht.
  set (base := select_base table_name find_data) in *.
  set (wcs := sel_clauses 0 l) in *.
  assert (Hno : forall s, In (Txt s) (base ++ where_part wcs) ->
                          In s ["SELECT "; ", "; " FROM "; " WHERE "; " OR "; "("; ")";
                                " AND "; " = "; " IS NULL"]).
  { intros s Hs. apply in_txts in Hs. rewrite txts_app in Hs.
    apply in_app_or in Hs as [Hs|Hs]; [apply Hb in Hs|apply Hw in Hs];
      simpl in *; tauto. }
  unfold limit_part. rewrite Ht.
  split; [|split].
  - rewrite app_assoc. split.
    + intros H. apply in_app_or in H as [H|H].
      * apply Hno in H. simpl in H.
        repeat (destruct H as [H|H]; [discriminate|]). destruct H.
      * destruct (existsb truthy l); [|destruct H].
        destruct (Z.eqb_spec batch_size 0); [destruct H|]. auto.
    + intros [Hbs Hl]. apply in_or_app. right. rewrite Hl.
      destruct (Z.eqb_spec batch_size 0); [contradiction|]. now left.
  - split.
    + intros H. destruct (existsb truthy l) eqn:Hl; [reflexivity|].
      unfold where_part in H. rewrite Ht in H. cbn [andb app] in H.
      rewrite app_nil_r in H. apply in_txts, Hb in H. simpl in H.
      repeat (destruct H as [H|H]; [discriminate|]). destruct H.
    + intros Hl. apply in_or_app. right. apply in_or_app. left.
      unfold where_part. rewrite Ht, Hl. now left.
  - exists (where_part wcs). split; [reflexivity|].
    unfold where_part. rewrite Ht. now destruct (existsb truthy l).
Qed.

(** C6.  On both backends the query of select ends in [LIMIT <batch_size>]
    exactly when the batch size is not zero and the ConditionSet has a
    non-empty Condition; it has a WHERE clause exactly when the ConditionSet
    has a non-empty Condition; an empty ConditionSet, or one of empty
    Conditions only, leaves the bare SELECT, with neither clause. *)
Theorem select_limit_and_where :
  (forall table_name find_data (l : list dict) batch_size,
     let q := fst (PostgresHandler.build_select_query table_name find_data l batch_size) in
     (In (Txt " LIMIT ") q <-> batch_size <> 0%Z /\ existsb truthy l = true) /\
     (In (Txt " WHERE ") q <-> existsb truthy l = true) /\
     exists w,
       q = select_base table_name find_data ++ w
             ++ (if existsb truthy l && negb (batch_size =? 0)%Z
                 then [Txt " LIMIT "; Num batch_size] else []) /\
       truthy w = existsb truthy l) /\
  (forall table_name find_data (l : list dict) batch_size,
     let q := fst (SqliteHandler.build_select_query table_name find_data l batch_size) in
     (In (Txt " LIMIT ") q <-> batch_size <> 0%Z /\ existsb truthy l = true) /\
     (In (Txt " WHERE ") q <-> existsb truthy l = true) /\
     exists w,
       q = select_base table_name find_data ++ w
             ++ (if existsb truthy l && negb (batch_size =? 0)%Z
                 then [Txt " LIMIT "; Num batch_size] else []) /\
       truthy w = existsb truthy l).
Proof.
  split; intros table_name find_data l batch_size q; subst q.
  - apply pg_select_limit.
  - rewrite sqlite_select_erased. cbn [fst].
    destruct (pg_select_limit table_name find_data l batch_size)
      as (H1 & H2 & w & Hq & Hw).
    rewrite !in_txt_erase. split; [exact H1|]. split; [exact H2|].
    exists (erase w). split.
    + rewrite Hq, !erase_app, erase_select_base.
      destruct (_ && _); reflexivity.
    + unfold erase. now rewrite truthy_map.
Qed.

(** ** The claims about the operations *)

Ltac unfold_m :=
  unfold bind, try_except, finally, connect, close, driver_call, logger_info,
    logger_error, ret, raise, lift in *.



(** A loop of [executemany] steps whose rows may be missing a column: the
    log is untouched, and a failed call ends the loop with its exception. *)
Lemma for_each_rows {E I : Type} (g : I -> exn + list (list pyval))
      (mk : list (list pyval) -> call)
      (run : list (list pyval) -> E -> (exn + unit) * E)
      (l : list I) (w : world E) r w' :
  for_each l (fun i => bind (lift (g i)) (fun values => driver_call (mk values) (run values))) w
  = (r, w') ->
  log w' = log w /\ handle w' = handle w /\
  exists tr, sent w' = sent w ++ tr /\
             forall c e, In (c, Some e) tr -> r = Raise e.
Proof.
  revert w; induction l as [|i l IH]; intros w H; simpl in H.
  - injection H as <- <-. repeat split. exists []. rewrite app_nil_r.
    split; [reflexivity|]. intros c e [].
  - unfold bind at 1 in H. unfold bind at 1 in H.
    destruct (g i) as [x|values]; simpl in H.
    + injection H as <- <-. repeat split. exists []. rewrite app_nil_r.
      split; [reflexivity|]. intros c e [].
    + unfold driver_call at 1 in H.
      destruct (run values (engine w)) as [[x|[]] eng].
      * injection H as <- <-. repeat split. eexists. split; [reflexivity|].
        intros c e [Hc|[]]. now injection Hc as _ ->.
      * apply IH in H. cbn [log handle sent] in H.
        destruct H as (Hl & Hh & tr & Hs & Htr). repeat split; trivial.
        exists ((mk values, None) :: tr). split.
        -- rewrite Hs, <- app_assoc. reflexivity.
        -- intros c e [Hc|Hc]; [discriminate|eauto].
Qed.

Section PgFailures.

Context {E : Type} (drv : PostgresHandler.driver E).







End PgFailures.


Section SqliteFailures.

Context {E : Type} (drv : SqliteHandler.driver E).







End SqliteFailures.



(** C9 (amended).  On the embedded backend the connection handle is closed
    and reset to the not-connected state after createTable, bulk update, bulk
    insert, select, delete and count (with arguments that pass its
    validation), whatever the driver did.  On the pooled backend the pool is
    closed after select, and it is left open after count. *)
Theorem connection_lifecycle :
  (forall (E : Type) (drv : SqliteHandler.driver E) (w : world E),
     (forall info, handle (snd (SqliteHandler.create_tables drv info w)) = false) /\
     (forall table_name data_list batch_size,
        handle (snd (SqliteHandler.mass_update drv table_name data_list batch_size w))
        = false) /\
     (forall table_name records batch_size,
        handle (snd (SqliteHandler.insert_into_table_bulk
                       drv table_name records batch_size w)) = false) /\
     (forall table_name params batch_size,
        handle (snd (SqliteHandler.select_data drv table_name params batch_size w))
        = false) /\
     (forall table_name d,
        handle (snd (SqliteHandler.delete_data drv table_name d w)) = false) /\
     (forall a table_name d,
        handle (snd (SqliteHandler.count_records drv (String a table_name) (PDict d) w))
        = false)) /\
  (forall (E : Type) (drv : PostgresHandler.driver E) (w : world E),
     (forall table_name params batch_size,
        handle (snd (PostgresHandler.select_data drv table_name params batch_size w))
        = false) /\
     (forall a table_name d,
        handle (snd (PostgresHandler.count_records drv (String a table_name) (PDict d) w))
        = true)).
Proof.
  split; intros E drv w.
  - repeat split; intros.
    + apply connect_finally_close_handle.
    + apply connect_finally_close_handle.
    + apply connect_finally_close_handle.
    + unfold SqliteHandler.select_data.
      destruct (SqliteHandler.build_select_query _ _ _ _) as [q args].
      apply connect_finally_close_handle.
    + apply finally_close_handle.
    + apply connect_finally_close_handle.
  - split; intros.
    + unfold PostgresHandler.select_data.
      destruct (PostgresHandler.build_select_query _ _ _ _) as [q args].
      apply connect_finally_close_handle.
    + unfold PostgresHandler.count_records.
      destruct (PostgresHandler.build_count_query _ d) as [q args].
      rewrite bind_run, connect_run. unfold_m. cbn [engine].
      destruct (PostgresHandler.fetchval drv _ _ _) as [[x|v] eng]; reflexivity.
Qed.

(** C9 as stated fails on the pooled backend: select leaves the pool closed
    and count leaves it open. *)
Lemma pooled_lifecycle_reversed :
  handle (snd (PostgresHandler.select_data accepting_pg "t" (QueryParams None None) 1000
                                           disconnected)) = false /\
  handle (snd (PostgresHandler.count_records accepting_pg "t" (PDict []) disconnected))
  = true.
Proof. split; reflexivity. Qed.

(** deleteAll of the embedded backend has no [finally]: it leaves the
    connection open. *)
Lemma sqlite_delete_all_stays_connected {E : Type} (drv : SqliteHandler.driver E)
      table_name (w : world E) :
  handle (snd (SqliteHandler.delete_all_data_from_table drv table_name w)) = true.
Proof.
  unfold SqliteHandler.delete_all_data_from_table.
  rewrite bind_run, connect_run. unfold_m. cbn [engine].
  destruct (SqliteHandler.execute drv _ _ _) as [[x|s] eng]; [reflexivity|].
  cbn [engine]. destruct (SqliteHandler.commit drv _) as [[x|[]] eng']; reflexivity.
Qed.

(** C10.  With a non-empty table name and a mapping condition, count of the
    embedded backend always raises: the statement's own failure, or else the
    missing [fetchval] of the cursor.  The failure is logged and the
    connection is closed on exit. *)
Theorem sqlite_count_always_raises {E : Type} (drv : SqliteHandler.driver E)
        (table_name : string) (d : dict) (w : world E) :
  table_name <> "" ->
  exists e w',
    SqliteHandler.count_records drv table_name (PDict d) w = (Raise e, w') /\
    (e = SqliteHandler.no_fetchval \/ exists c, issued w w' = [(c, Some e)]) /\
    In (LError ("Error counting records: " ^^ str_exn e)) (log w') /\
    handle w' = false.
Proof.
  intros Hname. destruct table_name as [|a s]; [contradiction|].
  unfold SqliteHandler.count_records.
  destruct (SqliteHandler.build_count_query _ d) as [q args].
  rewrite bind_run, connect_run.
  match goal with |- context [finally ?m close ?w0] =>
    destruct (m w0) as [r1 w1] eqn:Hm; rewrite (finally_close_eq _ _ _ _ Hm)
  end.
  unfold_m. cbn [engine] in Hm.
  destruct (SqliteHandler.execute drv _ _ _) as [[x|rows] eng];
    injection Hm as <- <-; do 2 eexists; (split; [reflexivity|]);
    rewrite issued_closed; cbn [log handle].
  - split; [right; eexists; apply issued_app; reflexivity|].
    split; [apply in_or_app; right; now left|reflexivity].
  - split; [now left|].
    split; [apply in_or_app; right; now left|reflexivity].
Qed.

Lemma sqlite_count_always_raises_witness :
  "t" <> "" /\
  exists e w',
    SqliteHandler.count_records accepting_sqlite "t" (PDict [("id", VInt 1)]) disconnected
    = (Raise e, w') /\
    (e = SqliteHandler.no_fetchval \/ exists c, issued disconnected w' = [(c, Some e)]) /\
    In (LError ("Error counting records: " ^^ str_exn e)) (log w') /\
    handle w' = false.
Proof.
  assert (H : "t" <> "") by discriminate.
  split; [exact H|].
  exact (sqlite_count_always_raises accepting_sqlite "t" [("id", VInt 1)] disconnected H).
Defined.

(** The mapper of the embedded backend gives one Record per row, in the
    order of the rows, keyed by the requested columns. *)
Lemma sqlite_map_rows_length (find_data : list string) (result : list SqliteHandler.row) :
  forallb SqliteHandler.is_tuple result = true ->
  List.length (SqliteHandler.map_rows find_data result) = List.length result /\
  forall i r, nth_error result i = Some r ->
    nth_error (SqliteHandler.map_rows find_data result) i
    = Some (dict_of (zip find_data (SqliteHandler.cells_of r))).
Proof.
  intros H. unfold SqliteHandler.map_rows. rewrite H. split.
  - apply length_map.
  - intros i r Hr. now rewrite nth_error_map, Hr.
Qed.

Lemma sqlite_select_maps_rows {E : Type} (drv : SqliteHandler.driver E)
      table_name columns conds batch_size (w : world E) rows w' :
  SqliteHandler.select_data drv table_name (QueryParams (Some columns) conds) batch_size w
  = (Ok rows, w') ->
  exists result, rows = SqliteHandler.map_rows columns result.
Proof.
  intros H. unfold SqliteHandler.select_data in H. cbn [find_data] in H.
  destruct (SqliteHandler.build_select_query _ _ _ _) as [q args].
  rewrite bind_run, connect_run in H.
  match type of H with finally ?m close ?w0 = _ =>
    destruct (m w0) as [r1 w1] eqn:Hm; rewrite (finally_close_eq _ _ _ _ Hm) in H
  end.
  injection H as -> _.
  unfold_m. cbn [engine] in Hm.
  destruct (SqliteHandler.execute drv _ _ _) as [[x|result] eng]; [discriminate|].
  exists result. unfold SqliteHandler.map_rows.
  destruct (forallb SqliteHandler.is_tuple result); now injection Hm as <- _.
Qed.

(** C8.  At the default column list, the star, the mapper of the embedded
    backend zips the one-element list with the row: the Record has the single
    key of the star and holds the first cell only, not the table's columns.
    The pooled backend, on the same query, returns the Record keyed by the
    columns of the row. *)
Lemma sqlite_star_keys :
  SqliteHandler.map_rows ["*"] [SqliteHandler.TupleRow [VInt 1; VStr "John"; VInt 25]]
  = [[("*", VInt 1)]] /\
  fst (SqliteHandler.select_data accepting_sqlite "t" (QueryParams None None) 1000
                                 disconnected)
  = Ok [[("*", VInt 1)]] /\
  fst (PostgresHandler.select_data accepting_pg "t" (QueryParams None None) 1000
                                   disconnected)
  = Ok [[("id", VInt 1); ("name", VStr "John"); ("age", VInt 25)]].
Proof. repeat split; reflexivity. Qed.




Lemma update_binding_order_witness :
  (1 <= 1000)%Z /\
  exists w',
    SqliteHandler.mass_update
      accepting_sqlite "t"
      [UpdateSpec [("id", VInt 1)] [("name", VStr "John"); ("age", VInt 25)]]
      1000 disconnected = (Ok tt, w') /\
    map fst (issued disconnected w')
    = map (sqlite_update_call "t")
          [UpdateSpec [("id", VInt 1)] [("name", VStr "John"); ("age", VInt 25)]]
        ++ [Commit].
Proof.
  assert (H : (1 <= 1000)%Z) by lia.
  split; [exact H|].
  exact (proj2 (proj2 (proj2 update_binding_order)) unit accepting_sqlite "t" _ 1000%Z
               disconnected H).
Defined.

(** * Further properties of the handlers *)

(** ** Argument validation of [count_records] *)

(** An empty table name or a condition that is not a dictionary makes count
    raise [ValueError] at once, on both backends: nothing is connected,
    logged or sent.  With a table name and a dictionary, count sends exactly
    one statement, the one of its builder with all the values of the
    condition, whatever the driver answers. *)
Theorem count_validates_arguments :
  (forall (E : Type) (drv : PostgresHandler.driver E) (w : world E) table_name cond,
     (table_name = "" \/ (exists v, cond = PVal v) ->
      PostgresHandler.count_records drv table_name cond w
      = (Raise (Exn "ValueError" "Invalid parameters"), w)) /\
     (forall d, table_name <> "" -> cond = PDict d ->
        map fst (issued w (snd (PostgresHandler.count_records drv table_name cond w)))
        = [FetchVal (render (fst (PostgresHandler.build_count_query table_name d)))
                    (values d)])) /\
  (forall (E : Type) (drv : SqliteHandler.driver E) (w : world E) table_name cond,
     (table_name = "" \/ (exists v, cond = PVal v) ->
      SqliteHandler.count_records drv table_name cond w
      = (Raise (Exn "ValueError" "Invalid parameters"), w)) /\
     (forall d, table_name <> "" -> cond = PDict d ->
        map fst (issued w (snd (SqliteHandler.count_records drv table_name cond w)))
        = [Execute (render (fst (SqliteHandler.build_count_query table_name d)))
                   (values d)])).
Proof.
  split; intros E drv w tn cond; split.
  - intros [->|[v ->]]; [reflexivity|destruct tn; reflexivity].
  - intros d Htn ->. destruct tn as [|a tn]; [contradiction|].
    unfold PostgresHandler.count_records.
    assert (Hv : snd (PostgresHandler.build_count_query (String a tn) d) = values d)
      by reflexivity.
    destruct (PostgresHandler.build_count_query (String a tn) d) as [q args].
    cbn [fst snd] in *. subst args.
    rewrite bind_run, connect_run, try_except_run, bind_run.
    unfold driver_call. cbn [engine].
    destruct (PostgresHandler.fetchval drv _ _ _) as [[x|v] eng];
      unfold_m; unfold issued; cbn [snd sent]; now rewrite skipn_app_length.
  - intros [->|[v ->]]; [reflexivity|destruct tn; reflexivity].
  - intros d Htn ->. destruct tn as [|a tn]; [contradiction|].
    unfold SqliteHandler.count_records.
    assert (Hv : snd (SqliteHandler.build_count_query (String a tn) d) = values d)
      by reflexivity.
    destruct (SqliteHandler.build_count_query (String a tn) d) as [q args].
    cbn [fst snd] in *. subst args.
    rewrite bind_run, connect_run.
    match goal with |- context [finally ?m close ?w0] =>
      destruct (m w0) as [r1 w1] eqn:Hm; rewrite (finally_close_eq _ _ _ _ Hm)
    end.
    cbn [snd]. rewrite issued_closed.
    rewrite try_except_run, bind_run in Hm.
    unfold driver_call in Hm. cbn [engine] in Hm.
    destruct (SqliteHandler.execute drv _ _ _) as [[x|rows] eng];
      unfold_m; injection Hm as <- <-; unfold issued; cbn [sent];
      now rewrite skipn_app_length.
Qed.

Lemma count_validates_arguments_witness :
  "users" <> "" /\
  map fst (issued disconnected
             (snd (PostgresHandler.count_records accepting_pg "users"
                     (PDict [("age", VInt 30)]) disconnected)))
  = [FetchVal "SELECT COUNT(*) FROM users WHERE age = $1" [VInt 30]].
Proof.
  assert (H : "users" <> "") by discriminate.
  split; [exact H|].
  exact (proj2 (proj1 count_validates_arguments unit accepting_pg disconnected "users"
                      (PDict [("age", VInt 30)]))
               [("age", VInt 30)] H eq_refl).
Defined.

(** ** The pool of the pooled backend *)

(** A loop whose steps always return and keep the handle keeps it too. *)
Lemma for_each_keeps_handle {E A : Type} (body : A -> M E unit) (l : list A) :
  (forall x w, exists w1, body x w = (Ok tt, w1) /\ handle w1 = handle w) ->
  forall w, exists w', for_each l body w = (Ok tt, w') /\ handle w' = handle w.
Proof.
  intros Hb. induction l as [|x l IH]; intros w; simpl.
  - exists w. split; reflexivity.
  - destruct (Hb x w) as (w1 & H1 & Hh1). destruct (IH w1) as (w' & H' & Hh').
    exists w'. unfold bind. rewrite H1, H'. split; [reflexivity|congruence].
Qed.

Lemma pg_update_step_keeps_handle {E : Type} (drv : PostgresHandler.driver E)
      table_name data (w : world E) :
  exists w1,
    (let '(query, data_values) := PostgresHandler.build_update_query table_name data in
     try_except
       (_ <- driver_call (Execute (render query) data_values)
                         (PostgresHandler.execute drv (render query) data_values) ;;
        ret tt)
       (fun e => logger_error ("Error updating records: " ^^ str_exn e))) w
    = (Ok tt, w1) /\ handle w1 = handle w.
Proof.
  destruct (PostgresHandler.build_update_query table_name data) as [q a].
  unfold_m.
  destruct (PostgresHandler.execute drv (render q) a (engine w)) as [[e|s] eng];
    eexists; split; reflexivity.
Qed.

(** Apart from select, no operation of the pooled backend closes the pool:
    after createTable, bulk insert, bulk update, delete and deleteAll the
    pool is connected, whatever the batch size is and whatever the driver
    answered. *)
Theorem pg_pool_stays_open {E : Type} (drv : PostgresHandler.driver E) (w : world E) :
  (forall info, handle (snd (PostgresHandler.create_tables drv info w)) = true) /\
  (forall table_name records batch_size,
     handle (snd (PostgresHandler.insert_into_table_bulk
                    drv table_name records batch_size w)) = true) /\
  (forall table_name data_list batch_size,
     handle (snd (PostgresHandler.mass_update drv table_name data_list batch_size w))
     = true) /\
  (forall table_name d,
     handle (snd (PostgresHandler.delete_data drv table_name d w)) = true) /\
  (forall table_name,
     handle (snd (PostgresHandler.delete_all_data_from_table drv table_name w)) = true).
Proof.
  split; [|split; [|split; [|split]]].
  - intros info. unfold PostgresHandler.create_tables.
    rewrite bind_run, connect_run. unfold_m. cbn [engine].
    destruct (PostgresHandler.execute drv _ _ _) as [[x|s] eng]; reflexivity.
  - intros tn records bs. unfold PostgresHandler.insert_into_table_bulk.
    rewrite bind_run, connect_run, try_except_run, bind_run.
    destruct (range 0 (len records) bs) as [x|starts]; simpl lift.
    + reflexivity.
    + unfold ret at 1. rewrite bind_run.
      match goal with |- context [for_each starts ?f ?w0] =>
        destruct (for_each starts f w0) as [[[]|x] w1] eqn:Hloop end;
        apply for_each_rows in Hloop; destruct Hloop as (_ & Hh & _);
        unfold_m; cbn [snd handle] in *; exact Hh.
  - intros tn data_list bs. unfold PostgresHandler.mass_update.
    rewrite bind_run, connect_run, bind_run.
    destruct (range 0 (len data_list) bs) as [x|starts]; simpl lift.
    + reflexivity.
    + unfold ret at 1. cbv beta iota zeta.
      match goal with |- context [for_each starts ?f ?w0] =>
        destruct (for_each_keeps_handle f starts) with (w := w0) as (w' & Hf & Hh)
      end.
      * intros i w1. apply for_each_keeps_handle.
        intros data w2. apply pg_update_step_keeps_handle.
      * rewrite Hf. exact Hh.
  - intros tn d. unfold PostgresHandler.delete_data.
    destruct (PostgresHandler.build_delete_query tn d) as [q args].
    rewrite try_except_run, bind_run, connect_run. unfold_m. cbn [engine].
    destruct (PostgresHandler.execute drv _ _ _) as [[x|s] eng]; reflexivity.
  - intros tn. unfold PostgresHandler.delete_all_data_from_table.
    rewrite bind_run, connect_run. unfold_m. cbn [engine].
    destruct (PostgresHandler.execute drv _ _ _) as [[x|s] eng]; reflexivity.
Qed.

(** ** Batch sizes that are not positive, and inputs that fit one batch *)

Lemma range_negative_step (n : nat) (step : Z) :
  (step < 0)%Z -> range 0 (Z.of_nat n) step = inr [].
Proof.
  intros H. unfold range, range_length.
  destruct (Z.eqb_spec step 0); [lia|].
  destruct (Z.ltb_spec 0 step); [lia|].
  destruct (Z.ltb_spec (Z.of_nat n) 0); [lia|]. reflexivity.
Qed.

Lemma range_zero_step (start stop : Z) :
  range start stop 0 = inl (Exn "ValueError" "range() arg 3 must not be zero").
Proof. reflexivity. Qed.

(** A batch size of zero: [range] raises [ValueError] before any statement.
    Bulk insert returns it as an error string, on both backends; bulk update
    raises it on the pooled backend, and logs it and returns on the embedded
    one. *)
Theorem zero_batch_size :
  (forall (E : Type) (drv : PostgresHandler.driver E) (w : world E) table_name,
     (forall records,
        let run := PostgresHandler.insert_into_table_bulk drv table_name records 0 w in
        fst run = Ok "Error adding records: range() arg 3 must not be zero" /\
        issued w (snd run) = []) /\
     (forall data_list,
        let run := PostgresHandler.mass_update drv table_name data_list 0 w in
        fst run = Raise (Exn "ValueError" "range() arg 3 must not be zero") /\
        issued w (snd run) = [] /\ log (snd run) = log w)) /\
  (forall (E : Type) (drv : SqliteHandler.driver E) (w : world E) table_name,
     (forall records,
        let run := SqliteHandler.insert_into_table_bulk drv table_name records 0 w in
        fst run = Ok "Error adding records: range() arg 3 must not be zero" /\
        issued w (snd run) = []) /\
     (forall data_list,
        let run := SqliteHandler.mass_update drv table_name data_list 0 w in
        fst run = Ok tt /\
        issued w (snd run) = [] /\
        log (snd run)
        = log w ++ [LError "Error updating records: range() arg 3 must not be zero"])).
Proof.
  split; intros E drv w tn; split.
  - intros records run. subst run. unfold PostgresHandler.insert_into_table_bulk.
    rewrite bind_run, connect_run, try_except_run, bind_run, range_zero_step.
    split; [reflexivity|]. unfold_m. cbn [snd]. apply issued_app. cbn [sent].
    now rewrite app_nil_r.
  - intros data_list run. subst run. unfold PostgresHandler.mass_update.
    rewrite bind_run, connect_run, bind_run, range_zero_step.
    split; [reflexivity|]. split; [|reflexivity].
    unfold_m. cbn [snd]. apply issued_app. cbn [sent]. now rewrite app_nil_r.
  - intros records run. subst run. unfold SqliteHandler.insert_into_table_bulk.
    rewrite bind_run, connect_run.
    erewrite finally_close_eq
      by (rewrite try_except_run, bind_run, range_zero_step; reflexivity).
    split; [reflexivity|]. cbn [snd]. rewrite issued_closed.
    apply issued_app. cbn [sent]. now rewrite app_nil_r.
  - intros data_list run. subst run. unfold SqliteHandler.mass_update.
    rewrite bind_run, connect_run.
    erewrite finally_close_eq
      by (rewrite try_except_run, bind_run, range_zero_step; reflexivity).
    split; [reflexivity|]. cbn [snd]. rewrite issued_closed.
    split; [|reflexivity]. apply issued_app. cbn [sent]. now rewrite app_nil_r.
Qed.

(** A negative batch size: [range] is empty, so no statement is executed.
    Bulk insert of the pooled backend still logs the records as added and
    returns "ok"; the embedded backend only commits.  Bulk update executes
    nothing either. *)
Theorem negative_batch_size (batch_size : Z) :
  (batch_size < 0)%Z ->
  (forall (E : Type) (drv : PostgresHandler.driver E) (w : world E) table_name,
     (forall records,
        let run := PostgresHandler.insert_into_table_bulk
                     drv table_name records batch_size w in
        fst run = Ok "ok" /\ issued w (snd run) = [] /\
        log (snd run)
        = log w ++ [LInfo (str_of_nat (List.length records)
                             ^^ " records added to the table " ^^ table_name)]) /\
     (forall data_list,
        let run := PostgresHandler.mass_update drv table_name data_list batch_size w in
        fst run = Ok tt /\ issued w (snd run) = [])) /\
  (forall (E : Type) (drv : SqliteHandler.driver E) (w : world E) table_name,
     (forall records,
        map fst (issued w (snd (SqliteHandler.insert_into_table_bulk
                                  drv table_name records batch_size w)))
        = [Commit]) /\
     (forall data_list,
        let run := SqliteHandler.mass_update drv table_name data_list batch_size w in
        fst run = Ok tt /\ map fst (issued w (snd run)) = [Commit])).
Proof.
  intros Hbs. split; intros E drv w tn; split.
  - intros records run. subst run. unfold PostgresHandler.insert_into_table_bulk.
    rewrite bind_run, connect_run, try_except_run, bind_run.
    unfold len. rewrite range_negative_step by assumption.
    unfold_m. cbn [for_each fst snd log].
    repeat split. apply issued_app. cbn [sent]. now rewrite app_nil_r.
  - intros data_list run. subst run. unfold PostgresHandler.mass_update.
    rewrite bind_run, connect_run, bind_run.
    unfold len. rewrite range_negative_step by assumption.
    unfold_m. cbn [for_each fst snd].
    split; [reflexivity|]. apply issued_app. cbn [sent]. now rewrite app_nil_r.
  - intros records. unfold SqliteHandler.insert_into_table_bulk.
    rewrite bind_run, connect_run.
    match goal with |- context [finally ?m close ?w0] =>
      destruct (m w0) as [r1 w1] eqn:Hm; rewrite (finally_close_eq _ _ _ _ Hm)
    end.
    cbn [snd]. rewrite issued_closed.
    rewrite try_except_run, bind_run in Hm.
    unfold len in Hm. rewrite range_negative_step in Hm by assumption.
    unfold_m. simpl in Hm.
    destruct (SqliteHandler.commit drv (engine w)) as [[x|[]] eng];
      injection Hm as <- <-; erewrite issued_app; try reflexivity.
    all: cbn [sent]; reflexivity.
  - intros data_list run. subst run. unfold SqliteHandler.mass_update.
    rewrite bind_run, connect_run.
    match goal with |- context [finally ?m close ?w0] =>
      destruct (m w0) as [r1 w1] eqn:Hm; rewrite (finally_close_eq _ _ _ _ Hm)
    end.
    cbn [fst snd]. rewrite issued_closed.
    rewrite try_except_run, bind_run in Hm.
    unfold len in Hm. rewrite range_negative_step in Hm by assumption.
    unfold_m. simpl in Hm.
    destruct (SqliteHandler.commit drv (engine w)) as [[x|[]] eng];
      injection Hm as <- <-; (split; [reflexivity|]);
      erewrite issued_app; try reflexivity.
    all: cbn [sent]; reflexivity.
Qed.

Lemma negative_batch_size_witness :
  (-1 < 0)%Z /\
  let run := PostgresHandler.insert_into_table_bulk accepting_pg "t" users (-1)
                                                    disconnected in
  fst run = Ok "ok" /\ issued disconnected (snd run) = [] /\
  log (snd run) = log disconnected ++ [LInfo "3 records added to the table t"].
Proof.
  assert (H : (-1 < 0)%Z) by lia.
  split; [exact H|].
  exact (proj1 (proj1 (negative_batch_size (-1) H) unit accepting_pg disconnected "t")
               users).
Defined.

Lemma batches_short {A : Type} (l : list A) (batch_size : Z) :
  (len l <= batch_size)%Z -> (1 <= batch_size)%Z ->
  batches l batch_size = inr (match l with [] => [] | _ :: _ => [l] end).
Proof.
  intros Hlen Hbs.
  destruct (batches_partition l batch_size Hbs) as (chunks & Hc & Hcat & Hn & _).
  rewrite Hc. f_equal. unfold len in *.
  destruct l as [|x l].
  - simpl in Hn. rewrite Z.div_small in Hn by lia.
    destruct chunks; [reflexivity|cbn [List.length] in Hn; lia].
  - assert (Hone : ((Z.of_nat (List.length (x :: l)) + batch_size - 1) / batch_size = 1)%Z).
    { cbn [List.length] in *. symmetry.
      apply Z.div_unique with (r := (Z.of_nat (S (List.length l)) - 1)%Z); lia. }
    rewrite Hone in Hn.
    destruct chunks as [|c [|c' cs]]; try (cbn [List.length] in Hn; lia).
    simpl in Hcat. rewrite app_nil_r in Hcat. now subst c.
Qed.

(** ** The rows of bulk insert *)

(** A bulk insert whose records fit one batch sends them in one call, with
    all the rows, whether the driver accepts it or not; an empty list sends
    nothing. *)
Theorem pg_insert_single_batch {E : Type} (drv : PostgresHandler.driver E)
        table_name records rows batch_size (w : world E) :
  (1 <= batch_size)%Z -> (len records <= batch_size)%Z ->
  rows_of (insert_columns records) records = inr rows ->
  let run := PostgresHandler.insert_into_table_bulk drv table_name records batch_size w in
  let query :=
    render (PostgresHandler.build_insert_query table_name (insert_columns records)) in
  map fst (issued w (snd run))
  = match records with [] => [] | _ :: _ => [ExecuteMany query rows] end.
Proof.
  intros Hbs Hlen Hrows run query.
  assert (Hlen' : (len rows <= batch_size)%Z)
    by (unfold len in *; now rewrite (rows_of_length _ _ _ Hrows)).
  pose proof (batches_short rows batch_size Hlen' Hbs) as Hc.
  subst run. destruct (PostgresHandler.insert_into_table_bulk _ _ _ _ _) as [r w'] eqn:Hrun.
  destruct (pg_insert_calls drv _ _ _ _ _ _ _ _ Hbs Hrows Hc Hrun) as ((k & Hk) & Hok & Hno).
  fold query in Hk, Hok, Hno. cbn [snd].
  destruct records as [|rec records].
  - simpl in Hrows. injection Hrows as <-. rewrite Hk. now destruct k.
  - destruct rows as [|row rows'].
    { apply rows_of_length in Hrows. discriminate. }
    cbn [map] in Hk, Hok. destruct k as [|k].
    + cbn [firstn] in Hk.
      assert (Hi : issued w w' = []) by (destruct (issued w w'); [reflexivity|discriminate]).
      apply Hok, Hno. intros c e Hin. rewrite Hi in Hin. destruct Hin.
    + rewrite Hk. cbn [firstn]. now destruct k.
Qed.

Lemma pg_insert_single_batch_witness :
  (1 <= 1000)%Z /\ (len users <= 1000)%Z /\
  map fst (issued disconnected
             (snd (PostgresHandler.insert_into_table_bulk accepting_pg "t" users 1000
                                                          disconnected)))
  = [ExecuteMany
       (render (PostgresHandler.build_insert_query "t" (insert_columns users)))
       [[VInt 1; VStr "John"; VInt 25]; [VInt 2; VStr "Jane"; VInt 30];
        [VInt 3; VStr "Joe"; VInt 35]]].
Proof.
  assert (H1 : (1 <= 1000)%Z) by lia.
  assert (H2 : (len users <= 1000)%Z) by (vm_compute; discriminate).
  split; [exact H1|]. split; [exact H2|].
  exact (pg_insert_single_batch accepting_pg "t" users _ 1000 disconnected H1 H2 eq_refl).
Defined.

Lemma tuple_of_ok (record : dict) (columns : list string) vs :
  tuple_of record columns = inr vs ->
  Forall2 (fun c v => lookup c record = Some v) columns vs.
Proof.
  revert vs; induction columns as [|c cs IH]; intros vs H; simpl in H.
  - injection H as <-. constructor.
  - destruct (lookup c record) as [v|] eqn:Hl; [|discriminate].
    destruct (tuple_of record cs) as [e|vs']; [discriminate|].
    injection H as <-. constructor; auto.
Qed.


Lemma count_qm_marks {A : Type} (l : list A) :
  count_qm (join [Txt ", "] (map (fun _ => [Qm]) l)) = List.length l.
Proof.
  induction l as [|i l IH]; [reflexivity|].
  destruct l as [|j l]; [reflexivity|].
  change (join [Txt ", "] (map (fun _ : A => [Qm]) (i :: j :: l)))
    with ([Qm; Txt ", "] ++ join [Txt ", "] (map (fun _ : A => [Qm]) (j :: l))).
  rewrite count_qm_app, IH. reflexivity.
Qed.

(** The INSERT template has one placeholder per column, numbered from 1 on
    the pooled backend, and every row built for it holds, in the order of the
    columns, the value the record has under each column: a row has as many
    values as the template has placeholders. *)
Theorem insert_rows_fit_template (table_name : string) (columns : list string)
        (batch : list dict) rows :
  rows_of columns batch = inr rows ->
  placeholders (PostgresHandler.build_insert_query table_name columns)
  = seq 1 (List.length columns) /\
  count_qm (SqliteHandler.build_insert_query table_name columns) = List.length columns /\
  Forall2 (fun record row =>
             Forall2 (fun c v => lookup c record = Some v) columns row /\
             List.length row = List.length columns)
          batch rows.
Proof.
  intros H. split; [|split].
  - unfold PostgresHandler.build_insert_query.
    rewrite !placeholders_app, !placeholders_join. cbn [placeholders app].
    rewrite app_nil_r.
    assert (Hn : List.concat (map placeholders (map (fun c => [Name c]) columns)) = []).
    { clear. induction columns as [|c cs IH]; [reflexivity|exact IH]. }
    rewrite Hn. cbn [app]. rewrite map_map. cbn [placeholders].
    generalize (List.length columns). intros n.
    assert (Hs : forall s, List.concat (map (fun i => [i + 1]) (seq s n)) = seq (s + 1) n).
    { induction n as [|n IH]; intros s; [reflexivity|].
      cbn [seq map List.concat app]. now rewrite IH, !Nat.add_1_r. }
    apply Hs.
  - unfold SqliteHandler.build_insert_query.
    rewrite !count_qm_app, count_qm_marks, length_seq. cbn [count_qm].
    rewrite count_qm_join; trivial.
    + lia.
    + apply Forall_forall. intros p Hp. apply in_map_iff in Hp as (c & <- & _).
      reflexivity.
  - revert rows H. induction batch as [|record batch IH]; intros rows H; simpl in H.
    + injection H as <-. constructor.
    + destruct (tuple_of record columns) as [e|t] eqn:Ht; [discriminate|].
      destruct (rows_of columns batch) as [e|ts]; [discriminate|].
      injection H as <-. constructor; [|now apply IH].
      pose proof (tuple_of_ok _ _ _ Ht) as Hf. split; [exact Hf|].
      symmetry. eapply Forall2_length. exact Hf.
Qed.

Lemma insert_rows_fit_template_witness :
  rows_of (insert_columns users) users
  = inr [[VInt 1; VStr "John"; VInt 25]; [VInt 2; VStr "Jane"; VInt 30];
         [VInt 3; VStr "Joe"; VInt 35]] /\
  placeholders (PostgresHandler.build_insert_query "t" (insert_columns users))
  = seq 1 (List.length (insert_columns users)).
Proof.
  split; [reflexivity|].
  exact (proj1 (insert_rows_fit_template "t" (insert_columns users) users _ eq_refl)).
Defined.



(** ** What the operations return *)




Lemma for_each_rows_ok {E I : Type} (g : I -> exn + list (list pyval))
      (mk : list (list pyval) -> call)
      (run : list (list pyval) -> E -> (exn + unit) * E)
      (l : list I) (w w' : world E) :
  for_each l (fun i => bind (lift (g i)) (fun values => driver_call (mk values) (run values))) w
  = (Ok tt, w') ->
  forall i, In i l -> exists v, g i = inr v.
Proof.
  revert w; induction l as [|j l IH]; intros w H i Hin; [destruct Hin|].
  simpl in H. unfold bind at 1 in H. unfold bind at 1 in H.
  destruct (g j) as [x|values] eqn:Hg; simpl in H; [discriminate|].
  unfold driver_call at 1 in H.
  destruct (run values (engine w)) as [[x|[]] eng]; [discriminate|].
  destruct Hin as [<-|Hin]; [eauto|]. eapply IH; eassumption.
Qed.

Lemma rows_of_app (columns : list string) (a b : list dict) ra rb :
  rows_of columns a = inr ra -> rows_of columns b = inr rb ->
  rows_of columns (a ++ b) = inr (ra ++ rb).
Proof.
  revert ra; induction a as [|r a IH]; intros ra Ha Hb; simpl in *.
  - injection Ha as <-. exact Hb.
  - destruct (tuple_of r columns); [discriminate|].
    destruct (rows_of columns a) as [e|ts]; [discriminate|].
    injection Ha as <-. now rewrite (IH ts eq_refl Hb).
Qed.

Lemma rows_of_concat (columns : list string) (chunks : list (list dict)) :
  (forall c, In c chunks -> exists v, rows_of columns c = inr v) ->
  exists rows, rows_of columns (List.concat chunks) = inr rows.
Proof.
  induction chunks as [|c chunks IH]; intros H; simpl.
  - eexists. reflexivity.
  - destruct (H c (or_introl eq_refl)) as [v Hv].
    destruct IH as [rows Hrows]; [intros c' Hc'; apply H; now right|].
    eexists. apply rows_of_app; eassumption.
Qed.

(** If the chunk loop of bulk insert comes to its end, every record had
    every column. *)
Lemma insert_loop_complete {E : Type} (mk : list (list pyval) -> call)
      (run : list (list pyval) -> E -> (exn + unit) * E)
      (columns : list string) (records : list dict) (bs : Z) starts (w w' : world E) :
  (1 <= bs)%Z ->
  range 0 (len records) bs = inr starts ->
  for_each starts
    (fun i => bind (lift (rows_of columns (slice records i (i + bs))))
                   (fun values => driver_call (mk values) (run values))) w
  = (Ok tt, w') ->
  exists rows, rows_of columns records = inr rows.
Proof.
  intros Hbs Hr Hloop.
  destruct (batches_partition records bs Hbs) as (chunks & Hc & Hcat & _).
  unfold batches in Hc. rewrite Hr in Hc. injection Hc as <-.
  rewrite <- Hcat. apply rows_of_concat. intros c Hc.
  apply in_map_iff in Hc as (i & <- & Hi).
  exact (for_each_rows_ok _ mk run starts w w' Hloop i Hi).
Qed.

(** When some record lacks a column of the first record, bulk insert with a
    batch size of at least 1 never returns "ok": it returns an error string,
    on both backends. *)
Theorem insert_missing_column_is_reported (table_name : string) (records : list dict)
        (batch_size : Z) (e : exn) :
  (1 <= batch_size)%Z ->
  rows_of (insert_columns records) records = inl e ->
  (forall (E : Type) (drv : PostgresHandler.driver E) (w : world E),
     exists e',
       fst (PostgresHandler.insert_into_table_bulk drv table_name records batch_size w)
       = Ok ("Error adding records: " ^^ str_exn e')) /\
  (forall (E : Type) (drv : SqliteHandler.driver E) (w : world E),
     exists e',
       fst (SqliteHandler.insert_into_table_bulk drv table_name records batch_size w)
       = Ok ("Error adding records: " ^^ str_exn e')).
Proof.
  intros Hbs Hrows. split; intros E drv w.
  - unfold PostgresHandler.insert_into_table_bulk.
    rewrite bind_run, connect_run, try_except_run, bind_run.
    destruct (range_ok 0 (len records) batch_size ltac:(lia)) as [starts Hr].
    rewrite Hr. simpl lift. unfold ret at 1. rewrite bind_run.
    match goal with |- context [for_each starts ?f ?w0] =>
      destruct (for_each starts f w0) as [[[]|x] w1] eqn:Hloop end.
    + destruct (insert_loop_complete _ _ _ _ _ _ _ _ Hbs Hr Hloop) as [rows Hok].
      congruence.
    + exists x. reflexivity.
  - unfold SqliteHandler.insert_into_table_bulk.
    rewrite bind_run, connect_run.
    match goal with |- context [finally ?m close ?w0] =>
      destruct (m w0) as [r1 w1] eqn:Hm; rewrite (finally_close_eq _ _ _ _ Hm)
    end.
    rewrite try_except_run, bind_run in Hm.
    destruct (range_ok 0 (len records) batch_size ltac:(lia)) as [starts Hr].
    rewrite Hr in Hm. simpl lift in Hm. unfold ret at 1 in Hm. rewrite bind_run in Hm.
    match type of Hm with context [for_each starts ?f ?w0] =>
      destruct (for_each starts f w0) as [[[]|x] w2] eqn:Hloop end.
    + destruct (insert_loop_complete _ _ _ _ _ _ _ _ Hbs Hr Hloop) as [rows Hok].
      congruence.
    + injection Hm as <- _. exists x. reflexivity.
Qed.

Lemma insert_missing_column_is_reported_witness :
  let records := [[("id", VInt 1); ("name", VStr "John")]; [("id", VInt 2)]] in
  (1 <= 1000)%Z /\
  rows_of (insert_columns records) records = inl (Exn "KeyError" "'name'") /\
  exists e',
    fst (PostgresHandler.insert_into_table_bulk accepting_pg "t" records 1000 disconnected)
    = Ok ("Error adding records: " ^^ str_exn e').
Proof.
  cbv zeta.
  assert (H : (1 <= 1000)%Z) by lia.
  split; [exact H|]. split; [reflexivity|].
  exact (proj1 (insert_missing_column_is_reported
                  "t" [[("id", VInt 1); ("name", VStr "John")]; [("id", VInt 2)]]
                  1000 (Exn "KeyError" "'name'") H eq_refl)
               unit accepting_pg disconnected).
Defined.

(** ** The Records of select *)

Lemma keys_dict_set (k : string) (v : pyval) (d : dict) :
  keys (dict_set k v d) = if in_dec string_dec k (keys d) then keys d else keys d ++ [k].
Proof.
  induction d as [|[k' v'] d IH]; [reflexivity|]. simpl.
  destruct (String.eqb_spec k k') as [Heq|Hne].
  - subst k'. destruct (string_dec k k) as [_|Hc]; [reflexivity|contradiction].
  - destruct (string_dec k' k) as [Heq|Hne']; [now subst|].
    simpl. rewrite IH. destruct (in_dec string_dec k (keys d)); reflexivity.
Qed.

Lemma lookup_dict_set (k k' : string) (v : pyval) (d : dict) :
  lookup k' (dict_set k v d) = if String.eqb k' k then Some v else lookup k' d.
Proof.
  induction d as [|[k0 v0] d IH]; simpl.
  - reflexivity.
  - destruct (String.eqb_spec k k0) as [Heq|Hne]; simpl.
    + subst k0. destruct (String.eqb k' k); reflexivity.
    + rewrite IH. destruct (String.eqb_spec k' k0) as [Heq|_]; [|reflexivity].
      subst k'. destruct (String.eqb_spec k0 k); [now subst|reflexivity].
Qed.

Lemma lookup_app (k : string) (a b : dict) :
  lookup k (a ++ b) = match lookup k a with Some v => Some v | None => lookup k b end.
Proof.
  induction a as [|[k0 v0] a IH]; simpl; [reflexivity|].
  destruct (String.eqb k k0); [reflexivity|exact IH].
Qed.

Lemma dict_set_fresh (k : string) (v : pyval) (d : dict) :
  ~ In k (keys d) -> dict_set k v d = d ++ [(k, v)].
Proof.
  induction d as [|[k0 v0] d IH]; intros H; simpl; [reflexivity|].
  simpl in H. destruct (String.eqb_spec k k0) as [Heq|_]; [subst; tauto|].
  rewrite IH by tauto. reflexivity.
Qed.

Lemma fold_dict_set_keys (pairs : list (string * pyval)) (acc : dict) :
  NoDup (keys acc) ->
  NoDup (keys (fold_left (fun d kv => dict_set (fst kv) (snd kv) d) pairs acc)).
Proof.
  revert acc; induction pairs as [|[k v] pairs IH]; intros acc H; simpl; [exact H|].
  apply IH. rewrite keys_dict_set.
  destruct (in_dec string_dec k (keys acc)) as [Hin|Hout]; [exact H|].
  apply NoDup_app; [exact H|constructor; [intros []|constructor]|].
  intros x Hx [<-|[]]. contradiction.
Qed.

Lemma fold_dict_set_lookup (k : string) (pairs : list (string * pyval)) (acc : dict) :
  lookup k (fold_left (fun d kv => dict_set (fst kv) (snd kv) d) pairs acc)
  = match lookup k (rev pairs) with Some v => Some v | None => lookup k acc end.
Proof.
  revert acc; induction pairs as [|[k0 v0] pairs IH]; intros acc; simpl; [reflexivity|].
  rewrite IH, lookup_app, lookup_dict_set. simpl.
  destruct (lookup k (rev pairs)); [reflexivity|].
  destruct (String.eqb k k0); reflexivity.
Qed.

Lemma fold_dict_set_fresh (pairs : list (string * pyval)) (acc : dict) :
  NoDup (keys acc ++ map fst pairs) ->
  fold_left (fun d kv => dict_set (fst kv) (snd kv) d) pairs acc = acc ++ pairs.
Proof.
  revert acc; induction pairs as [|[k v] pairs IH]; intros acc H; simpl.
  - now rewrite app_nil_r.
  - simpl in H. rewrite dict_set_fresh.
    + rewrite IH.
      * now rewrite <- app_assoc.
      * unfold keys in *. rewrite map_app. simpl. now rewrite <- app_assoc.
    + apply NoDup_remove_2 in H. intros Hin. apply H. apply in_or_app. now left.
Qed.

(** The mapper of the embedded backend, whatever the requested columns
    are: one Record per row, in the order of the rows; the keys of a Record
    are distinct, and under a column requested twice it holds the cell of
    the later occurrence. *)
Theorem sqlite_mapper_duplicate_columns (find_data : list string)
        (result : list SqliteHandler.row) :
  forallb SqliteHandler.is_tuple result = true ->
  Forall2 (fun r record =>
             NoDup (keys record) /\
             forall k, lookup k record
                       = lookup k (rev (zip find_data (SqliteHandler.cells_of r))))
          result (SqliteHandler.map_rows find_data result).
Proof.
  intros Ht. unfold SqliteHandler.map_rows. rewrite Ht. clear Ht.
  induction result as [|r result IH]; simpl; constructor; [|exact IH].
  unfold dict_of. split.
  - apply fold_dict_set_keys. constructor.
  - intros k. rewrite fold_dict_set_lookup.
    now destruct (lookup k (rev (zip find_data (SqliteHandler.cells_of r)))).
Qed.

Lemma sqlite_mapper_duplicate_columns_witness :
  forallb SqliteHandler.is_tuple [SqliteHandler.TupleRow [VInt 1; VInt 2]] = true /\
  Forall2 (fun r record =>
             NoDup (keys record) /\
             forall k, lookup k record
                       = lookup k (rev (zip ["id"; "id"] (SqliteHandler.cells_of r))))
          [SqliteHandler.TupleRow [VInt 1; VInt 2]]
          (SqliteHandler.map_rows ["id"; "id"] [SqliteHandler.TupleRow [VInt 1; VInt 2]]).
Proof.
  split; [reflexivity|].
  exact (sqlite_mapper_duplicate_columns ["id"; "id"]
           [SqliteHandler.TupleRow [VInt 1; VInt 2]] eq_refl).
Defined.

Lemma map_fst_combine {A B : Type} (a : list A) (b : list B) :
  map fst (combine a b) = firstn (List.length b) a.
Proof.
  revert b; induction a as [|x a IH]; intros [|y b]; simpl; try reflexivity.
  now rewrite IH.
Qed.

Lemma in_firstn {A : Type} (x : A) (n : nat) (l : list A) :
  In x (firstn n l) -> In x l.
Proof.
  revert n; induction l as [|y l IH]; intros [|n] H; simpl in *; try contradiction.
  destruct H as [H|H]; [now left|right; exact (IH n H)].
Qed.

Lemma NoDup_firstn {A : Type} (n : nat) (l : list A) : NoDup l -> NoDup (firstn n l).
Proof.
  revert n; induction l as [|x l IH]; intros [|n] H; simpl; try constructor.
  - intros Hin. inversion H; subst. apply in_firstn in Hin. contradiction.
  - apply IH. now inversion H.
Qed.

(** With distinct requested columns, the mapper of the embedded backend
    pairs the columns with the cells of each row, in order, one Record per
    row: a Record has the first [len(row)] requested columns as its keys. *)
Theorem sqlite_mapper_pairs_columns (find_data : list string)
        (result : list SqliteHandler.row) :
  NoDup find_data ->
  forallb SqliteHandler.is_tuple result = true ->
  SqliteHandler.map_rows find_data result
  = map (fun r => zip find_data (SqliteHandler.cells_of r)) result /\
  Forall2 (fun r record =>
             keys record = firstn (List.length (SqliteHandler.cells_of r)) find_data)
          result (SqliteHandler.map_rows find_data result).
Proof.
  intros Hnd Ht. unfold SqliteHandler.map_rows. rewrite Ht.
  assert (Hrow : forall r,
             dict_of (zip find_data (SqliteHandler.cells_of r))
             = zip find_data (SqliteHandler.cells_of r)).
  { intros r. unfold dict_of, zip. apply fold_dict_set_fresh.
    cbn [keys map app]. rewrite map_fst_combine. now apply NoDup_firstn. }
  split.
  - apply map_ext. exact Hrow.
  - clear Ht. induction result as [|r result IH]; simpl; constructor; auto.
    rewrite Hrow. apply map_fst_combine.
Qed.

Lemma sqlite_mapper_pairs_columns_witness :
  NoDup ["id"; "name"] /\
  SqliteHandler.map_rows ["id"; "name"]
    [SqliteHandler.TupleRow [VInt 1; VStr "John"]; SqliteHandler.TupleRow [VInt 2; VStr "Jane"]]
  = [[("id", VInt 1); ("name", VStr "John")]; [("id", VInt 2); ("name", VStr "Jane")]].
Proof.
  assert (H : NoDup ["id"; "name"]).
  { constructor; [simpl; intros [H|[]]; discriminate|].
    constructor; [intros []|constructor]. }
  split; [exact H|].
  exact (proj1 (sqlite_mapper_pairs_columns ["id"; "name"]
                  [SqliteHandler.TupleRow [VInt 1; VStr "John"];
                   SqliteHandler.TupleRow [VInt 2; VStr "Jane"]] H eq_refl)).
Defined.

(** ** Conditions that select nothing *)

Lemma sel_clauses_filter (n : nat) (l : list dict) :
  sel_clauses n (filter truthy l) = sel_clauses n l.
Proof.
  revert n; induction l as [|d l IH]; intros n; [reflexivity|].
  cbn [filter sel_clauses]. destruct (truthy d) eqn:Hd; [|apply IH].
  cbn [sel_clauses]. rewrite Hd. now rewrite IH.
Qed.

Lemma nonnull_values_filter (l : list dict) :
  nonnull_values (filter truthy l) = nonnull_values l.
Proof.
  unfold nonnull_values. induction l as [|d l IH]; [reflexivity|].
  cbn [filter map List.concat]. destruct d as [|kv d]; cbn [truthy].
  - exact IH.
  - cbn [map List.concat]. now rewrite !filter_app, IH.
Qed.

Lemma filter_truthy_idem {A : Type} (l : list (list A)) :
  filter truthy (filter truthy l) = filter truthy l.
Proof.
  induction l as [|d l IH]; [reflexivity|].
  cbn [filter]. destruct (truthy d) eqn:Hd; [|exact IH].
  cbn [filter]. now rewrite Hd, IH.
Qed.

Lemma filter_truthy_none {A : Type} (l : list (list A)) :
  forallb (fun d => negb (truthy d)) l = true -> filter truthy l = [].
Proof.
  induction l as [|d l IH]; intros Hall; [reflexivity|].
  cbn [forallb] in Hall. apply andb_true_iff in Hall as [Hd Hl].
  cbn [filter]. destruct (truthy d); [discriminate|]. now apply IH.
Qed.

(** select skips the empty Conditions of a ConditionSet: on both backends
    the statement and the bound values are those of the ConditionSet without
    them.  A ConditionSet of empty Conditions only is no filter at all: the
    statement has no WHERE and, whatever the batch size, no LIMIT. *)
Theorem select_ignores_empty_conditions :
  forall table_name find_data (l : list dict) batch_size,
    PostgresHandler.build_select_query table_name find_data l batch_size
    = PostgresHandler.build_select_query table_name find_data (filter truthy l) batch_size /\
    SqliteHandler.build_select_query table_name find_data l batch_size
    = SqliteHandler.build_select_query table_name find_data (filter truthy l) batch_size /\
    (forallb (fun d => negb (truthy d)) l = true ->
     PostgresHandler.build_select_query table_name find_data l batch_size
     = PostgresHandler.build_select_query table_name find_data [] 0 /\
     SqliteHandler.build_select_query table_name find_data l batch_size
     = SqliteHandler.build_select_query table_name find_data [] 0).
Proof.
  intros tn fd l bs.
  assert (Hpg : PostgresHandler.build_select_query tn fd l bs
                = PostgresHandler.build_select_query tn fd (filter truthy l) bs).
  { rewrite !pg_select_shape. now rewrite sel_clauses_filter, nonnull_values_filter. }
  assert (Hsq : SqliteHandler.build_select_query tn fd l bs
                = SqliteHandler.build_select_query tn fd (filter truthy l) bs).
  { rewrite !sqlite_select_shape. unfold sq_clauses.
    now rewrite filter_truthy_idem, nonnull_values_filter. }
  split; [exact Hpg|]. split; [exact Hsq|].
  intros Hall. rewrite Hpg, Hsq, (filter_truthy_none l Hall). split; reflexivity.
Qed.

Lemma select_ignores_empty_conditions_witness :
  forallb (fun d : dict => negb (truthy d)) [[]; []] = true /\
  PostgresHandler.build_select_query "t" ["id"] [[]; []] 1000
  = ([Txt "SELECT "; Name "id"; Txt " FROM "; Name "t"], []).
Proof.
  split; [reflexivity|].
  exact (proj1 (proj2 (proj2 (select_ignores_empty_conditions "t" ["id"] [[]; []] 1000))
                      eq_refl)).
Defined.

(** ** The two backends side by side *)

Lemma erase_eq_atoms (first : nat) (ks : list string) :
  map erase (eq_atoms first ks) = sq_atoms ks.
Proof.
  revert first; induction ks as [|k ks IH]; intros first; [reflexivity|].
  cbn [eq_atoms map]. rewrite IH. reflexivity.
Qed.

Lemma erase_flat (s : string) (first : nat) (ks : list string) :
  erase (join [Txt s] (eq_atoms first ks)) = join [Txt s] (sq_atoms ks).
Proof. now rewrite erase_join, erase_eq_atoms. Qed.

Lemma erase_null_part (d : dict) : erase (null_part d) = null_part d.
Proof. unfold null_part. destruct (first_null d); reflexivity. Qed.

(** The statements of the embedded backend are those of the pooled backend
    with every numbered placeholder made positional, for select, delete,
    count and bulk update.  The bound values are the same lists for select,
    delete and count; for bulk update they are the same values in the other
    order of the two groups. *)
Theorem backends_build_same_statements :
  (forall table_name find_data (l : list dict) batch_size,
     SqliteHandler.build_select_query table_name find_data l batch_size
     = (erase (fst (PostgresHandler.build_select_query table_name find_data l batch_size)),
        snd (PostgresHandler.build_select_query table_name find_data l batch_size))) /\
  (forall table_name (d : dict),
     SqliteHandler.build_delete_query table_name d
     = (erase (fst (PostgresHandler.build_delete_query table_name d)),
        snd (PostgresHandler.build_delete_query table_name d))) /\
  (forall table_name (d : dict),
     SqliteHandler.build_count_query table_name d
     = (erase (fst (PostgresHandler.build_count_query table_name d)),
        snd (PostgresHandler.build_count_query table_name d))) /\
  (forall table_name (data : update_spec),
     fst (SqliteHandler.build_update_query table_name data)
     = erase (fst (PostgresHandler.build_update_query table_name data)) /\
     snd (SqliteHandler.build_update_query table_name data)
     = values (update data) ++ values (where_ data) /\
     snd (PostgresHandler.build_update_query table_name data)
     = values (where_ data) ++ values (update data)).
Proof.
  split; [|split; [|split]].
  - intros tn fd l bs. apply sqlite_select_erased.
  - intros tn d. rewrite sqlite_delete_shape, pg_delete_shape. cbn [fst snd].
    f_equal. rewrite erase_app. f_equal.
    destruct (truthy d); [|reflexivity].
    change (erase (Txt " WHERE " :: ?x)) with (Txt " WHERE " :: erase x).
    now rewrite erase_flat.
  - intros tn d. rewrite sqlite_count_shape, pg_count_shape. cbn [fst snd].
    f_equal. rewrite !erase_app, erase_null_part. f_equal. f_equal.
    destruct (truthy d); [|reflexivity].
    change (erase (Txt " WHERE " :: ?x)) with (Txt " WHERE " :: erase x).
    now rewrite erase_flat.
  - intros tn data. rewrite sqlite_update_shape, pg_update_shape. cbn [fst snd].
    split; [|split; reflexivity].
    rewrite erase_app.
    change (erase (Txt " SET " :: ?x)) with (Txt " SET " :: erase x).
    rewrite erase_app.
    change (erase (Txt " WHERE " :: ?x)) with (Txt " WHERE " :: erase x).
    now rewrite !erase_flat.
Qed.

(** ** The numbering of select *)

Lemma cond_atoms_lower_bound (bound i : nat) (d : dict) :
  Forall (fun p => bound + i + 1 <= p)
         (List.concat (map placeholders (cond_atoms bound i d))).
Proof.
  revert i; induction d as [|[k v] d IH]; intros i; simpl; [constructor|].
  specialize (IH (S i)).
  assert (IH' : Forall (fun p => bound + i + 1 <= p)
                       (List.concat (map placeholders (cond_atoms bound (S i) d)))).
  { eapply Forall_impl; [|exact IH]. simpl. intros p Hp. lia. }
  destruct (is_not_none v); simpl; [constructor; [lia|exact IH']|exact IH'].
Qed.

Lemma no_placeholder_all_null (bound i : nat) (d : dict) :
  List.concat (map placeholders (cond_atoms bound i d)) = [] ->
  forallb is_null d = true.
Proof.
  revert i; induction d as [|[k v] d IH]; intros i H; simpl in *; [reflexivity|].
  unfold is_null at 1. cbn [snd].
  destruct (is_not_none v); simpl in *; [discriminate|]. exact (IH _ H).
Qed.

Lemma cond_atoms_numbered_inv (bound i m : nat) (d : dict) :
  List.concat (map placeholders (cond_atoms bound i d)) = seq (bound + i + 1) m ->
  nulls_last d = true.
Proof.
  revert i m; induction d as [|[k v] d IH]; intros i m H; simpl in *; [reflexivity|].
  unfold not_null. cbn [snd].
  destruct (is_not_none v); simpl in H.
  - destruct m as [|m]; [discriminate|]. simpl in H. injection H as H.
    apply (IH (S i) m). rewrite H. f_equal. lia.
  - destruct m as [|m].
    + exact (no_placeholder_all_null _ _ _ H).
    + pose proof (cond_atoms_lower_bound bound (S i) d) as Hlow.
      rewrite H in Hlow. simpl in Hlow. inversion Hlow; subst. lia.
Qed.

Lemma app_eq_seq (a b : list nat) (s m : nat) :
  a ++ b = seq s m ->
  a = seq s (List.length a) /\ b = seq (s + List.length a) (m - List.length a).
Proof.
  revert s m; induction a as [|x a IH]; intros s m H; simpl in *.
  - rewrite Nat.add_0_r, Nat.sub_0_r. auto.
  - destruct m as [|m]; [discriminate|]. simpl in H. injection H as -> H.
    destruct (IH _ _ H) as [Ha Hb]. split.
    + now rewrite <- Ha.
    + rewrite Hb at 1. f_equal. lia.
Qed.

Lemma sel_clauses_numbered_inv (n m : nat) (l : list dict) :
  List.concat (map placeholders (sel_clauses n l)) = seq (n + 1) m ->
  forallb nulls_last l = true.
Proof.
  revert n m; induction l as [|d l IH]; intros n m H; [reflexivity|].
  cbn [sel_clauses forallb] in *.
  destruct d as [|kv d'] eqn:Ed; cbn [truthy] in H.
  - cbn [nulls_last andb]. exact (IH _ _ H).
  - rewrite <- Ed in *. clear Ed kv d'.
    cbn [map List.concat] in H. rewrite where_clause_placeholders in H.
    apply app_eq_seq in H as [Hd Hl].
    rewrite cond_atoms_placeholders_length in Hd, Hl.
    apply andb_true_iff. split.
    + apply (cond_atoms_numbered_inv n 0 (List.length (filter is_not_none (values d))) d).
      rewrite Nat.add_0_r. exact Hd.
    + apply (IH (n + List.length (filter is_not_none (values d)))
                (m - List.length (filter is_not_none (values d)))).
      rewrite Hl. f_equal. lia.
Qed.

(** The statement of select of the pooled backend numbers its placeholders
    [$1 .. $n], one per bound value, exactly when no Condition has a
    null-valued column before a non-null one. *)
Theorem pg_select_numbering_iff :
  forall table_name find_data (l : list dict) batch_size,
    let q := fst (PostgresHandler.build_select_query table_name find_data l batch_size) in
    let args := snd (PostgresHandler.build_select_query table_name find_data l batch_size) in
    placeholders q = seq 1 (List.length args) <-> forallb nulls_last l = true.
Proof.
  intros tn fd l bs q args. split.
  - subst q args. rewrite pg_select_shape. cbn [fst snd].
    rewrite placeholders_select. intros H.
    apply (sel_clauses_numbered_inv 0 (List.length (nonnull_values l))). exact H.
  - intros H. apply pg_select_numbered. exact H.
Qed.

Lemma pg_select_numbering_iff_witness :
  let l := [[("age", VInt 30)]; [("city", VStr "Rome"); ("name", VNone)]] in
  placeholders (fst (PostgresHandler.build_select_query "t" ["id"] l 10))
  = seq 1 (List.length (snd (PostgresHandler.build_select_query "t" ["id"] l 10))) /\
  forallb nulls_last l = true.
Proof.
  cbv zeta.
  assert (H : placeholders
                (fst (PostgresHandler.build_select_query "t" ["id"]
                        [[("age", VInt 30)]; [("city", VStr "Rome"); ("name", VNone)]] 10))
              = seq 1 (List.length
                         (snd (PostgresHandler.build_select_query "t" ["id"]
                                 [[("age", VInt 30)];
                                  [("city", VStr "Rome"); ("name", VNone)]] 10))))
    by reflexivity.
  split; [exact H|].
  exact (proj1 (pg_select_numbering_iff "t" ["id"]
                  [[("age", VInt 30)]; [("city", VStr "Rome"); ("name", VNone)]] 10) H).
Defined.

(** *** The positional placeholders of the embedded backend *)

Lemma number_qmarks_none (n : nat) (q : sql) :
  count_qm q = 0 -> number_qmarks n q = q.
Proof.
  induction q as [|f q IH]; [reflexivity|].
  destruct f; simpl; intros H; try (now rewrite IH). discriminate.
Qed.

Lemma number_join (s : string) (n : nat) (parts : list sql) :
  number_qmarks n (join [Txt s] parts) = join [Txt s] (number_parts n parts).
Proof.
  revert n; induction parts as [|p parts IH]; intros n; [reflexivity|].
  destruct parts as [|p' parts]; [reflexivity|].
  change (join [Txt s] (p :: p' :: parts))
    with (p ++ Txt s :: join [Txt s] (p' :: parts)).
  rewrite number_qmarks_app. cbn [number_qmarks]. rewrite IH. reflexivity.
Qed.

Lemma count_qm_joined (s : string) (parts : list sql) :
  count_qm (join [Txt s] parts) = list_sum (map count_qm parts).
Proof.
  induction parts as [|p parts IH]; [reflexivity|].
  destruct parts as [|p' parts]; [simpl; lia|].
  change (join [Txt s] (p :: p' :: parts))
    with (p ++ Txt s :: join [Txt s] (p' :: parts)).
  rewrite count_qm_app. cbn [count_qm]. rewrite IH. reflexivity.
Qed.

Lemma number_parts_paren (n : nat) (clauses : list sql) :
  number_parts n (map paren clauses) = map paren (number_parts n clauses).
Proof.
  revert n; induction clauses as [|c cs IH]; intros n; [reflexivity|].
  cbn [map number_parts]. rewrite <- IH. f_equal.
  - unfold paren. rewrite number_qmarks_app. cbn [number_qmarks count_qm].
    rewrite Nat.add_0_r, number_qmarks_app. reflexivity.
  - f_equal. f_equal. unfold paren. rewrite !count_qm_app. simpl. lia.
Qed.

Lemma number_parts_truthy (n : nat) (parts : list sql) :
  truthy (number_parts n parts) = truthy parts.
Proof. now destruct parts. Qed.

Lemma select_base_no_qm (table_name : string) (find_data : list string) :
  count_qm (select_base table_name find_data) = 0.
Proof.
  unfold select_base. rewrite !count_qm_app, count_qm_join; trivial.
  apply Forall_forall. intros p Hp. apply in_map_iff in Hp as (c & <- & _).
  reflexivity.
Qed.

Lemma number_select (n : nat) table_name find_data clauses batch_size :
  number_qmarks n (select_base table_name find_data
                     ++ where_part clauses ++ limit_part clauses batch_size)
  = select_base table_name find_data
      ++ where_part (number_parts n clauses)
      ++ limit_part (number_parts n clauses) batch_size.
Proof.
  rewrite number_qmarks_app, select_base_no_qm, Nat.add_0_r.
  rewrite (number_qmarks_none n (select_base _ _)) by apply select_base_no_qm.
  f_equal. rewrite number_qmarks_app. f_equal.
  - unfold where_part. rewrite number_parts_truthy.
    destruct (truthy clauses); [|reflexivity].
    cbn [number_qmarks]. now rewrite number_join, number_parts_paren.
  - unfold limit_part. rewrite number_parts_truthy.
    destruct (_ && _); reflexivity.
Qed.

Lemma sq_atoms_read (n : nat) (d : dict) :
  List.concat (map placeholders (number_parts n (map sq_atom d)))
  = seq n (List.length (filter not_null d)) /\
  List.concat (map bindings (number_parts n (map sq_atom d)))
  = combine (keys (filter not_null d)) (seq n (List.length (filter not_null d))) /\
  list_sum (map count_qm (map sq_atom d)) = List.length (filter not_null d) /\
  Forall (fun p => starts_plain p = true /\ p <> []) (number_parts n (map sq_atom d)).
Proof.
  revert n; induction d as [|[k v] d IH]; intros n.
  - repeat split; constructor.
  - cbn [map number_parts filter List.concat].
    change (list_sum (?a :: ?r)) with (a + list_sum r).
    change (not_null (k, v)) with (is_not_none v).
    assert (Ha : sq_atom (k, v)
                 = if is_not_none v then [Name k; Txt " = "; Qm]
                   else [Name k; Txt " IS NULL"]) by reflexivity.
    rewrite Ha. clear Ha.
    destruct (is_not_none v).
    + destruct (IH (n + 1)) as (H1 & H2 & H3 & H4).
      cbn [count_qm number_qmarks placeholders].
      rewrite H1, H2, H3. rewrite Nat.add_1_r.
      repeat split; try reflexivity.
      constructor; [split; [reflexivity|discriminate]|].
      rewrite Nat.add_1_r in H4. exact H4.
    + destruct (IH (n + 0)) as (H1 & H2 & H3 & H4).
      cbn [count_qm number_qmarks placeholders].
      rewrite H1, H2, H3. rewrite Nat.add_0_r in *.
      repeat split; try reflexivity.
      constructor; [split; [reflexivity|discriminate]|exact H4].
Qed.

Lemma sqlite_where_clause_read (n : nat) (d : dict) :
  placeholders (number_qmarks n (SqliteHandler.where_clause_of d))
  = seq n (List.length (filter not_null d)) /\
  bindings (number_qmarks n (SqliteHandler.where_clause_of d))
  = combine (keys (filter not_null d)) (seq n (List.length (filter not_null d))) /\
  count_qm (SqliteHandler.where_clause_of d) = List.length (filter not_null d) /\
  starts_plain (number_qmarks n (SqliteHandler.where_clause_of d)) = true.
Proof.
  unfold SqliteHandler.where_clause_of, items. fold sq_atom.
  destruct (sq_atoms_read n d) as (H1 & H2 & H3 & H4).
  rewrite number_join, placeholders_join, bindings_join, count_qm_joined by auto.
  repeat split; auto. apply starts_plain_join; auto.
Qed.

Lemma sq_clauses_read (n : nat) (l : list dict) :
  let found := filter not_null (List.concat l) in
  List.concat (map placeholders (number_parts n (sq_clauses l)))
  = seq n (List.length found) /\
  List.concat (map bindings (number_parts n (sq_clauses l)))
  = combine (keys found) (seq n (List.length found)) /\
  Forall (fun c => starts_plain c = true) (number_parts n (sq_clauses l)).
Proof.
  cbv zeta. revert n; induction l as [|d l IH]; intros n.
  - repeat split; constructor.
  - unfold sq_clauses in *. cbn [filter List.concat].
    rewrite filter_app, length_app.
    destruct d as [|kv d'] eqn:Ed; cbn [truthy].
    + simpl. apply IH.
    + rewrite <- Ed in *. clear Ed kv d'.
      cbn [map number_parts List.concat].
      destruct (sqlite_where_clause_read n d) as (H1 & H2 & H3 & H4).
      destruct (IH (n + List.length (filter not_null d))) as (G1 & G2 & G3).
      rewrite H1, H2, H3, G1, G2.
      unfold keys. rewrite map_app, seq_app.
      rewrite combine_app by now rewrite length_map, length_seq.
      repeat split; try reflexivity. constructor; assumption.
Qed.

(** The statement of select of the embedded backend has one [?] per bound
    value, and the k-th [?] from the left is the test of the column whose
    value is the k-th bound value, for every ConditionSet, null-valued
    columns wherever they stand. *)
Theorem sqlite_select_binds_columns :
  forall table_name find_data (l : list dict) batch_size,
    let q := fst (SqliteHandler.build_select_query table_name find_data l batch_size) in
    let args := snd (SqliteHandler.build_select_query table_name find_data l batch_size) in
    placeholders (number_qmarks 1 q) = seq 1 (List.length args) /\
    resolve (number_qmarks 1 q) args
    = map (fun kv => (fst kv, Some (snd kv))) (filter not_null (List.concat l)).
Proof.
  intros tn fd l bs q args. subst q args.
  rewrite sqlite_select_shape. cbn [fst snd].
  rewrite number_select, placeholders_select, nonnull_values_eq, values_length.
  destruct (sq_clauses_read 1 l) as (Hp & Hb & Hplain). cbv zeta in Hp, Hb.
  split; [exact Hp|].
  unfold resolve. rewrite bindings_select, Hb by exact Hplain.
  set (found := filter not_null (List.concat l)).
  pose proof (resolve_run (keys found) (values found) [] []) as Hr.
  rewrite app_nil_r, keys_length in Hr. cbn [List.length app] in Hr.
  rewrite Hr, combine_keys_values by now rewrite values_length.
  reflexivity.
Qed.

(** ** Deleting without a condition *)

Lemma append_nil_r (s : string) : s ^^ "" = s.
Proof. induction s as [|c s IH]; simpl; [reflexivity|now rewrite IH]. Qed.


(** ** The log of bulk update *)

Lemma update_errors_app (a b : list (call * option exn)) :
  update_errors (a ++ b) = update_errors a ++ update_errors b.
Proof. apply flat_map_app. Qed.

(** A loop whose body makes one call and logs its failure *)
Section SwallowLog.

Context {E A : Type} (call_of : A -> call) (body : A -> M E unit).

Hypothesis body_logs :
  forall x w, exists w1 oe,
    body x w = (Ok tt, w1) /\
    sent w1 = sent w ++ [(call_of x, oe)] /\
    log w1 = log w ++ update_errors [(call_of x, oe)].

Lemma for_each_logs (l : list A) (w : world E) :
  exists w' tr,
    for_each l body w = (Ok tt, w') /\
    sent w' = sent w ++ tr /\
    log w' = log w ++ update_errors tr /\
    map fst tr = map call_of l.
Proof.
  revert w; induction l as [|x l IH]; intros w; simpl.
  - exists w, []. rewrite !app_nil_r. auto.
  - destruct (body_logs x w) as (w1 & oe & Hb & Hs & Hl).
    destruct (IH w1) as (w' & tr & Hf & Hs' & Hl' & Htr).
    exists w', ((call_of x, oe) :: tr). unfold bind. rewrite Hb, Hf.
    split; [reflexivity|]. split; [|split].
    + rewrite Hs', Hs, <- app_assoc. reflexivity.
    + rewrite Hl', Hl, <- app_assoc.
      change ((call_of x, oe) :: tr) with ([(call_of x, oe)] ++ tr).
      now rewrite update_errors_app.
    + simpl. now rewrite Htr.
Qed.

End SwallowLog.

Lemma pg_mass_update_log {E : Type} (drv : PostgresHandler.driver E)
      table_name data_list (bs : Z) (w : world E) :
  (1 <= bs)%Z ->
  exists w' tr,
    PostgresHandler.mass_update drv table_name data_list bs w = (Ok tt, w') /\
    sent w' = sent w ++ tr /\
    log w' = log w ++ update_errors tr /\
    map fst tr = map (pg_update_call table_name) data_list.
Proof.
  intros Hbs.
  destruct (range_ok 0 (len data_list) bs ltac:(lia)) as [starts Hr].
  unfold PostgresHandler.mass_update.
  rewrite bind_run, connect_run, bind_run, Hr.
  simpl lift. unfold ret at 1. cbv beta iota zeta.
  rewrite (nested_loop _ _ _ _ Hbs Hr).
  match goal with |- context [for_each data_list ?f ?w0] =>
    destruct (for_each_logs (pg_update_call table_name) f) with (l := data_list) (w := w0)
      as (w' & tr & Hf & Hs & Hl & Htr)
  end.
  - intros x w1. unfold pg_update_call.
    destruct (PostgresHandler.build_update_query table_name x) as [q a]. simpl.
    unfold try_except, bind, driver_call, logger_error, ret.
    destruct (PostgresHandler.execute drv (render q) a (engine w1)) as [[e|s] eng];
      simpl; do 2 eexists;
      (split; [reflexivity|split; [reflexivity|simpl; now rewrite ?app_nil_r]]).
  - exists w', tr. auto.
Qed.

Lemma sqlite_mass_update_log {E : Type} (drv : SqliteHandler.driver E)
      table_name data_list (bs : Z) (w : world E) :
  (1 <= bs)%Z ->
  exists w' tr,
    SqliteHandler.mass_update drv table_name data_list bs w = (Ok tt, w') /\
    sent w' = sent w ++ tr /\
    log w' = log w ++ update_errors tr /\
    map fst tr = map (sqlite_update_call table_name) data_list ++ [Commit].
Proof.
  intros Hbs.
  destruct (range_ok 0 (len data_list) bs ltac:(lia)) as [starts Hr].
  unfold SqliteHandler.mass_update.
  rewrite bind_run, connect_run.
  match goal with |- context [finally ?m close ?w0] =>
    destruct (m w0) as [r1 w1] eqn:Hm; rewrite (finally_close_eq _ _ _ _ Hm)
  end.
  rewrite try_except_run, bind_run, Hr in Hm.
  simpl lift in Hm. unfold ret at 1 in Hm. cbv beta iota zeta in Hm.
  rewrite bind_run, (nested_loop _ _ _ _ Hbs Hr) in Hm.
  match type of Hm with context [for_each data_list ?f ?w0] =>
    destruct (for_each_logs (sqlite_update_call table_name) f)
      with (l := data_list) (w := w0) as (w' & tr & Hf & Hs & Hl & Htr)
  end.
  - intros x w2. unfold sqlite_update_call.
    destruct (SqliteHandler.build_update_query table_name x) as [q a]. simpl.
    unfold try_except, bind, driver_call, logger_error, ret.
    destruct (SqliteHandler.execute drv (render q) a (engine w2)) as [[e|s] eng];
      simpl; do 2 eexists;
      (split; [reflexivity|split; [reflexivity|simpl; now rewrite ?app_nil_r]]).
  - rewrite Hf in Hm. cbn [sent log] in Hs, Hl.
    unfold driver_call, logger_error in Hm.
    destruct (SqliteHandler.commit drv (engine w')) as [[e|[]] eng];
      injection Hm as <- <-; eexists;
      [exists (tr ++ [(Commit, Some e)])|exists (tr ++ [(Commit, None)])];
      (split; [reflexivity|]); cbn [sent log];
      rewrite update_errors_app, map_app, Htr, Hl, Hs, <- ?app_assoc;
      unfold update_errors; cbn [flat_map snd app]; rewrite ?app_nil_r;
      repeat split; reflexivity.
Qed.

(** With a batch size of at least one, bulk update executes one statement
    per UpdateSpec, in order, and what it adds to the log is one error entry
    per failed call, in the order of the calls, and nothing else: a failed
    statement does not stop the run, and a successful one leaves no entry.
    On the embedded backend the commit that ends the run is logged the same
    way when it fails. *)
Theorem mass_update_logs_failures (batch_size : Z) :
  (1 <= batch_size)%Z ->
  (forall (E : Type) (drv : PostgresHandler.driver E) table_name data_list (w : world E),
     let w' := snd (PostgresHandler.mass_update drv table_name data_list batch_size w) in
     log w' = log w ++ update_errors (issued w w') /\
     map fst (issued w w') = map (pg_update_call table_name) data_list) /\
  (forall (E : Type) (drv : SqliteHandler.driver E) table_name data_list (w : world E),
     let w' := snd (SqliteHandler.mass_update drv table_name data_list batch_size w) in
     log w' = log w ++ update_errors (issued w w') /\
     map fst (issued w w') = map (sqlite_update_call table_name) data_list ++ [Commit]).
Proof.
  intros Hbs. split; intros E drv tn data_list w w'; subst w'.
  - destruct (pg_mass_update_log drv tn data_list batch_size w Hbs)
      as (w' & tr & Hrun & Hs & Hl & Htr).
    rewrite Hrun. cbn [snd]. rewrite (issued_app w w' tr Hs). split; assumption.
  - destruct (sqlite_mass_update_log drv tn data_list batch_size w Hbs)
      as (w' & tr & Hrun & Hs & Hl & Htr).
    rewrite Hrun. cbn [snd]. rewrite (issued_app w w' tr Hs). split; assumption.
Qed.

Lemma mass_update_logs_failures_witness :
  (1 <= 1000)%Z /\
  log (snd (PostgresHandler.mass_update rejecting_pg "t"
              [UpdateSpec [("id", VInt 1)] [("name", VStr "John")];
               UpdateSpec [("id", VInt 2)] [("name", VStr "Jane")]] 1000 disconnected))
  = [LError "Error updating records: no such table: t";
     LError "Error updating records: no such table: t"].
Proof.
  assert (H : (1 <= 1000)%Z) by lia.
  split; [exact H|].
  exact (proj1 (proj1 (mass_update_logs_failures 1000 H) unit rejecting_pg "t"
                      [UpdateSpec [("id", VInt 1)] [("name", VStr "John")];
                       UpdateSpec [("id", VInt 2)] [("name", VStr "Jane")]]
                      disconnected)).
Defined.

(** ** A select that succeeds *)



(** ** The statement of createTable *)

Lemma str_append_assoc (a b c : string) : (a ^^ b) ^^ c = a ^^ b ^^ c.
Proof. induction a as [|x a IH]; simpl; [reflexivity|now rewrite IH]. Qed.

Lemma rstrip_comma_keeps (s : string) :
  ends_with_comma s = false -> rstrip_comma s = s.
Proof.
  induction s as [|c s IH]; [reflexivity|].
  destruct s as [|c' s'].
  - simpl. intros H. now rewrite H.
  - intros H. change (ends_with_comma (String c' s') = false) in H.
    change (rstrip_comma (String c (String c' s')))
      with (match rstrip_comma (String c' s') with
            | EmptyString => if Ascii.eqb c "," then EmptyString else String c EmptyString
            | r => String c r
            end).
    now rewrite (IH H).
Qed.

Lemma rstrip_comma_drops (s : string) : rstrip_comma (s ^^ ",") = rstrip_comma s.
Proof.
  induction s as [|c s IH]; [reflexivity|].
  change (String c s ^^ ",") with (String c (s ^^ ",")).
  simpl. now rewrite IH.
Qed.

Lemma ends_with_comma_app (a b : string) :
  b <> "" -> ends_with_comma (a ^^ b) = ends_with_comma b.
Proof.
  intros Hb. induction a as [|c a IH]; [reflexivity|].
  change (String c a ^^ b) with (String c (a ^^ b)).
  destruct (a ^^ b) as [|c' r] eqn:Hab.
  - destruct a; [simpl in Hab; contradiction|discriminate].
  - exact IH.
Qed.

(** The text of the columns as the loop of [create_tables] appends it *)
Lemma render_fields (fs : list (string * string)) (q : sql) :
  render (fold_left (fun q f => q ++ [Name (fst f); Txt " "; Name (snd f); Txt ","]) fs q)
  = render q
      ^^ fold_right (fun d s => d ^^ "," ^^ s) ""
                    (map (fun f => fst f ^^ " " ^^ snd f) fs).
Proof.
  revert q; induction fs as [|[n t] fs IH]; intros q; simpl.
  - now rewrite append_nil_r.
  - rewrite IH, render_app, str_append_assoc. f_equal. simpl.
    rewrite ?append_nil_r, ?str_append_assoc. f_equal. simpl. f_equal.
    now rewrite str_append_assoc.
Qed.

Lemma trailing_commas (defs : list string) :
  defs <> [] ->
  fold_right (fun d s => d ^^ "," ^^ s) "" defs = String.concat "," defs ^^ ",".
Proof.
  induction defs as [|d defs IH]; [contradiction|]. intros _.
  destruct defs as [|d' defs].
  - simpl. reflexivity.
  - change (fold_right (fun d s => d ^^ "," ^^ s) "" (d :: d' :: defs))
      with (d ^^ "," ^^ fold_right (fun d s => d ^^ "," ^^ s) "" (d' :: defs)).
    rewrite IH by discriminate.
    change (String.concat "," (d :: d' :: defs))
      with (d ^^ "," ^^ String.concat "," (d' :: defs)).
    now rewrite !str_append_assoc.
Qed.

Lemma ends_with_comma_concat (defs : list string) :
  Forall (fun d => d <> "") defs ->
  ends_with_comma (String.concat "," defs) = ends_with_comma (last defs "").
Proof.
  induction 1 as [|d defs Hd H IH]; [reflexivity|].
  destruct defs as [|d' defs]; [reflexivity|].
  change (String.concat "," (d :: d' :: defs))
    with (d ^^ "," ^^ String.concat "," (d' :: defs)).
  change (last (d :: d' :: defs) "") with (last (d' :: defs) "").
  rewrite <- IH, <- str_append_assoc. apply ends_with_comma_app.
  inversion H as [|? ? Hd' _]; subst.
  destruct defs as [|d'' defs]; [exact Hd'|].
  change (String.concat "," (d' :: d'' :: defs))
    with (d' ^^ "," ^^ String.concat "," (d'' :: defs)).
  destruct d'; discriminate.
Qed.

Lemma column_defs_not_empty (info : table_info) :
  Forall (fun d => d <> "") (column_defs info).
Proof.
  unfold column_defs. apply Forall_app. split.
  - destruct (primary_key info) as [[[c t] k]|]; constructor; [|constructor].
    destruct c; discriminate.
  - apply Forall_forall. intros d Hd. apply in_map_iff in Hd as ([n t] & <- & _).
    simpl. destruct n; discriminate.
Qed.

Lemma create_query_text (info : table_info) :
  build_create_query info
  = rstrip_comma (("CREATE TABLE IF NOT EXISTS " ^^ name_table info ^^ " (")
                    ^^ fold_right (fun d s => d ^^ "," ^^ s) "" (column_defs info))
      ^^ ")".
Proof.
  unfold build_create_query, column_defs. rewrite render_fields.
  f_equal. f_equal.
  destruct (primary_key info) as [[[c t] k]|].
  - rewrite render_app, str_append_assoc. f_equal.
    cbn [app fold_right]. unfold render. cbn [fold_right render_frag].
    rewrite !str_append_assoc. reflexivity.
  - reflexivity.
Qed.

Lemma rstrip_comma_clean (s : string) : ends_with_comma (rstrip_comma s) = false.
Proof.
  induction s as [|c s IH]; [reflexivity|].
  change (rstrip_comma (String c s))
    with (match rstrip_comma s with
          | EmptyString => if Ascii.eqb c "," then EmptyString else String c EmptyString
          | r => String c r
          end).
  destruct (rstrip_comma s) as [|c' r].
  - destruct (Ascii.eqb c ",") eqn:Hc; [reflexivity|]. simpl. exact Hc.
  - exact IH.
Qed.

(** The statement of createTable ends with the closing parenthesis, and
    never with a comma before it.  When the last column definition does not
    end with a comma itself, the statement lists the primary key, if any,
    and then the fields in their order, separated by commas, between the
    parentheses that follow the table name; with no column at all the
    parentheses are empty. *)
Theorem create_query_lists_columns (info : table_info) :
  (exists body,
     build_create_query info = body ^^ ")" /\ ends_with_comma body = false) /\
  (ends_with_comma (last (column_defs info) "") = false ->
   build_create_query info
   = "CREATE TABLE IF NOT EXISTS " ^^ name_table info ^^ " ("
       ^^ String.concat "," (column_defs info) ^^ ")").
Proof.
  split.
  { unfold build_create_query. eexists. split; [reflexivity|].
    apply rstrip_comma_clean. }
  intros Hlast. rewrite create_query_text.
  set (head := "CREATE TABLE IF NOT EXISTS " ^^ name_table info ^^ " (").
  assert (Hh : ends_with_comma head = false).
  { unfold head. rewrite <- str_append_assoc.
    rewrite ends_with_comma_app by discriminate. reflexivity. }
  destruct (column_defs info) as [|d defs] eqn:Hdefs.
  - cbn [fold_right]. rewrite append_nil_r, (rstrip_comma_keeps head Hh).
    unfold head. cbn [String.concat]. rewrite !str_append_assoc. reflexivity.
  - rewrite trailing_commas by discriminate.
    rewrite <- str_append_assoc, rstrip_comma_drops.
    assert (Hne : String.concat "," (d :: defs) <> "").
    { pose proof (column_defs_not_empty info) as Hall. rewrite Hdefs in Hall.
      inversion Hall as [|? ? Hd _]; subst.
      destruct defs as [|d' defs']; [exact Hd|].
      change (String.concat "," (d :: d' :: defs'))
        with (d ^^ "," ^^ String.concat "," (d' :: defs')).
      destruct d; discriminate. }
    rewrite rstrip_comma_keeps.
    + unfold head. now rewrite !str_append_assoc.
    + rewrite ends_with_comma_app by exact Hne.
      rewrite ends_with_comma_concat; [exact Hlast|].
      rewrite <- Hdefs. apply column_defs_not_empty.
Qed.

Lemma create_query_lists_columns_witness :
  let info := TableInfo "users" (Some ("id", "INTEGER", "PRIMARY KEY"))
                        [("username", "TEXT"); ("email", "TEXT"); ("age", "INTEGER")] in
  ends_with_comma (last (column_defs info) "") = false /\
  build_create_query info
  = "CREATE TABLE IF NOT EXISTS users (id INTEGER PRIMARY KEY,username TEXT,email TEXT,age INTEGER)".
Proof.
  cbv zeta. split; [reflexivity|].
  exact (proj2 (create_query_lists_columns
                  (TableInfo "users" (Some ("id", "INTEGER", "PRIMARY KEY"))
                             [("username", "TEXT"); ("email", "TEXT"); ("age", "INTEGER")]))
               eq_refl).
Defined.

(** ** Commits of the embedded backend *)

(** The calls of the insert loop are [executemany] calls, and one that fails
    ends the loop. *)
Lemma for_each_rows_calls {E I : Type} (g : I -> exn + list (list pyval))
      (mk : list (list pyval) -> call)
      (run : list (list pyval) -> E -> (exn + unit) * E)
      (l : list I) (w : world E) r w' :
  for_each l (fun i => bind (lift (g i)) (fun values => driver_call (mk values) (run values))) w
  = (r, w') ->
  exists tr, sent w' = sent w ++ tr /\
             Forall (fun ce => exists values, fst ce = mk values) tr /\
             (r = Ok tt -> Forall (fun ce => snd ce = None) tr).
Proof.
  revert w; induction l as [|i l IH]; intros w H; simpl in H.
  - injection H as <- <-. exists []. rewrite app_nil_r. repeat split; constructor.
  - unfold bind at 1 in H. unfold bind at 1 in H.
    destruct (g i) as [x|values]; simpl in H.
    + injection H as <- <-. exists []. rewrite app_nil_r.
      repeat split; try constructor; try discriminate.
    + unfold driver_call at 1 in H.
      destruct (run values (engine w)) as [[x|[]] eng].
      * injection H as <- <-. eexists. split; [reflexivity|].
        split; [constructor; [now exists values|constructor]|discriminate].
      * apply IH in H. cbn [sent] in H.
        destruct H as (tr & Hs & Hmk & Hok).
        exists ((mk values, None) :: tr). split; [|split].
        -- rewrite Hs, <- app_assoc. reflexivity.
        -- constructor; [now exists values|exact Hmk].
        -- intros Hr. constructor; [reflexivity|exact (Hok Hr)].
Qed.

Ltac trace_cases :=
  unfold issued; cbn [sent snd fst];
  rewrite <- ?app_assoc, ?skipn_app_length; cbn [app map fst In];
  repeat split; intros;
  repeat match goal with
         | H : _ \/ _ |- _ => destruct H
         | H : False |- _ => destruct H
         | H : (_, _) = (_, _) |- _ => injection H as ? ?; subst
         | H : Ok _ = Ok _ |- _ => injection H as H; simpl in H
         end;
  try discriminate; try congruence; auto.

(** On the embedded backend createTable, bulk insert, delete and deleteAll
    return "ok" exactly when their commit was made and succeeded, and they
    never commit after a failed statement: a failed call of a run that has
    committed can only be the commit itself. *)
Theorem sqlite_ok_means_committed :
  forall (E : Type) (drv : SqliteHandler.driver E) (w : world E),
    let settled (run : outcome string * world E) :=
      (fst run = Ok "ok" <-> In (Commit, None) (issued w (snd run))) /\
      (In Commit (map fst (issued w (snd run))) ->
       forall c e, In (c, Some e) (issued w (snd run)) -> c = Commit) in
    (forall info, settled (SqliteHandler.create_tables drv info w)) /\
    (forall table_name records batch_size,
       settled (SqliteHandler.insert_into_table_bulk drv table_name records batch_size w)) /\
    (forall table_name d, settled (SqliteHandler.delete_data drv table_name d w)) /\
    (forall table_name, settled (SqliteHandler.delete_all_data_from_table drv table_name w)).
Proof.
  intros E drv w settled. subst settled. cbv beta.
  split; [|split; [|split]].
  - intros info. unfold SqliteHandler.create_tables.
    rewrite bind_run, connect_run.
    match goal with |- context [finally ?m close ?w0] =>
      destruct (m w0) as [r1 w1] eqn:Hm; rewrite (finally_close_eq _ _ _ _ Hm)
    end.
    cbn [fst snd]. rewrite issued_closed.
    unfold_m. cbn [engine] in Hm.
    destruct (SqliteHandler.execute drv _ _ _) as [[x|s] eng]; cbn [engine] in Hm.
    + injection Hm as <- <-. trace_cases.
    + destruct (SqliteHandler.commit drv eng) as [[x|[]] eng'];
        injection Hm as <- <-; trace_cases.
  - intros tn records bs. unfold SqliteHandler.insert_into_table_bulk.
    rewrite bind_run, connect_run.
    match goal with |- context [finally ?m close ?w0] =>
      destruct (m w0) as [r1 w1] eqn:Hm; rewrite (finally_close_eq _ _ _ _ Hm)
    end.
    cbn [fst snd]. rewrite issued_closed.
    rewrite try_except_run, bind_run in Hm.
    destruct (range 0 (len records) bs) as [x|starts]; simpl lift in Hm.
    + unfold_m. injection Hm as <- <-. trace_cases.
      all: rewrite skipn_all in *; cbn [In map] in *; contradiction.
    + unfold ret at 1 in Hm. rewrite bind_run in Hm.
      match type of Hm with context [for_each starts ?f ?w0] =>
        destruct (for_each starts f w0) as [[[]|x] w2] eqn:Hloop
      end;
        apply for_each_rows_calls in Hloop; cbn [sent] in Hloop;
        destruct Hloop as (tr & Hs & Hmk & Hok).
      * specialize (Hok eq_refl).
        assert (Hnc : forall oe, ~ In (Commit, oe) tr).
        { intros oe Hin. rewrite Forall_forall in Hmk.
          destruct (Hmk _ Hin) as [v Hv]. discriminate. }
        assert (Hnf : forall c e, ~ In (c, Some e) tr).
        { intros c e Hin. rewrite Forall_forall in Hok.
          specialize (Hok _ Hin). discriminate. }
        unfold bind, driver_call, logger_info, logger_error, ret in Hm.
        destruct (SqliteHandler.commit drv (engine w2)) as [[e|[]] eng];
          cbn in Hm; injection Hm as <- <-;
          (erewrite issued_app; [|cbn [sent]; rewrite Hs, <- app_assoc; reflexivity]).
        -- split; [split|].
           ++ intros H. injection H as H. simpl in H. discriminate.
           ++ intros H. apply in_app_or in H as [H|[H|[]]]; [|discriminate].
              destruct (Hnc _ H).
           ++ intros _ c e' H. apply in_app_or in H as [H|[H|[]]].
              ** destruct (Hnf _ _ H).
              ** now injection H as <- _.
        -- split; [split|].
           ++ intros _. apply in_or_app. right. now left.
           ++ reflexivity.
           ++ intros _ c e' H. apply in_app_or in H as [H|[H|[]]].
              ** destruct (Hnf _ _ H).
              ** discriminate.
      * unfold bind, logger_error, ret in Hm. cbn in Hm. injection Hm as <- <-.
        (erewrite issued_app; [|cbn [sent]; exact Hs]).
        assert (Hnc : ~ In Commit (map fst tr)).
        { intros Hin. apply in_map_iff in Hin as (ce & Hce & Hin).
          rewrite Forall_forall in Hmk. destruct (Hmk _ Hin) as [v Hv].
          rewrite Hv in Hce. discriminate. }
        split; [split|].
        -- intros H. injection H as H. simpl in H. discriminate.
        -- intros H. exfalso. apply Hnc.
           apply in_map_iff. exists (Commit, None). auto.
        -- intros H. contradiction.
  - intros tn d. unfold SqliteHandler.delete_data.
    destruct (SqliteHandler.build_delete_query tn d) as [q args].
    match goal with |- context [finally ?m close ?w0] =>
      destruct (m w0) as [r1 w1] eqn:Hm; rewrite (finally_close_eq _ _ _ _ Hm)
    end.
    cbn [fst snd]. rewrite issued_closed.
    rewrite try_except_run, bind_run, connect_run in Hm.
    unfold_m. cbn [engine] in Hm.
    destruct (SqliteHandler.execute drv _ _ _) as [[x|s] eng]; cbn [engine] in Hm.
    + injection Hm as <- <-. trace_cases.
    + destruct (SqliteHandler.commit drv eng) as [[x|[]] eng'];
        injection Hm as <- <-; trace_cases.
  - intros tn. unfold SqliteHandler.delete_all_data_from_table.
    rewrite bind_run, connect_run. unfold_m. cbn [engine].
    destruct (SqliteHandler.execute drv _ _ _) as [[x|s] eng]; cbn [engine].
    + trace_cases.
    + destruct (SqliteHandler.commit drv eng) as [[x|[]] eng']; trace_cases.
Qed.

Lemma sqlite_ok_means_committed_witness :
  In Commit (map fst (issued disconnected
                        (snd (SqliteHandler.insert_into_table_bulk
                                accepting_sqlite "t" users 2 disconnected)))) /\
  forall c e,
    In (c, Some e) (issued disconnected
                      (snd (SqliteHandler.insert_into_table_bulk
                              accepting_sqlite "t" users 2 disconnected))) ->
    c = Commit.
Proof.
  assert (H : In Commit (map fst (issued disconnected
                                    (snd (SqliteHandler.insert_into_table_bulk
                                            accepting_sqlite "t" users 2 disconnected)))))
    by (vm_compute; right; right; now left).
  split; [exact H|].
  exact (proj2 (proj1 (proj2 (sqlite_ok_means_committed unit accepting_sqlite disconnected))
                      "t" users 2%Z) H).
Defined.

(** ** Batches of bulk update *)

(** The batch size of bulk update only groups the iteration: with any two
    batch sizes of at least one a run makes the same calls, logs the same
    entries and ends in the same state, on both backends. *)
Theorem mass_update_ignores_batch_size (b1 b2 : Z) :
  (1 <= b1)%Z -> (1 <= b2)%Z ->
  (forall (E : Type) (drv : PostgresHandler.driver E) table_name data_list (w : world E),
     PostgresHandler.mass_update drv table_name data_list b1 w
     = PostgresHandler.mass_update drv table_name data_list b2 w) /\
  (forall (E : Type) (drv : SqliteHandler.driver E) table_name data_list (w : world E),
     SqliteHandler.mass_update drv table_name data_list b1 w
     = SqliteHandler.mass_update drv table_name data_list b2 w).
Proof.
  intros H1 H2. split; intros E drv tn data_list w.
  - destruct (range_ok 0 (len data_list) b1 ltac:(lia)) as [s1 Hr1].
    destruct (range_ok 0 (len data_list) b2 ltac:(lia)) as [s2 Hr2].
    unfold PostgresHandler.mass_update.
    rewrite !bind_run, connect_run, !bind_run, Hr1, Hr2.
    simpl lift. unfold ret. cbv beta iota zeta.
    rewrite (nested_loop _ _ _ _ H1 Hr1), (nested_loop _ _ _ _ H2 Hr2). reflexivity.
  - destruct (range_ok 0 (len data_list) b1 ltac:(lia)) as [s1 Hr1].
    destruct (range_ok 0 (len data_list) b2 ltac:(lia)) as [s2 Hr2].
    unfold SqliteHandler.mass_update.
    rewrite !bind_run, connect_run.
    unfold finally, try_except. rewrite !bind_run, Hr1, Hr2.
    simpl lift. unfold ret. cbv beta iota zeta. rewrite !bind_run.
    rewrite (nested_loop _ _ _ _ H1 Hr1), (nested_loop _ _ _ _ H2 Hr2). reflexivity.
Qed.

Lemma mass_update_ignores_batch_size_witness :
  (1 <= 1)%Z /\ (1 <= 1000)%Z /\
  PostgresHandler.mass_update accepting_pg "t"
    [UpdateSpec [("id", VInt 1)] [("name", VStr "John")];
     UpdateSpec [("id", VInt 2)] [("name", VStr "Jane")]] 1 disconnected
  = PostgresHandler.mass_update accepting_pg "t"
      [UpdateSpec [("id", VInt 1)] [("name", VStr "John")];
       UpdateSpec [("id", VInt 2)] [("name", VStr "Jane")]] 1000 disconnected.
Proof.
  assert (H1 : (1 <= 1)%Z) by lia.
  assert (H2 : (1 <= 1000)%Z) by lia.
  split; [exact H1|]. split; [exact H2|].
  exact (proj1 (mass_update_ignores_batch_size 1 1000 H1 H2) unit accepting_pg "t"
               [UpdateSpec [("id", VInt 1)] [("name", VStr "John")];
                UpdateSpec [("id", VInt 2)] [("name", VStr "Jane")]] disconnected).
Defined.
